(** * Harmonized Landsat Sentinel timeseries generation

    A shallow embedding of [generate_HLS_timeseries], [process_sensor_band]
    and [process_sensor_mosaic] of the package [harmonized_landsat_sentinel],
    with the properties of the specification stated and proved about it.

    The Python code is effectful: it logs, queries a catalog, resolves
    granules, creates directories and writes raster files, and it uses
    exceptions for control flow.  It is embedded in a state and error monad
    whose state holds the log, the trace of calls made to the collaborators
    and the file system; the answers of the collaborators are the fields of
    a record [World]. *)

From Stdlib Require Import ZArith Ascii String List Lia.
From stdpp Require Import base decidable option list sorting gmap strings pretty.

Local Open Scope string_scope.
Local Open Scope Z_scope.

(** ** Python values: text *)

Module Py.

Definition sep : ascii := "/"%char.

Definition is_sep (c : ascii) : bool := Ascii.eqb c sep.

(** [s.startswith("/")] *)
Definition starts_with_sep (s : string) : bool :=
  match s with
  | String c _ => is_sep c
  | EmptyString => false
  end.

(** [s.endswith("/")] *)
Fixpoint ends_with_sep (s : string) : bool :=
  match s with
  | EmptyString => false
  | String c EmptyString => is_sep c
  | String _ s' => ends_with_sep s'
  end.

(** [bool(s)]: a text is true when it is not empty. *)
Definition truthy (s : string) : bool :=
  match s with
  | EmptyString => false
  | String _ _ => true
  end.

(** One round of the loop of [posixpath.join(a, *p)]:
<<
    if b.startswith(sep):            path = b
    elif not path or path.endswith(sep): path += b
    else:                            path += sep + b
>> *)
Definition join_step (path b : string) : string :=
  if starts_with_sep b then b
  else if negb (truthy path) || ends_with_sep path then path ++ b
  else path ++ "/" ++ b.

(** [posixpath.join(a, *p)] on texts. *)
Definition join (a : string) (p : list string) : string :=
  fold_left join_step p a.

Fixpoint drop_to_sep (l : list ascii) : list ascii :=
  match l with
  | [] => []
  | c :: l' => if is_sep c then l else drop_to_sep l'
  end.

Fixpoint lstrip_sep (l : list ascii) : list ascii :=
  match l with
  | [] => []
  | c :: l' => if is_sep c then lstrip_sep l' else l
  end.

(** [posixpath.dirname(p)]:
<<
    i = p.rfind(sep) + 1
    head = p[:i]
    if head and head != sep*len(head): head = head.rstrip(sep)
    return head
>>
    computed on the reversed text. *)
Definition dirname (p : string) : string :=
  let rhead := drop_to_sep (rev (list_ascii_of_string p)) in
  if forallb is_sep rhead then string_of_list_ascii (rev rhead)
  else string_of_list_ascii (rev (lstrip_sep rhead)).

(** [sep.join(l)] *)
Fixpoint str_join (s : string) (l : list string) : string :=
  match l with
  | [] => ""
  | [x] => x
  | x :: l' => x ++ s ++ str_join s l'
  end.

(** [s.startswith(p)] *)
Definition startswith (p s : string) : bool := String.prefix p s.

End Py.

(** ** Python values: calendar dates

    A [datetime.date] is represented by its proleptic Gregorian ordinal
    ([date.toordinal()]): comparison, equality and [+ timedelta(days=1)] are
    those of [Z].  The catalog listing carries its dates as ISO texts
    [YYYY-MM-DD], whose order and equality are those of the dates they
    denote; the embedding keeps the date and renders the text where the
    code formats it. *)

Module Date.

Definition DI400Y : Z := 146097.
Definition DI100Y : Z := 36524.
Definition DI4Y : Z := 1461.

Definition is_leap (year : Z) : bool :=
  (year mod 4 =? 0) && (negb (year mod 100 =? 0) || (year mod 400 =? 0)).

Definition days_before_year (year : Z) : Z :=
  let y := year - 1 in y * 365 + y / 4 - y / 100 + y / 400.

(** [_DAYS_IN_MONTH] and [_DAYS_BEFORE_MONTH] of [datetime]. *)
Definition days_in_month_tbl (month : Z) : Z :=
  nth (Z.to_nat month) [0; 31; 28; 31; 30; 31; 30; 31; 31; 30; 31; 30; 31] 0.

Definition days_before_month_tbl (month : Z) : Z :=
  nth (Z.to_nat month) [0; 0; 31; 59; 90; 120; 151; 181; 212; 243; 273; 304; 334] 0.

Definition days_before_month (year month : Z) : Z :=
  days_before_month_tbl month + (if (2 <? month) && is_leap year then 1 else 0).

(** [date(year, month, day).toordinal()] *)
Definition ymd2ord (year month day : Z) : Z :=
  days_before_year year + days_before_month year month + day.

(** [_ord2ymd(n)] of [datetime]. *)
Definition ord2ymd (ordinal : Z) : Z * Z * Z :=
  let n := ordinal - 1 in
  let n400 := n / DI400Y in let n := n mod DI400Y in
  let year := n400 * 400 + 1 in
  let n100 := n / DI100Y in let n := n mod DI100Y in
  let n4 := n / DI4Y in let n := n mod DI4Y in
  let n1 := n / 365 in let n := n mod 365 in
  let year := year + n100 * 100 + n4 * 4 + n1 in
  if (n1 =? 4) || (n100 =? 4) then (year - 1, 12, 31)
  else
    let leapyear := (n1 =? 3) && (negb (n4 =? 24) || (n100 =? 3)) in
    let month := Z.shiftr (n + 50) 5 in
    let preceding :=
      days_before_month_tbl month + (if (2 <? month) && leapyear then 1 else 0) in
    if n <? preceding then
      let month := month - 1 in
      let preceding :=
        preceding - (days_in_month_tbl month
                     + (if (month =? 2) && leapyear then 1 else 0)) in
      (year, month, n - preceding + 1)
    else (year, month, n - preceding + 1).

Definition digit (n : Z) : string :=
  String (ascii_of_nat (48 + Z.to_nat (n mod 10))) EmptyString.

(** [%02d] and [%04d] on the values a date holds. *)
Definition pad2 (n : Z) : string := digit (n / 10) ++ digit n.
Definition pad4 (n : Z) : string :=
  digit (n / 1000) ++ digit (n / 100) ++ digit (n / 10) ++ digit n.

(** [d.strftime('%Y%m%d')] *)
Definition strftime_Ymd (d : Z) : string :=
  let '(y, m, dd) := ord2ymd d in pad4 y ++ pad2 m ++ pad2 dd.

(** [str(d)], that is [d.isoformat()]. *)
Definition isoformat (d : Z) : string :=
  let '(y, m, dd) := ord2ymd d in pad4 y ++ "-" ++ pad2 m ++ "-" ++ pad2 dd.

End Date.

(** ** Exceptions, logging and the collaborators *)

(** The classes of the exceptions the code raises, tests for or may receive
    from a collaborator.  [ParserError] is dateutil's subclass of
    [ValueError]; everything here derives from [Exception]. *)
Inductive exn_class :=
  | ValueError
  | ParserError
  | OverflowError
  | TypeError
  | AttributeError
  | KeyError
  | FileExistsError
  | OtherError (name : string).

Record exn := Exn { exn_cls : exn_class; exn_msg : string }.

(** [isinstance(e, ValueError)] *)
Definition is_ValueError (e : exn) : bool :=
  match exn_cls e with
  | ValueError | ParserError => true
  | _ => false
  end.

(** The classes named by [except (AttributeError, KeyError)]. *)
Definition is_band_not_found (e : exn) : bool :=
  match exn_cls e with
  | AttributeError | KeyError => true
  | _ => false
  end.

Inductive result (A : Type) :=
  | Ret (a : A)
  | Raise (e : exn).
Arguments Ret {A} a.
Arguments Raise {A} e.

Inductive level := DEBUG | INFO | WARNING | ERROR.

Definition log_entry : Type := level * string.

(** *** Symbolic rasters

    The raster library is outside the repository.  Its values are kept as
    terms that record how they were obtained, so that a statement can say
    which granule an image came from and on which grid a mosaic was built. *)

Inductive accessor := sentinel | landsat.

(** The result of [HLS.sentinel(tile=, date_UTC=)] or [HLS.landsat(...)]. *)
Record granule := Granule { g_accessor : accessor; g_tile : string; g_date : Z }.

(** A bounding box: one the caller gave, or [bbox.to_crs(crs)]. *)
Inductive bbox :=
  | BBoxGiven (name : string)
  | BBoxToCrs (b : bbox) (crs : string).

(** A raster grid: one the caller gave, or
    [rt.RasterGrid.from_bbox(bbox=, cell_size=, crs=)].  The cell size is
    only passed on, never computed with. *)
Inductive grid :=
  | GridGiven (name : string)
  | GridFromBBox (b : bbox) (cell_size : Z) (crs : string).

(** The [geometry] argument: [isinstance(geometry, BBox)] or not. *)
Inductive geometry :=
  | GeomBBox (b : bbox)
  | GeomRaster (g : grid).

#[warnings="-register-all"]
Inductive image :=
  | BandImage (g : granule) (band : string)         (* granule.product(band) *)
  | CombinedImage (band : string) (d : Z) (tile : string)  (* HLS.product(...) *)
  | MosaicImage (images : list image) (g : grid).   (* rt.mosaic(images, geometry=) *)

(** What [sentinel_tiles.tiles] is asked about. *)
Inductive lookup_target :=
  | LatLonPolygon (b : bbox)          (* geometry.latlon.polygon.geometry *)
  | BoundaryLatLon (g : grid).        (* geometry.boundary_latlon.geometry *)

(** One row of the catalog listing: its date and the two optional sensor
    fields. *)
Record row := Row { date_UTC : Z; row_sentinel : option string; row_landsat : option string }.

(** The calls that reach outside the process. *)
Inductive event :=
  | EvTileLookup (target : lookup_target)
  | EvConnect (download_directory : option string)
  | EvListing (tile : string) (start_UTC end_UTC : option Z)
  | EvGranule (g : granule)
  | EvBand (g : granule) (band : string)
  | EvCombined (band : string) (d : Z) (tile : string)
  | EvMakedirs (directory : string)
  | EvWrite (path : string) (img : image).

(** The answers of the collaborators, fixed for a run. *)
Record World := {
  (* dateutil: parser.parse(text).date() *)
  parse_date : string -> result Z;
  (* the text of the set valid_sources inside the error message *)
  repr_valid_sources : string;
  (* sentinel_tiles.tiles(target_geometry=) *)
  tiles_covering : lookup_target -> result (list string);
  (* importing the default connection, or HLS2Connection(download_directory=) *)
  connect_error : option string -> option exn;
  (* HLS.listing(tile=, start_UTC=, end_UTC=) *)
  listing : string -> option Z -> option Z -> result (list row);
  (* HLS.sentinel / HLS.landsat *)
  granule_error : granule -> option exn;
  (* granule.product(band) *)
  band_error : granule -> string -> option exn;
  (* HLS.product(product=, date_UTC=, tile=) *)
  combined_error : string -> Z -> string -> option exn;
  (* image.geometry.crs and image.geometry.cell_size *)
  image_crs : image -> string;
  image_cell_size : image -> Z;
  (* bbox.to_crs, RasterGrid.from_bbox, rt.mosaic *)
  to_crs_error : bbox -> string -> option exn;
  from_bbox_error : bbox -> Z -> string -> option exn;
  mosaic_error : list image -> grid -> option exn;
  (* os.path.expanduser *)
  expanduser : string -> string;
  (* an operating system error of os.makedirs other than "exists" *)
  makedirs_error : string -> option exn;
  (* image.to_geotiff(path) *)
  to_geotiff_error : image -> string -> option exn;
}.

(** ** The monad *)

Record state := State {
  st_log : list log_entry;
  st_trace : list event;
  st_dirs : gset string;
  st_files : gmap string image;
}.

Definition M (A : Type) : Type := state -> result A * state.

Definition ret {A} (a : A) : M A := fun st => (Ret a, st).

Definition raise {A} (e : exn) : M A := fun st => (Raise e, st).

Definition bind {A B} (m : M A) (f : A -> M B) : M B :=
  fun st =>
    match m st with
    | (Ret a, st') => f a st'
    | (Raise e, st') => (Raise e, st')
    end.

Notation "x <- m ;; k" := (bind m (fun x => k))
  (at level 100, m at next level, right associativity).
Notation "m ;;; k" := (bind m (fun _ => k))
  (at level 100, right associativity).

(** [try: m  except Exception as e: h e] *)
Definition try_except {A} (m : M A) (h : exn -> M A) : M A :=
  fun st =>
    match m st with
    | (Ret a, st') => (Ret a, st')
    | (Raise e, st') => h e st'
    end.

(** [try: m  except (C1, C2) as e: h e], the other classes pass through. *)
Definition try_except_only {A} (classes : exn -> bool) (m : M A) (h : exn -> M A) : M A :=
  try_except m (fun e => if classes e then h e else raise e).

Definition lift_result {A} (r : result A) : M A := fun st => (r, st).

Definition fail_if (o : option exn) : M unit :=
  match o with
  | Some e => raise e
  | None => ret tt
  end.

Definition log (l : level) (msg : string) : M unit :=
  fun st => (Ret tt, State (st_log st ++ [(l, msg)]) (st_trace st) (st_dirs st) (st_files st)).

Definition emit (ev : event) : M unit :=
  fun st => (Ret tt, State (st_log st) (st_trace st ++ [ev]) (st_dirs st) (st_files st)).

(** [for x in l: acc = body x acc] *)
Fixpoint for_each {A B} (l : list A) (body : A -> B -> M B) (acc : B) : M B :=
  match l with
  | [] => ret acc
  | x :: l' => acc' <- body x acc ;; for_each l' body acc'
  end.

(** ** The collaborators as computations *)

Section Collaborators.

Variable W : World.

Definition HLS_listing (tile : string) (start_UTC end_UTC : option Z) : M (list row) :=
  emit (EvListing tile start_UTC end_UTC) ;;;
  lift_result (listing W tile start_UTC end_UTC).

Definition HLS_granule (a : accessor) (tile : string) (d : Z) : M granule :=
  let g := Granule a tile d in
  emit (EvGranule g) ;;; fail_if (granule_error W g) ;;; ret g.

Definition granule_product (g : granule) (band : string) : M image :=
  emit (EvBand g band) ;;; fail_if (band_error W g band) ;;; ret (BandImage g band).

Definition HLS_product (band : string) (d : Z) (tile : string) : M image :=
  emit (EvCombined band d tile) ;;;
  fail_if (combined_error W band d tile) ;;;
  ret (CombinedImage band d tile).

Definition sentinel_tiles (t : lookup_target) : M (list string) :=
  emit (EvTileLookup t) ;;; lift_result (tiles_covering W t).

Definition connect (download_directory : option string) : M unit :=
  emit (EvConnect download_directory) ;;; fail_if (connect_error W download_directory).

(** [os.makedirs(directory, exist_ok=exist_ok)]: an existing directory is an
    error unless [exist_ok]. *)
Definition makedirs (exist_ok : bool) (directory : string) : M unit :=
  emit (EvMakedirs directory) ;;;
  fail_if (makedirs_error W directory) ;;;
  fun st =>
    if bool_decide (directory ∈ st_dirs st) then
      if exist_ok then (Ret tt, st)
      else (Raise (Exn FileExistsError directory), st)
    else
      (Ret tt, State (st_log st) (st_trace st) ({[directory]} ∪ st_dirs st) (st_files st)).

(** [image.to_geotiff(path)]: writes or overwrites the file. *)
Definition to_geotiff (img : image) (path : string) : M unit :=
  emit (EvWrite path img) ;;;
  fail_if (to_geotiff_error W img path) ;;;
  fun st =>
    (Ret tt, State (st_log st) (st_trace st) (st_dirs st) (<[path := img]> (st_files st))).

Definition bbox_to_crs (b : bbox) (crs : string) : M bbox :=
  fail_if (to_crs_error W b crs) ;;; ret (BBoxToCrs b crs).

Definition RasterGrid_from_bbox (b : bbox) (cell_size : Z) (crs : string) : M grid :=
  fail_if (from_bbox_error W b cell_size crs) ;;; ret (GridFromBBox b cell_size crs).

Definition rt_mosaic (images : list image) (g : grid) : M image :=
  fail_if (mosaic_error W images g) ;;; ret (MosaicImage images g).

End Collaborators.

(** ** The availability calendar

    [tile_sensor_dates]: a dictionary from tile to a dictionary from sensor
    name to the list of its dates. *)

Abbreviation calendar := (gmap string (gmap string (list Z))).

(** [tile_sensor_dates.get(tile, {}).get(sensor, [])] *)
Definition available_dates (tsd : calendar) (tile sensor : string) : list Z :=
  match tsd !! tile with
  | Some per_sensor =>
      match per_sensor !! sensor with
      | Some dates => dates
      | None => []
      end
  | None => []
  end.

(** [d in dates] *)
Definition date_in (d : Z) (dates : list Z) : bool := bool_decide (d ∈ dates).

(** [{"S30": s30_dates, "L30": l30_dates}] *)
Definition sensor_dict (s30_dates l30_dates : list Z) : gmap string (list Z) :=
  <["L30" := l30_dates]> (<["S30" := s30_dates]> ∅).

(** ** process_sensor_band.py *)

Section ProcessSensorBand.

Variable W : World.

(** [f"{sensor}_{band}_{tile}_{d_parsed.strftime('%Y%m%d')}.tif"] *)
Definition tile_filename (sensor band tile : string) (d_parsed : Z) : string :=
  sensor ++ "_" ++ band ++ "_" ++ tile ++ "_" ++ Date.strftime_Ymd d_parsed ++ ".tif".

(** The accessor chosen by [if sensor == "S30": ... else: ...]. *)
Definition accessor_of (sensor : string) : accessor :=
  if String.eqb sensor "S30" then sentinel else landsat.

(** [directory = dirname(expanduser(filename))]
    [if directory: makedirs(directory, exist_ok=True)] *)
Definition ensure_directory (filename : string) : M unit :=
  let directory := Py.dirname (expanduser W filename) in
  if Py.truthy directory then makedirs W true directory else ret tt.

Definition process_sensor_band
    (sensor : string) (d d_parsed : Z) (band tile : string)
    (output_directory : string) : M (option string) :=
  log INFO ("extracting band " ++ band ++ " for " ++ sensor ++ " tile " ++ tile
            ++ " on date " ++ Date.isoformat d_parsed) ;;;
  try_except
    (granule <- HLS_granule W (accessor_of sensor) tile d_parsed ;;
     extracted <-
       try_except_only is_band_not_found
         (image <- granule_product W granule band ;; ret (Some image))
         (fun e =>
            log WARNING ("Band '" ++ band ++ "' not available for " ++ sensor
                         ++ ": " ++ exn_msg e) ;;;
            ret None) ;;
     match extracted with
     | None => ret None
     | Some image =>
         let filename :=
           Py.join output_directory [tile_filename sensor band tile d_parsed] in
         ensure_directory filename ;;;
         log INFO ("writing image to " ++ filename) ;;;
         to_geotiff W image (expanduser W filename) ;;;
         ret (Some filename)
     end)
    (fun e =>
       log ERROR ("Error processing " ++ sensor ++ " band " ++ band ++ " for tile "
                  ++ tile ++ " on " ++ Date.isoformat d_parsed ++ ": " ++ exn_msg e) ;;;
       ret None).

End ProcessSensorBand.

(** ** process_sensor_mosaic.py *)

Section ProcessSensorMosaic.

Variable W : World.

(** [f"{sensor}_{band}_{d_parsed.strftime('%Y%m%d')}.tif"] *)
Definition mosaic_filename (sensor band : string) (d_parsed : Z) : string :=
  sensor ++ "_" ++ band ++ "_" ++ Date.strftime_Ymd d_parsed ++ ".tif".

(** The body of [for tile in tiles] (lines 49-75): [images] is the list
    collected so far. *)
Definition collect_tile
    (sensor : string) (d d_parsed : Z) (band : string) (tsd : calendar)
    (tile : string) (images : list image) : M (list image) :=
  if negb (date_in d (available_dates tsd tile sensor)) then ret images
  else
    log INFO ("extracting band " ++ band ++ " for " ++ sensor ++ " tile " ++ tile
              ++ " on date " ++ Date.isoformat d_parsed) ;;;
    try_except
      (granule <- HLS_granule W (accessor_of sensor) tile d_parsed ;;
       try_except_only is_band_not_found
         (image <- granule_product W granule band ;; ret (images ++ [image])%list)
         (fun e =>
            log DEBUG ("Band '" ++ band ++ "' not available for " ++ sensor
                       ++ " on tile " ++ tile ++ ": " ++ exn_msg e) ;;;
            ret images))
      (fun e =>
         log ERROR ("Error processing " ++ sensor ++ " band " ++ band ++ " for tile "
                    ++ tile ++ " on " ++ Date.isoformat d_parsed ++ ": " ++ exn_msg e) ;;;
         ret images).

Definition collect_images
    (sensor : string) (d d_parsed : Z) (band : string) (tiles : list string)
    (tsd : calendar) : M (list image) :=
  for_each tiles (collect_tile sensor d d_parsed band tsd) [].

(** The working grid (lines 89-96). *)
Definition mosaic_grid (geom : geometry) (first : image) : M grid :=
  match geom with
  | GeomBBox b =>
      target_bbox <- bbox_to_crs W b (image_crs W first) ;;
      RasterGrid_from_bbox W target_bbox (image_cell_size W first) (image_crs W first)
  | GeomRaster g => ret g
  end.

(** Lines 88-111 with their handler left to the caller: the grid, the
    composite, the directory, the file. *)
Definition write_mosaic
    (geom : geometry) (first : image) (images : list image) (filename : string)
    : M string :=
  mosaic_geometry <- mosaic_grid geom first ;;
  composite <- rt_mosaic W images mosaic_geometry ;;
  ensure_directory W filename ;;;
  log INFO ("writing image to " ++ filename) ;;;
  to_geotiff W composite (expanduser W filename) ;;;
  ret filename.

Definition process_sensor_mosaic
    (sensor : string) (d d_parsed : Z) (band : string) (tiles : list string)
    (tsd : calendar) (geom : geometry) (output_directory : string)
    : M (option string) :=
  images <- collect_images sensor d d_parsed band tiles tsd ;;
  match images with
  | [] =>
      log WARNING ("No images collected for " ++ sensor ++ " band " ++ band ++ " on "
                   ++ Date.isoformat d_parsed) ;;;
      ret None
  | first :: _ =>
      let filename := Py.join output_directory [mosaic_filename sensor band d_parsed] in
      try_except
        (f <- write_mosaic geom first images filename ;; ret (Some f))
        (fun e =>
           log ERROR ("Error creating mosaic for " ++ sensor ++ " band " ++ band
                      ++ " on " ++ Date.isoformat d_parsed ++ ": " ++ exn_msg e) ;;;
           ret None)
  end.

End ProcessSensorMosaic.

(** ** generate_HLS_timeseries.py *)

(** The default list of spectral bands. *)
Definition BANDS : list string :=
  [ "red"; "green"; "blue"; "coastal_aerosol"; "NIR"; "rededge1"; "rededge2";
    "rededge3"; "NIR_broad"; "SWIR1"; "SWIR2"; "water_vapor"; "cirrus" ].

(** [Union[List[str], str]] *)
Inductive str_or_list :=
  | Str (s : string)
  | StrList (l : list string).

(** [Union[str, date]] *)
Inductive date_arg :=
  | DateText (s : string)
  | DateObject (d : Z).

(** The arguments of [generate_HLS_timeseries]. *)
Record args := Args {
  bands : option str_or_list;
  tiles : option str_or_list;
  geom : option geometry;
  start_date_UTC : option date_arg;
  end_date_UTC : option date_arg;
  download_directory : option string;
  output_directory : option string;
  source : string;
}.

Definition valid_sources : list string := ["HLS"; "S30"; "L30"; "both"].

(** [sorted(values.unique())] and [sorted(a_set)]: ascending, each value
    once. *)
Definition py_sorted (l : list Z) : list Z := merge_sort Z.le l.

Definition sorted_unique (l : list Z) : list Z := py_sorted (remove_dups l).

(** [sorted(listing[listing.sentinel.notna()].date_UTC.unique())] *)
Definition s30_dates_of (rows : list row) : list Z :=
  sorted_unique (map date_UTC (filter (fun r => is_Some (row_sentinel r)) rows)).

(** [sorted(listing[listing.landsat.notna()].date_UTC.unique())] *)
Definition l30_dates_of (rows : list row) : list Z :=
  sorted_unique (map date_UTC (filter (fun r => is_Some (row_landsat r)) rows)).

Definition str_date (d : option Z) : string :=
  match d with
  | Some d => Date.isoformat d
  | None => "None"
  end.

Definition str_opt (s : option string) : string :=
  match s with
  | Some s => s
  | None => "None"
  end.

(** [join(a, *p)] where [a] may be [None]. *)
Definition os_path_join (a : option string) (p : list string) : M string :=
  match a with
  | Some a => ret (Py.join a p)
  | None => raise (Exn TypeError "expected str, bytes or os.PathLike object, not NoneType")
  end.

(** [if filename: output_filenames.append(filename)] *)
Definition append_if (filename : option string) (output_filenames : list string)
    : list string :=
  match filename with
  | Some f => if Py.truthy f then output_filenames ++ [f] else output_filenames
  | None => output_filenames
  end.

Section Orchestrator.

Variable W : World.

(** [if isinstance(x, str): x = parser.parse(x).date()] *)
Definition normalize_date (x : option date_arg) : M (option Z) :=
  match x with
  | Some (DateText s) => d <- lift_result (parse_date W s) ;; ret (Some d)
  | Some (DateObject d) => ret (Some d)
  | None => ret None
  end.

(** Lines 95-101. *)
Definition normalize_bands (b : option str_or_list) : list string :=
  match b with
  | None => BANDS
  | Some (Str s) => [s]
  | Some (StrList l) => l
  end.

(** Lines 109-124. *)
Definition resolve_tiles (t : option str_or_list) (g : option geometry)
    : M (list string) :=
  match t, g with
  | None, Some (GeomBBox b) => sentinel_tiles W (LatLonPolygon b)
  | None, Some (GeomRaster r) => sentinel_tiles W (BoundaryLatLon r)
  | None, None => ret []
  | Some (Str s), _ => ret [s]
  | Some (StrList l), _ => ret l
  end.

(** Lines 79-124: validation and normalisation of the arguments. *)
Definition validate (a : args)
    : M (list string * list string * option Z * option Z) :=
  (if bool_decide (source a ∈ valid_sources) then ret tt
   else raise (Exn ValueError ("source must be one of " ++ repr_valid_sources W
                               ++ ", got '" ++ source a ++ "'"))) ;;;
  start <- normalize_date (start_date_UTC a) ;;
  end_ <- normalize_date (end_date_UTC a) ;;
  let bands := normalize_bands (bands a) in
  (match tiles a, geom a with
   | None, None => raise (Exn ValueError "Either 'tiles' or 'geometry' must be provided.")
   | _, _ => ret tt
   end) ;;;
  tiles <- resolve_tiles (tiles a) (geom a) ;;
  ret (bands, tiles, start, end_).

(** The body of [for tile in tiles] of lines 167-205; the accumulator is
    [tile_sensor_dates] and the set [all_dates]. *)
Definition index_tile (start_UTC end_UTC : option Z) (tile : string)
    (acc : calendar * gset Z) : M (calendar * gset Z) :=
  let '(tsd, all_dates) := acc in
  log INFO ("Querying tile: " ++ tile) ;;;
  rows <- HLS_listing W tile start_UTC end_UTC ;;
  let s30_dates := s30_dates_of rows in
  let l30_dates := l30_dates_of rows in
  if (length s30_dates =? 0)%nat && (length l30_dates =? 0)%nat then
    log WARNING ("no dates available for tile " ++ tile ++ " in the date range "
                 ++ str_date start_UTC ++ " to " ++ str_date end_UTC) ;;;
    ret (<[tile := sensor_dict [] []]> tsd, all_dates)
  else
    (if (0 <? length s30_dates)%nat then
       log INFO (pretty (length s30_dates) ++ " S30 dates available for tile " ++ tile) ;;;
       for_each s30_dates
         (fun d _ => log INFO ("  * " ++ Date.isoformat d ++ " (S30)")) tt
     else ret tt) ;;;
    (if (0 <? length l30_dates)%nat then
       log INFO (pretty (length l30_dates) ++ " L30 dates available for tile " ++ tile) ;;;
       for_each l30_dates
         (fun d _ => log INFO ("  * " ++ Date.isoformat d ++ " (L30)")) tt
     else ret tt) ;;;
    ret (<[tile := sensor_dict s30_dates l30_dates]> tsd,
         all_dates ∪ list_to_set s30_dates ∪ list_to_set l30_dates).

(** Lines 160-210: the availability calendar and the sorted list of all
    dates. *)
Definition index_tiles (tiles : list string) (start_UTC end_UTC : option Z)
    : M (calendar * list Z) :=
  acc <- for_each tiles (index_tile start_UTC end_UTC) (∅, ∅) ;;
  let all_dates := py_sorted (elements (snd acc)) in
  log INFO ("Total unique dates across all tiles: " ++ pretty (length all_dates)) ;;;
  ret (fst acc, all_dates).

(** [f"HLS_{band}_{tile}_{d_parsed.strftime('%Y%m%d')}.tif"] and
    [f"HLS_{band}_{d_parsed.strftime('%Y%m%d')}.tif"] are the two file names
    above with [HLS] for the sensor. *)

(** The body of [for tile in tiles] of the [HLS] mode (lines 228-266); the
    accumulator is [images] and [output_filenames]. *)
Definition HLS_tile (g : option geometry) (tsd : calendar) (d d_parsed : Z)
    (band band_output_dir : string) (tile : string)
    (acc : list image * list string) : M (list image * list string) :=
  let '(images, output_filenames) := acc in
  let available := (available_dates tsd tile "S30" ++ available_dates tsd tile "L30")%list in
  if negb (date_in d available) then ret acc
  else
    log INFO ("extracting band " ++ band ++ " for tile " ++ tile ++ " on date "
              ++ Date.isoformat d_parsed) ;;;
    try_except
      (image <- HLS_product W band d_parsed tile ;;
       match g with
       | None =>
           let filename := Py.join band_output_dir [tile_filename "HLS" band tile d_parsed] in
           ensure_directory W filename ;;;
           log INFO ("writing image to " ++ filename) ;;;
           to_geotiff W image (expanduser W filename) ;;;
           ret (images, (output_filenames ++ [filename])%list)
       | Some _ => ret ((images ++ [image])%list, output_filenames)
       end)
      (fun e =>
         log ERROR ("Error processing HLS band " ++ band ++ " for tile " ++ tile
                    ++ " on " ++ Date.isoformat d_parsed ++ ": " ++ exn_msg e) ;;;
         ret acc).

(** The [HLS] mode for one date and band (lines 224-294). *)
Definition dispatch_HLS (g : option geometry) (tiles : list string) (tsd : calendar)
    (d d_parsed : Z) (band band_output_dir : string)
    (output_filenames : list string) : M (list string) :=
  acc <- for_each tiles (HLS_tile g tsd d d_parsed band band_output_dir)
           ([], output_filenames) ;;
  let '(images, output_filenames) := acc in
  match g, images with
  | Some geometry, first :: _ =>
      try_except
        (let filename := Py.join band_output_dir [mosaic_filename "HLS" band d_parsed] in
         f <- write_mosaic W geometry first images filename ;;
         ret (output_filenames ++ [f])%list)
        (fun e =>
           log ERROR ("Error creating HLS mosaic for band " ++ band ++ " on "
                      ++ Date.isoformat d_parsed ++ ": " ++ exn_msg e) ;;;
           ret output_filenames)
  | _, _ => ret output_filenames
  end.

(** One sensor for one date and band: the branches [S30] and [L30] (lines
    296-324), and each round of [for sensor in ["S30", "L30"]] with a
    geometry. *)
Definition sensor_tile (sensor : string) (tsd : calendar) (d d_parsed : Z)
    (band sensor_output_dir : string) (tile : string)
    (output_filenames : list string) : M (list string) :=
  if negb (date_in d (available_dates tsd tile sensor)) then ret output_filenames
  else
    filename <- process_sensor_band W sensor d d_parsed band tile sensor_output_dir ;;
    ret (append_if filename output_filenames).

Definition sensor_mosaic (sensor : string) (geometry : geometry) (tiles : list string)
    (tsd : calendar) (d d_parsed : Z) (band sensor_output_dir : string)
    (output_filenames : list string) : M (list string) :=
  filename <- process_sensor_mosaic W sensor d d_parsed band tiles tsd geometry
                sensor_output_dir ;;
  ret (append_if filename output_filenames).

Definition dispatch_sensor (sensor : string) (g : option geometry)
    (tiles : list string) (tsd : calendar) (d d_parsed : Z)
    (band band_output_dir : string) (output_filenames : list string)
    : M (list string) :=
  match g with
  | None =>
      for_each tiles (sensor_tile sensor tsd d d_parsed band band_output_dir)
        output_filenames
  | Some geometry =>
      sensor_mosaic sensor geometry tiles tsd d d_parsed band band_output_dir
        output_filenames
  end.

(** [sensor_output_dir = s30_output_dir if sensor == "S30" else l30_output_dir] *)
Definition pick_dir (sensor s30_output_dir l30_output_dir : string) : string :=
  if String.eqb sensor "S30" then s30_output_dir else l30_output_dir.

(** The [both] mode for one date and band (lines 326-347). *)
Definition dispatch_both (out : option string) (g : option geometry)
    (tiles : list string) (tsd : calendar) (d d_parsed : Z) (band : string)
    (output_filenames : list string) : M (list string) :=
  s30_output_dir <- os_path_join out ["S30"; band] ;;
  l30_output_dir <- os_path_join out ["L30"; band] ;;
  match g with
  | None =>
      for_each tiles
        (fun tile acc =>
           for_each ["S30"; "L30"]
             (fun sensor acc =>
                sensor_tile sensor tsd d d_parsed band
                  (pick_dir sensor s30_output_dir l30_output_dir) tile acc)
             acc)
        output_filenames
  | Some geometry =>
      for_each ["S30"; "L30"]
        (fun sensor acc =>
           sensor_mosaic sensor geometry tiles tsd d d_parsed band
             (pick_dir sensor s30_output_dir l30_output_dir) acc)
        output_filenames
  end.

(** The body of [for band in bands] (lines 218-347). *)
Definition process_band (src : string) (out : option string) (g : option geometry)
    (tiles : list string) (tsd : calendar) (d d_parsed : Z) (band : string)
    (output_filenames : list string) : M (list string) :=
  if negb (String.eqb src "both") then
    band_output_dir <- os_path_join out [band] ;;
    if String.eqb src "HLS" then
      dispatch_HLS g tiles tsd d d_parsed band band_output_dir output_filenames
    else if String.eqb src "S30" then
      dispatch_sensor "S30" g tiles tsd d d_parsed band band_output_dir output_filenames
    else if String.eqb src "L30" then
      dispatch_sensor "L30" g tiles tsd d d_parsed band band_output_dir output_filenames
    else ret output_filenames
  else
    dispatch_both out g tiles tsd d d_parsed band output_filenames.

(** Lines 213-347.  [d_parsed = parser.parse(d).date()] is the date that
    the text [d] of the listing denotes. *)
Definition process_dates (src : string) (out : option string) (g : option geometry)
    (bands tiles : list string) (tsd : calendar) (all_dates : list Z)
    : M (list string) :=
  for_each all_dates
    (fun d acc =>
       let d_parsed := d in
       for_each bands (process_band src out g tiles tsd d d_parsed) acc)
    [].

Definition generate_HLS_timeseries (a : args) : M (list string) :=
  v <- validate a ;;
  let '(bands, tiles, start_UTC, end_UTC) := v in
  log INFO "Generating HLS timeseries with parameters:" ;;;
  log INFO ("  Bands: " ++ Py.str_join ", " bands) ;;;
  log INFO ("  Tiles: " ++ Py.str_join ", " tiles) ;;;
  log INFO ("  Start date: " ++ str_date start_UTC) ;;;
  log INFO ("  End date: " ++ str_date end_UTC) ;;;
  log INFO ("  Source: " ++ source a) ;;;
  connect W (download_directory a) ;;;
  let out :=
    match output_directory a with
    | None => download_directory a
    | Some o => Some o
    end in
  log INFO ("  Output directory: " ++ str_opt out) ;;;
  idx <- index_tiles tiles start_UTC end_UTC ;;
  process_dates (source a) out (geom a) bands tiles (fst idx) (snd idx).

End Orchestrator.

(** * Vocabulary of the statements *)

(** The state a run starts from when nothing happened before. *)
Definition empty_state : state := State [] [] ∅ ∅.

(** The events and the log entries a computation adds to a state. *)
Definition new_events (st st' : state) (evs : list event) : Prop :=
  st_trace st' = (st_trace st ++ evs)%list.

Definition new_log (st st' : state) (lg : list log_entry) : Prop :=
  st_log st' = (st_log st ++ lg)%list.

Definition add_log (lg : list log_entry) (st : state) : state :=
  State (st_log st ++ lg) (st_trace st) (st_dirs st) (st_files st).

Definition add_events (evs : list event) (st : state) : state :=
  State (st_log st) (st_trace st ++ evs) (st_dirs st) (st_files st).

Definition is_write (ev : event) : bool :=
  match ev with
  | EvWrite _ _ => true
  | _ => false
  end.

(** The exception, if any, that normalising a date argument raises. *)
Definition date_failure (W : World) (x : option date_arg) : option exn :=
  match x with
  | Some (DateText s) =>
      match parse_date W s with
      | Raise e => Some e
      | Ret _ => None
      end
  | _ => None
  end.

(** The first exception of a per-tile extraction, in the order in which
    [process_sensor_band] calls its collaborators, when the band lookup
    itself succeeds or fails with another class than not-found. *)
Definition directory_failure (W : World) (filename : string) : option exn :=
  let directory := Py.dirname (expanduser W filename) in
  if Py.truthy directory then makedirs_error W directory else None.

Definition persist_failure (W : World) (img : image) (filename : string) : option exn :=
  match directory_failure W filename with
  | Some e => Some e
  | None => to_geotiff_error W img (expanduser W filename)
  end.

Definition extraction_failure (W : World) (g : granule) (band filename : string)
    : option exn :=
  match granule_error W g with
  | Some e => Some e
  | None =>
      match band_error W g band with
      | Some e => Some e
      | None => persist_failure W (BandImage g band) filename
      end
  end.


(** A tile contributes no image to a mosaic. *)
Definition contributes_nothing (W : World) (sensor : string) (d d_parsed : Z)
    (band : string) (tsd : calendar) (tile : string) : Prop :=
  let g := Granule (accessor_of sensor) tile d_parsed in
  d ∉ available_dates tsd tile sensor
  ∨ is_Some (granule_error W g)
  ∨ is_Some (band_error W g band).

(** Whether a tile contributes its image, and the images a mosaic collects,
    in the order of the tiles. *)
Definition contributes (W : World) (sensor : string) (d d_parsed : Z)
    (band : string) (tsd : calendar) (tile : string) : bool :=
  let g := Granule (accessor_of sensor) tile d_parsed in
  date_in d (available_dates tsd tile sensor)
  && match granule_error W g with Some _ => false | None => true end
  && match band_error W g band with Some _ => false | None => true end.

Definition collected (W : World) (sensor : string) (d d_parsed : Z)
    (band : string) (tsd : calendar) (tiles : list string) : list image :=
  map (fun tile => BandImage (Granule (accessor_of sensor) tile d_parsed) band)
    (List.filter (contributes W sensor d d_parsed band tsd) tiles).

(** A step that writes no file and creates no directory. *)
Definition quiet (st st' : state) : Prop :=
  st_dirs st' = st_dirs st
  /\ st_files st' = st_files st
  /\ exists evs, new_events st st' evs /\ Forall (fun ev => is_write ev = false) evs.

(** The grid of lines 89-96 as a value. *)
Definition expected_grid (W : World) (geom : geometry) (first : image) : grid :=
  match geom with
  | GeomBBox b =>
      GridFromBBox (BBoxToCrs b (image_crs W first)) (image_cell_size W first)
        (image_crs W first)
  | GeomRaster g => g
  end.

Definition grid_failure (W : World) (geom : geometry) (first : image) : option exn :=
  match geom with
  | GeomBBox b =>
      match to_crs_error W b (image_crs W first) with
      | Some e => Some e
      | None =>
          from_bbox_error W (BBoxToCrs b (image_crs W first)) (image_cell_size W first)
            (image_crs W first)
      end
  | GeomRaster _ => None
  end.

Definition mosaic_failure (W : World) (geom : geometry) (images : list image)
    (first : image) (filename : string) : option exn :=
  match grid_failure W geom first with
  | Some e => Some e
  | None =>
      let g := expected_grid W geom first in
      match mosaic_error W images g with
      | Some e => Some e
      | None => persist_failure W (MosaicImage images g) filename
      end
  end.

(** ** A concrete world

    A catalog in which every collaborator answers, except that a Landsat
    granule has none of the bands the comments of [BANDS] mark as S30 only;
    the parser reads ISO dates.  dateutil raises [ParserError] on a text that is no date and,
    as its documentation says, [OverflowError] when the parsed date exceeds
    the largest C integer: the second is recorded for one such text. *)

Definition digit_value (c : ascii) : option Z :=
  let n := Z.of_nat (nat_of_ascii c) in
  if (48 <=? n) && (n <=? 57) then Some (n - 48) else None.

Definition huge_year : string := "99999999999999999999999999".

Definition iso_parser (s : string) : result Z :=
  if String.eqb s huge_year then
    Raise (Exn OverflowError "Python int too large to convert to C long")
  else
    match list_ascii_of_string s with
    | [y1; y2; y3; y4; "-"%char; m1; m2; "-"%char; d1; d2] =>
        match digit_value y1, digit_value y2, digit_value y3, digit_value y4,
              digit_value m1, digit_value m2, digit_value d1, digit_value d2 with
        | Some a, Some b, Some c, Some d, Some e, Some f, Some g, Some h =>
            Ret (Date.ymd2ord (a * 1000 + b * 100 + c * 10 + d) (e * 10 + f) (g * 10 + h))
        | _, _, _, _, _, _, _, _ => Raise (Exn ParserError ("Unknown string format: " ++ s))
        end
    | _ => Raise (Exn ParserError ("Unknown string format: " ++ s))
    end.

(** Modelled from the spec: the catalog listing [HLS.listing], which is not
    among the sources.  "listing(tile, start_date, end_date) -> rows where
    each row carries a date and an optional sensor-specific identifying
    field", over "a closed date interval [start, end] (inclusive)": the rows
    of the tile in the catalog whose date lies in the interval. *)
Definition in_range (start_UTC end_UTC : option Z) (d : Z) : bool :=
  match start_UTC with Some s => (s <=? d)%Z | None => true end
  && match end_UTC with Some e => (d <=? e)%Z | None => true end.

Definition catalog_listing (catalog : list (string * row))
    (tile : string) (start_UTC end_UTC : option Z) : list row :=
  map snd
    (List.filter
       (fun tr => String.eqb (fst tr) tile && in_range start_UTC end_UTC (date_UTC (snd tr)))
       catalog).

Definition S30_only_bands : list string :=
  ["rededge1"; "rededge2"; "rededge3"; "NIR_broad"; "water_vapor"].

Definition demo_band_error (g : granule) (band : string) : option exn :=
  match g_accessor g with
  | landsat =>
      if bool_decide (band ∈ S30_only_bands)
      then Some (Exn AttributeError ("'HLS2LandsatGranule' object has no attribute '"
                                     ++ band ++ "'"))
      else None
  | sentinel => None
  end.

Definition catalog_world (catalog : list (string * row)) : World := {|
  parse_date := iso_parser;
  repr_valid_sources := "{'HLS', 'S30', 'L30', 'both'}";
  tiles_covering := fun _ => Ret (remove_dups (map fst catalog));
  connect_error := fun _ => None;
  listing := fun tile s e => Ret (catalog_listing catalog tile s e);
  granule_error := fun _ => None;
  band_error := demo_band_error;
  combined_error := fun _ _ _ => None;
  image_crs := fun _ => "EPSG:32610";
  image_cell_size := fun _ => 30;
  to_crs_error := fun _ _ => None;
  from_bbox_error := fun _ _ _ => None;
  mosaic_error := fun _ _ => None;
  expanduser := fun s => s;
  makedirs_error := fun _ => None;
  to_geotiff_error := fun _ _ => None;
|}.

Definition d20220803 : Z := Date.ymd2ord 2022 8 3.
Definition d20220804 : Z := Date.ymd2ord 2022 8 4.

(** Tile 10SEG seen by S30 on 2022-08-03 and by L30 the day after, tile
    11SKA by both sensors on 2022-08-03. *)
Definition demo_catalog : list (string * row) :=
  [ ("10SEG", Row d20220803 (Some "HLS.S30.T10SEG.2022215") None);
    ("10SEG", Row d20220804 None (Some "HLS.L30.T10SEG.2022216"));
    ("11SKA", Row d20220803 (Some "HLS.S30.T11SKA.2022215") (Some "HLS.L30.T11SKA.2022215")) ].

Definition demo_world : World := catalog_world demo_catalog.


Definition demo_args (src : string) : args := {|
  bands := Some (Str "red");
  tiles := Some (StrList ["10SEG"; "11SKA"]);
  geom := None;
  start_date_UTC := Some (DateText "2022-08-01");
  end_date_UTC := Some (DateText "2022-08-05");
  download_directory := None;
  output_directory := Some "out";
  source := src;
|}.

(** A call without tiles and without geometry whose start date is a text
    that dateutil parses to a year beyond the C integers. *)
Definition overflow_args : args := {|
  bands := None;
  tiles := None;
  geom := None;
  start_date_UTC := Some (DateText huge_year);
  end_date_UTC := None;
  download_directory := None;
  output_directory := None;
  source := "HLS";
|}.

(** The calendar that indexing [demo_catalog] gives. *)
Definition demo_calendar : calendar :=
  <["11SKA" := sensor_dict [d20220803] [d20220803]]>
    (<["10SEG" := sensor_dict [d20220803] [d20220804]]> ∅).

(** ** Effects

    What a computation adds to a state: log entries, events, directories
    and files (a later write to a path replaces an earlier one). *)
Definition apply_effect (lg : list log_entry) (evs : list event)
    (D : gset string) (F : gmap string image) (st : state) : state :=
  State (st_log st ++ lg) (st_trace st ++ evs) (D ∪ st_dirs st) (F ∪ st_files st).

(** [behaves P Q m]: the result of [m] and what it adds to the state do not
    depend on the state it starts from; the events it adds satisfy [P] and
    a value it returns satisfies [Q]. *)
Definition behaves {A} (P : event -> Prop) (Q : A -> Prop) (m : M A) : Prop :=
  exists r lg evs D F,
    (forall st, m st = (r, apply_effect lg evs D F st))
    /\ Forall P evs
    /\ match r with Ret a => Q a | Raise _ => True end.

(** The events that neither write a file nor fetch a merged product. *)
Definition benign (ev : event) : Prop :=
  match ev with
  | EvWrite _ _ | EvCombined _ _ _ => False
  | _ => True
  end.

(** ** Provenance of images and the layout of the [both] mode *)

Definition accessor_eqb (a b : accessor) : bool :=
  match a, b with
  | sentinel, sentinel | landsat, landsat => true
  | _, _ => false
  end.

(** An image that holds data of one accessor only: a band of one of its
    granules, or a mosaic of such images. *)
Fixpoint sensor_pure (a : accessor) (img : image) : bool :=
  match img with
  | BandImage g _ => accessor_eqb (g_accessor g) a
  | CombinedImage _ _ _ => false
  | MosaicImage images _ => forallb (sensor_pure a) images
  end.

(** The file names of the extractor and of the mosaic builder. *)
Definition sensor_file (sensor band name : string) : Prop :=
  (exists tile d, name = tile_filename sensor band tile d)
  \/ (exists d, name = mosaic_filename sensor band d).

(** [p] is a file of [sensor] in the directory
    [join(output_directory, sensor, band)]. *)
Definition in_subtree (out : option string) (sensor band p : string) : Prop :=
  exists o name,
    out = Some o /\ sensor_file sensor band name
    /\ p = Py.join (Py.join o [sensor; band]) [name].

Definition both_path_ok (out : option string) (bands : list string) (p : string) : Prop :=
  exists sensor band,
    sensor ∈ ["S30"; "L30"] /\ band ∈ bands /\ in_subtree out sensor band p.

Definition both_event_ok (W : World) (out : option string) (bands : list string)
    (ev : event) : Prop :=
  match ev with
  | EvCombined _ _ _ => False
  | EvWrite path img =>
      exists sensor band p,
        sensor ∈ ["S30"; "L30"] /\ band ∈ bands /\ in_subtree out sensor band p
        /\ path = expanduser W p
        /\ sensor_pure (accessor_of sensor) img = true
  | _ => True
  end.

(** The output directory with the separator that [join] puts after it. *)
Definition with_sep (o : string) : string :=
  if negb (Py.truthy o) || Py.ends_with_sep o then o else o ++ "/".

(** The directory in effect: [output_directory], else
    [download_directory]. *)
Definition effective_output (a : args) : option string :=
  match output_directory a with
  | None => download_directory a
  | Some o => Some o
  end.

(** ** Indexing *)

(** The rows the catalog answers for a tile; none when the query raises. *)
Definition rows_of (W : World) (start_UTC end_UTC : option Z) (tile : string) : list row :=
  match listing W tile start_UTC end_UTC with
  | Ret rows => rows
  | Raise _ => []
  end.

Definition tile_dates (rows : list row) : gset Z :=
  list_to_set (s30_dates_of rows) ∪ list_to_set (l30_dates_of rows).

(** The calendar and the set of dates after indexing [tiles]. *)
Definition indexed (W : World) (start_UTC end_UTC : option Z) (tiles : list string)
    (acc : calendar * gset Z) : calendar * gset Z :=
  fold_left
    (fun acc tile =>
       let rows := rows_of W start_UTC end_UTC tile in
       (<[tile := sensor_dict (s30_dates_of rows) (l30_dates_of rows)]> (fst acc),
        snd acc ∪ tile_dates rows))
    tiles acc.

(** A step that only logs and calls collaborators that read. *)
Definition only_events (evs : list event) (st st' : state) : Prop :=
  new_events st st' evs
  /\ st_files st' = st_files st
  /\ st_dirs st' = st_dirs st.

(** The catalog of [demo_world] with the listing of tile 10SEG failing. *)
Definition flaky_world : World := {|
  parse_date := parse_date demo_world;
  repr_valid_sources := repr_valid_sources demo_world;
  tiles_covering := tiles_covering demo_world;
  connect_error := connect_error demo_world;
  listing := fun tile s e =>
    if String.eqb tile "10SEG"
    then Raise (Exn (OtherError "HTTPError") "503 Service Unavailable")
    else listing demo_world tile s e;
  granule_error := granule_error demo_world;
  band_error := band_error demo_world;
  combined_error := combined_error demo_world;
  image_crs := image_crs demo_world;
  image_cell_size := image_cell_size demo_world;
  to_crs_error := to_crs_error demo_world;
  from_bbox_error := from_bbox_error demo_world;
  mosaic_error := mosaic_error demo_world;
  expanduser := expanduser demo_world;
  makedirs_error := makedirs_error demo_world;
  to_geotiff_error := to_geotiff_error demo_world;
|}.

Definition d20220801 : Z := Date.ymd2ord 2022 8 1.
Definition d20220805 : Z := Date.ymd2ord 2022 8 5.

(** * Vocabulary of the further properties *)

(** A computation that returns: no exception leaves it. *)
Definition returns {A} (m : M A) : Prop :=
  forall st, exists a st', m st = (Ret a, st').

Definition is_lookup (ev : event) : bool :=
  match ev with
  | EvTileLookup _ => true
  | _ => false
  end.

(** What [sentinel_tiles.tiles] is asked for a geometry (lines 112-115). *)
Definition lookup_target_of (g : geometry) : lookup_target :=
  match g with
  | GeomBBox b => LatLonPolygon b
  | GeomRaster r => BoundaryLatLon r
  end.

(** The exception of the missing directory. *)
Definition no_directory_error : exn :=
  Exn TypeError "expected str, bytes or os.PathLike object, not NoneType".

(** The catalog queries of an indexing run. *)
Definition listing_events (start_UTC end_UTC : option Z) (tiles : list string)
    : list event :=
  map (fun t => EvListing t start_UTC end_UTC) tiles.

(** All the listings of the tiles answer. *)
Definition listings_answer (W : World) (start_UTC end_UTC : option Z)
    (tiles : list string) : Prop :=
  Forall (fun t => exists rows, listing W t start_UTC end_UTC = Ret rows) tiles.

(** The sorted list of the dates of the set of a run of the indexer. *)
Definition universe (W : World) (start_UTC end_UTC : option Z) (tiles : list string)
    : list Z :=
  py_sorted (elements (snd (indexed W start_UTC end_UTC tiles (∅, ∅)))).

(** A listing without any granule of either sensor. *)
Definition no_granule (rows : list row) : Prop :=
  Forall (fun r => row_sentinel r = None /\ row_landsat r = None) rows.

(** The date a date argument stands for, when it parses. *)
Definition date_value (W : World) (x : option date_arg) : option Z :=
  match x with
  | Some (DateText s) =>
      match parse_date W s with
      | Ret d => Some d
      | Raise _ => None
      end
  | Some (DateObject d) => Some d
  | None => None
  end.

(** The same call with the tiles given as a list. *)
Definition with_tiles (a : args) (ts : list string) : args := {|
  bands := bands a;
  tiles := Some (StrList ts);
  geom := geom a;
  start_date_UTC := start_date_UTC a;
  end_date_UTC := end_date_UTC a;
  download_directory := download_directory a;
  output_directory := output_directory a;
  source := source a;
|}.

(** ** The shape of what a run writes *)

(** The image of one band of the granule of a sensor. *)
Definition band_image_of (sensor band : string) (d : Z) (img : image) : Prop :=
  exists tile, img = BandImage (Granule (accessor_of sensor) tile d) band.

(** The merged image of one band and date. *)
Definition combined_image_of (band : string) (d : Z) (img : image) : Prop :=
  exists tile, img = CombinedImage band d tile.

(** With a geometry every file written is a mosaic on the working grid of
    its first image; without one no file is a mosaic. *)
Definition geometry_event_ok (W : World) (g : option geometry) (ev : event) : Prop :=
  match ev with
  | EvWrite _ img =>
      match g with
      | None =>
          match img with
          | MosaicImage _ _ => False
          | _ => True
          end
      | Some geometry =>
          exists first rest,
            img = MosaicImage (first :: rest) (expected_grid W geometry first)
      end
  | _ => True
  end.

(** The events of a run of one sensor only. *)
Definition single_event_ok (W : World) (sensor : string) (out : option string)
    (g : option geometry) (bs : list string) (ev : event) : Prop :=
  match ev with
  | EvCombined _ _ _ => False
  | EvGranule gr => g_accessor gr = accessor_of sensor
  | EvBand gr band => g_accessor gr = accessor_of sensor /\ band ∈ bs
  | EvWrite path img =>
      exists o band d,
        out = Some o /\ band ∈ bs
        /\ sensor_pure (accessor_of sensor) img = true
        /\ match g with
           | None =>
               exists tile,
                 img = BandImage (Granule (accessor_of sensor) tile d) band
                 /\ path = expanduser W (Py.join (Py.join o [band])
                                           [tile_filename sensor band tile d])
           | Some _ =>
               path = expanduser W (Py.join (Py.join o [band])
                                      [mosaic_filename sensor band d])
           end
  | _ => True
  end.

(** The events of a run of the merged product. *)
Definition merged_event_ok (W : World) (out : option string)
    (g : option geometry) (bs : list string) (ev : event) : Prop :=
  match ev with
  | EvGranule _ | EvBand _ _ => False
  | EvCombined band _ _ => band ∈ bs
  | EvWrite path img =>
      exists o band d,
        out = Some o /\ band ∈ bs
        /\ match g with
           | None =>
               exists tile,
                 img = CombinedImage band d tile
                 /\ path = expanduser W (Py.join (Py.join o [band])
                                           [tile_filename "HLS" band tile d])
           | Some _ =>
               exists images grid,
                 img = MosaicImage images grid
                 /\ Forall (combined_image_of band d) images
                 /\ path = expanduser W (Py.join (Py.join o [band])
                                           [mosaic_filename "HLS" band d])
           end
  | _ => True
  end.

(** The demonstration world with a compositing primitive that refuses. *)
Definition no_mosaic_world : World := {|
  parse_date := parse_date demo_world;
  repr_valid_sources := repr_valid_sources demo_world;
  tiles_covering := tiles_covering demo_world;
  connect_error := connect_error demo_world;
  listing := listing demo_world;
  granule_error := granule_error demo_world;
  band_error := band_error demo_world;
  combined_error := combined_error demo_world;
  image_crs := image_crs demo_world;
  image_cell_size := image_cell_size demo_world;
  to_crs_error := to_crs_error demo_world;
  from_bbox_error := from_bbox_error demo_world;
  mosaic_error := fun _ _ => Some (Exn ValueError "images do not overlap the target");
  expanduser := expanduser demo_world;
  makedirs_error := makedirs_error demo_world;
  to_geotiff_error := to_geotiff_error demo_world;
|}.

(** ** The list a run returns *)

(** The path of the file of a tile. *)
Definition tile_path (dir sensor band tile : string) (d : Z) : string :=
  Py.join dir [tile_filename sensor band tile d].

(** A tile gives a file: the date is in its calendar and nothing fails. *)
Definition tile_unit_succeeds (W : World) (sensor : string) (tsd : calendar)
    (d : Z) (band dir tile : string) : bool :=
  date_in d (available_dates tsd tile sensor)
  && match extraction_failure W (Granule (accessor_of sensor) tile d) band
             (tile_path dir sensor band tile d) with
     | Some _ => false
     | None => true
     end.

(** The paths of one sensor, date and band: the tiles that succeed, in the
    order of the tiles. *)
Definition tile_paths (W : World) (sensor : string) (tsd : calendar)
    (tiles : list string) (d : Z) (band dir : string) : list string :=
  map (fun tile => tile_path dir sensor band tile d)
    (List.filter (tile_unit_succeeds W sensor tsd d band dir) tiles).

(** The path of the mosaic of one sensor, date and band, when there is
    one: some tile contributes and nothing fails. *)
Definition mosaic_paths (W : World) (sensor : string) (tsd : calendar)
    (tiles : list string) (geom : geometry) (d : Z) (band dir : string)
    : list string :=
  match collected W sensor d d band tsd tiles with
  | [] => []
  | first :: rest =>
      match mosaic_failure W geom (first :: rest) first
              (Py.join dir [mosaic_filename sensor band d]) with
      | Some _ => []
      | None => [Py.join dir [mosaic_filename sensor band d]]
      end
  end.

(** The paths of a run of one sensor, by date, then band, then tile. *)
Definition sensor_run_paths (W : World) (sensor out : string) (g : option geometry)
    (bs tiles : list string) (tsd : calendar) (all_dates : list Z) : list string :=
  flat_map
    (fun d =>
       flat_map
         (fun band =>
            match g with
            | None => tile_paths W sensor tsd tiles d band (Py.join out [band])
            | Some geometry =>
                mosaic_paths W sensor tsd tiles geometry d band (Py.join out [band])
            end)
         bs)
    all_dates.

(** The paths of a run of both sensors: by date, then band; without a
    geometry by tile and then sensor, with one by sensor. *)
Definition both_run_paths (W : World) (out : string) (g : option geometry)
    (bs tiles : list string) (tsd : calendar) (all_dates : list Z) : list string :=
  flat_map
    (fun d =>
       flat_map
         (fun band =>
            match g with
            | None =>
                flat_map
                  (fun tile =>
                     flat_map
                       (fun sensor =>
                          tile_paths W sensor tsd [tile] d band
                            (Py.join out [sensor; band]))
                       ["S30"; "L30"])
                  tiles
            | Some geometry =>
                flat_map
                  (fun sensor =>
                     mosaic_paths W sensor tsd tiles geometry d band
                       (Py.join out [sensor; band]))
                  ["S30"; "L30"]
            end)
         bs)
    all_dates.

(** ** The files of a run *)

(** Every path that holds a file in [st] holds one in [st']. *)
Definition files_kept (st st' : state) : Prop :=
  forall p, is_Some (st_files st !! p) -> is_Some (st_files st' !! p).

(** The name [p], as the run returns it, holds a file: the file is at
    [expanduser(p)], where [to_geotiff] was called. *)
Definition on_disk (W : World) (st : state) (p : string) : Prop :=
  is_Some (st_files st !! expanduser W p).

Definition all_on_disk (W : World) (l : list string) (st : state) : Prop :=
  Forall (on_disk W st) l.

(** A property of the state that more files do not break. *)
Definition stable (R : state -> Prop) : Prop :=
  forall st st', files_kept st st' -> R st -> R st'.

(** From a state with [Pre], [m] keeps the files and a value it returns
    satisfies [Post] in the state it leaves. *)
Definition triple {A} (Pre : state -> Prop) (m : M A) (Post : A -> state -> Prop) : Prop :=
  forall st, Pre st ->
    files_kept st (snd (m st))
    /\ forall a, fst (m st) = Ret a -> Post a (snd (m st)).

(** ** The list a run of the merged product returns *)

(** The tile has the date for either sensor and [HLS.product] answers. *)
Definition merged_contributes (W : World) (tsd : calendar) (d : Z) (band tile : string)
    : bool :=
  date_in d (available_dates tsd tile "S30" ++ available_dates tsd tile "L30")%list
  && match combined_error W band d tile with Some _ => false | None => true end.

Definition merged_images (W : World) (tsd : calendar) (tiles : list string) (d : Z)
    (band : string) : list image :=
  map (CombinedImage band d) (List.filter (merged_contributes W tsd d band) tiles).

Definition merged_tile_succeeds (W : World) (tsd : calendar) (d : Z)
    (band dir tile : string) : bool :=
  merged_contributes W tsd d band tile
  && match persist_failure W (CombinedImage band d tile)
             (Py.join dir [tile_filename "HLS" band tile d]) with
     | Some _ => false
     | None => true
     end.

Definition merged_tile_paths (W : World) (tsd : calendar) (tiles : list string) (d : Z)
    (band dir : string) : list string :=
  map (fun tile => Py.join dir [tile_filename "HLS" band tile d])
    (List.filter (merged_tile_succeeds W tsd d band dir) tiles).

Definition merged_mosaic_paths (W : World) (tsd : calendar) (tiles : list string)
    (geom : geometry) (d : Z) (band dir : string) : list string :=
  match merged_images W tsd tiles d band with
  | [] => []
  | first :: rest =>
      match mosaic_failure W geom (first :: rest) first
              (Py.join dir [mosaic_filename "HLS" band d]) with
      | Some _ => []
      | None => [Py.join dir [mosaic_filename "HLS" band d]]
      end
  end.

(** What one round of [for tile in tiles] of the [HLS] mode adds to
    [images] and [output_filenames]. *)
Definition merged_step (W : World) (g : option geometry) (tsd : calendar) (d : Z)
    (band dir : string) (acc : list image * list string) (tile : string)
    : list image * list string :=
  match g with
  | None => (fst acc, (snd acc ++ merged_tile_paths W tsd [tile] d band dir)%list)
  | Some _ => ((fst acc ++ merged_images W tsd [tile] d band)%list, snd acc)
  end.

(** ** A mosaic that fails before the write *)

(** The failure of lines 89-104, before [to_geotiff] is called: in the
    grid, in the compositing or in the directory. *)
Definition preparation_failure (W : World) (geom : geometry) (images : list image)
    (first : image) (filename : string) : option exn :=
  match grid_failure W geom first with
  | Some e => Some e
  | None =>
      match mosaic_error W images (expected_grid W geom first) with
      | Some e => Some e
      | None => directory_failure W filename
      end
  end.

(** ** The paths of one band *)

(** The paths that the work on one band of one date adds to the list, by
    source mode, with the directory [out]. *)
Definition band_paths (W : World) (src out : string) (g : option geometry)
    (tiles : list string) (tsd : calendar) (d : Z) (band : string) : list string :=
  if String.eqb src "both" then
    match g with
    | None =>
        flat_map
          (fun tile =>
             flat_map
               (fun sensor =>
                  tile_paths W sensor tsd [tile] d band (Py.join out [sensor; band]))
               ["S30"; "L30"])
          tiles
    | Some geometry =>
        flat_map
          (fun sensor =>
             mosaic_paths W sensor tsd tiles geometry d band (Py.join out [sensor; band]))
          ["S30"; "L30"]
    end
  else if String.eqb src "HLS" then
    match g with
    | None => merged_tile_paths W tsd tiles d band (Py.join out [band])
    | Some geometry => merged_mosaic_paths W tsd tiles geometry d band (Py.join out [band])
    end
  else if String.eqb src "S30" || String.eqb src "L30" then
    match g with
    | None => tile_paths W src tsd tiles d band (Py.join out [band])
    | Some geometry => mosaic_paths W src tsd tiles geometry d band (Py.join out [band])
    end
  else [].

(** * Properties *)

(** ** The embedding at work *)

Example strftime_20220803 : Date.strftime_Ymd (Date.ymd2ord 2022 8 3) = "20220803".
Proof. reflexivity. Qed.

Example isoformat_leap_day : Date.isoformat (Date.ymd2ord 2024 2 29) = "2024-02-29".
Proof. reflexivity. Qed.

Example isoformat_new_year : Date.isoformat (Date.ymd2ord 2022 12 31 + 1) = "2023-01-01".
Proof. reflexivity. Qed.

Example join_relative : Py.join "~/data" ["S30"; "red"] = "~/data/S30/red".
Proof. reflexivity. Qed.

Example join_trailing_separator : Py.join "~/data/" ["red"] = "~/data/red".
Proof. reflexivity. Qed.

Example join_absolute : Py.join "~/data" ["S30"; "/srv/red"] = "/srv/red".
Proof. reflexivity. Qed.

Example dirname_of_file :
  Py.dirname "out/red/S30_red_10SEG_20220803.tif" = "out/red".
Proof. reflexivity. Qed.

Example dirname_without_directory : Py.dirname "S30_red_10SEG_20220803.tif" = "".
Proof. reflexivity. Qed.

Example parse_iso_date : iso_parser "2022-08-03" = Ret d20220803.
Proof. reflexivity. Qed.

Example unparseable_date_is_a_ValueError :
  exists e, iso_parser "next tuesday" = Raise e /\ is_ValueError e = true.
Proof. eexists. split; reflexivity. Qed.

(** The S30 stream of the demonstration catalog, tile by tile. *)
Example demo_S30_run :
  fst (generate_HLS_timeseries demo_world (demo_args "S30") empty_state)
  = Ret [ "out/red/S30_red_10SEG_20220803.tif"; "out/red/S30_red_11SKA_20220803.tif" ].
Proof. vm_compute. reflexivity. Qed.

(** The merged stream with a bounding box: one mosaic per date. *)
Example demo_HLS_mosaic_run :
  fst (generate_HLS_timeseries demo_world
         (Args (Some (Str "red")) None (Some (GeomBBox (BBoxGiven "upper_kings")))
               (Some (DateText "2022-08-01")) (Some (DateText "2022-08-05"))
               None (Some "out") "HLS") empty_state)
  = Ret [ "out/red/HLS_red_20220803.tif"; "out/red/HLS_red_20220804.tif" ].
Proof. vm_compute. reflexivity. Qed.

(** Without an output directory and a download directory the first unit of
    work fails in [join]. *)
Example demo_no_directory :
  fst (generate_HLS_timeseries demo_world
         (Args (Some (Str "red")) (Some (Str "10SEG")) None
               (Some (DateText "2022-08-01")) (Some (DateText "2022-08-05"))
               None None "S30") empty_state)
  = Raise (Exn TypeError "expected str, bytes or os.PathLike object, not NoneType").
Proof. vm_compute. reflexivity. Qed.

(** ** Running the monad *)

Lemma run_bind_ret {A B} (m : M A) (f : A -> M B) st a st' :
  m st = (Ret a, st') -> bind m f st = f a st'.
Proof. intros H. unfold bind. now rewrite H. Qed.

Lemma run_bind_raise {A B} (m : M A) (f : A -> M B) st e st' :
  m st = (Raise e, st') -> bind m f st = (Raise e, st').
Proof. intros H. unfold bind. now rewrite H. Qed.

Lemma for_each_cons {A B} (x : A) l (body : A -> B -> M B) acc :
  for_each (x :: l) body acc = (acc' <- body x acc ;; for_each l body acc').
Proof. reflexivity. Qed.

Lemma run_try_ret {A} (m : M A) h st a st' :
  m st = (Ret a, st') -> try_except m h st = (Ret a, st').
Proof. intros H. unfold try_except. now rewrite H. Qed.

Lemma run_try_raise {A} (m : M A) h st e st' :
  m st = (Raise e, st') -> try_except m h st = h e st'.
Proof. intros H. unfold try_except. now rewrite H. Qed.

(** ** The default bands on one tile *)

(** The thirteen bands of one tile and one date, in the order of [BANDS]. *)
Example default_bands_in_order :
  fst (generate_HLS_timeseries demo_world
         (Args None (Some (Str "10SEG")) None
               (Some (DateText "2022-08-03")) (Some (DateText "2022-08-03"))
               None (Some "out") "S30") empty_state)
  = Ret (map (fun band => "out/" ++ band ++ "/S30_" ++ band ++ "_10SEG_20220803.tif")
           BANDS).
Proof. vm_compute. reflexivity. Qed.

(** ** C1: validation before any input or output *)

Lemma normalize_date_run W x st :
  normalize_date W x st
  = match date_failure W x with
    | Some e => (Raise e, st)
    | None =>
        (Ret match x with
             | Some (DateText s) =>
                 match parse_date W s with Ret d => Some d | Raise _ => None end
             | Some (DateObject d) => Some d
             | None => None
             end, st)
    end.
Proof.
  destruct x as [[s | d] |]; simpl; try reflexivity.
  unfold bind, lift_result. destruct (parse_date W s); reflexivity.
Qed.

(** C1 (as the code has it). A call whose source is not one of HLS, S30,
    L30, both, or that has neither tiles nor geometry, raises and leaves the
    state as it was: nothing is logged, no collaborator is called, no
    catalog query, tile lookup or file write is made.  An unknown source
    gives the ValueError of the source check; with a known source the
    exception is the ValueError "Either 'tiles' or 'geometry' must be
    provided." unless a date given as text fails to parse, in which case
    the parser's exception comes first. *)
Theorem preflight_rejects_before_io W a st :
  source a ∉ valid_sources \/ (tiles a = None /\ geom a = None) ->
  exists e,
    generate_HLS_timeseries W a st = (Raise e, st)
    /\ (source a ∉ valid_sources ->
        e = Exn ValueError ("source must be one of " ++ repr_valid_sources W
                            ++ ", got '" ++ source a ++ "'"))
    /\ (source a ∈ valid_sources ->
        match date_failure W (start_date_UTC a), date_failure W (end_date_UTC a) with
        | Some e1, _ => e = e1
        | None, Some e2 => e = e2
        | None, None => e = Exn ValueError "Either 'tiles' or 'geometry' must be provided."
        end).
Proof.
  intros H. unfold generate_HLS_timeseries, validate.
  destruct (decide (source a ∈ valid_sources)) as [Hin | Hout].
  - destruct H as [H | [Ht Hg]]; [contradiction |].
    unfold bind at 1 2. rewrite (bool_decide_eq_true_2 _ Hin). simpl.
    unfold bind at 1. rewrite normalize_date_run.
    destruct (date_failure W (start_date_UTC a)) as [e1 |].
    + exists e1. split; [reflexivity | split; [intros; contradiction | auto]].
    + unfold bind at 1. rewrite normalize_date_run.
      destruct (date_failure W (end_date_UTC a)) as [e2 |].
      * exists e2. split; [reflexivity | split; [intros; contradiction | auto]].
      * rewrite Ht, Hg. simpl.
        eexists. split; [reflexivity | split; [intros; contradiction | auto]].
  - unfold bind at 1 2. rewrite (bool_decide_eq_false_2 _ Hout). simpl.
    eexists. split; [reflexivity | split; [auto | intros; contradiction]].
Qed.

Lemma preflight_rejects_before_io_witness :
  exists e,
    generate_HLS_timeseries demo_world
      (Args None None None None None None None "MODIS") empty_state
    = (Raise e, empty_state)
    /\ is_ValueError e = true.
Proof.
  destruct (preflight_rejects_before_io demo_world
              (Args None None None None None None None "MODIS") empty_state)
    as (e & Hrun & Hsrc & _).
  - left. vm_compute. intros H. repeat (inversion H as [| ? ? ? H']; subst; clear H; rename H' into H).
  - exists e. split; [exact Hrun |].
    rewrite Hsrc; [reflexivity |].
    vm_compute. intros H. repeat (inversion H as [| ? ? ? H']; subst; clear H; rename H' into H).
Defined.

(** C1 as stated fails: without tiles and geometry, a start date whose text
    overflows the parser makes the call raise OverflowError, which is no
    ValueError. *)
Lemma preflight_overflow_is_no_ValueError :
  source overflow_args ∈ valid_sources
  /\ tiles overflow_args = None /\ geom overflow_args = None
  /\ exists e,
       fst (generate_HLS_timeseries demo_world overflow_args empty_state) = Raise e
       /\ is_ValueError e = false.
Proof.
  split; [| split; [reflexivity | split; [reflexivity |]]].
  - unfold valid_sources. simpl. apply list_elem_of_here.
  - eexists. split; reflexivity.
Qed.

(** ** C3 and C6: the per-tile band extractor *)

Ltac run_monad :=
  unfold HLS_granule, granule_product, HLS_product, HLS_listing, sentinel_tiles,
    connect, ensure_directory, makedirs, to_geotiff, bbox_to_crs,
    RasterGrid_from_bbox, rt_mosaic, try_except_only, try_except, lift_result,
    bind, ret, raise, log, emit, fail_if;
  simpl.

Ltac split_run :=
  repeat match goal with
         | |- context [match ?x with _ => _ end] =>
             lazymatch x with
             | context [match _ with _ => _ end] => fail
             | _ => destruct x eqn:?; simpl
             end
         end.

Section BandExtractor.

Variable W : World.
Variables (sensor : string) (d d_parsed : Z) (band tile output_directory : string).
Variable st : state.

Let g := Granule (accessor_of sensor) tile d_parsed.
Let filename := Py.join output_directory [tile_filename sensor band tile d_parsed].
Let run := process_sensor_band W sensor d d_parsed band tile output_directory st.
Let info : log_entry :=
  (INFO, "extracting band " ++ band ++ " for " ++ sensor ++ " tile " ++ tile
         ++ " on date " ++ Date.isoformat d_parsed).

Lemma band_granule_failed e :
  granule_error W g = Some e ->
  fst run = Ret None
  /\ new_log st (snd run)
       [info; (ERROR, "Error processing " ++ sensor ++ " band " ++ band ++ " for tile "
                      ++ tile ++ " on " ++ Date.isoformat d_parsed ++ ": " ++ exn_msg e)]
  /\ new_events st (snd run) [EvGranule g].
Proof.
  intros H. subst run. unfold process_sensor_band. run_monad.
  fold g. rewrite H. simpl. unfold new_log, new_events. simpl.
  rewrite <- !app_assoc. auto.
Qed.

Lemma band_lookup_failed e :
  granule_error W g = None -> band_error W g band = Some e ->
  fst run = Ret None
  /\ new_log st (snd run)
       [info;
        if is_band_not_found e
        then (WARNING, "Band '" ++ band ++ "' not available for " ++ sensor
                       ++ ": " ++ exn_msg e)
        else (ERROR, "Error processing " ++ sensor ++ " band " ++ band ++ " for tile "
                     ++ tile ++ " on " ++ Date.isoformat d_parsed ++ ": " ++ exn_msg e)]
  /\ new_events st (snd run) [EvGranule g; EvBand g band].
Proof.
  intros Hg Hb. subst run. unfold process_sensor_band. run_monad.
  fold g. rewrite Hg. simpl. rewrite Hb. simpl.
  unfold new_log, new_events.
  destruct (is_band_not_found e); simpl; rewrite <- !app_assoc; auto.
Qed.

Lemma band_persist {A} (v : A) W' img fname st0 :
  let m := (ensure_directory W' fname ;;;
            log INFO ("writing image to " ++ fname) ;;;
            to_geotiff W' img (expanduser W' fname) ;;;
            ret v) in
  exists st',
    match persist_failure W' img fname with
    | Some e =>
        m st0 = (Raise e, st')
        /\ exists lg, new_log st0 st' lg /\ Forall (fun x => fst x = INFO) lg
    | None =>
        m st0 = (Ret v, st')
        /\ new_log st0 st' [(INFO, "writing image to " ++ fname)]
        /\ st_files st' = <[expanduser W' fname := img]> (st_files st0)
        /\ exists evs,
             new_events st0 st' (evs ++ [EvWrite (expanduser W' fname) img])
             /\ Forall (fun ev => is_write ev = false) evs
    end.
Proof.
  intros m. subst m. unfold persist_failure, directory_failure. run_monad.
  unfold new_log, new_events.
  destruct (Py.truthy (Py.dirname (expanduser W' fname))); simpl.
  - destruct (makedirs_error W' (Py.dirname (expanduser W' fname))) as [e |]; simpl.
    + eexists. split; [reflexivity |]. exists []. rewrite app_nil_r. auto.
    + destruct (bool_decide _); simpl;
        destruct (to_geotiff_error W' img (expanduser W' fname)) as [e |]; simpl;
        eexists; (split; [reflexivity |]); simpl.
      1, 3: eexists; split; [reflexivity | repeat constructor].
      all: split; [reflexivity |]; split; [reflexivity |];
        exists [EvMakedirs (Py.dirname (expanduser W' fname))];
        rewrite <- app_assoc; repeat split; repeat constructor.
  - destruct (to_geotiff_error W' img (expanduser W' fname)) as [e |]; simpl;
      eexists; (split; [reflexivity |]); simpl.
    + eexists; split; [reflexivity | repeat constructor].
    + split; [reflexivity |]. split; [reflexivity |].
      exists []. repeat split; repeat constructor.
Qed.

Lemma run_log l msg st0 : log l msg st0 = (Ret tt, add_log [(l, msg)] st0).
Proof. reflexivity. Qed.

Lemma run_granule_ok W' a t dd st0 :
  granule_error W' (Granule a t dd) = None ->
  HLS_granule W' a t dd st0 = (Ret (Granule a t dd), add_events [EvGranule (Granule a t dd)] st0).
Proof. intros H. run_monad. rewrite H. reflexivity. Qed.

Lemma run_granule_raise W' a t dd st0 e :
  granule_error W' (Granule a t dd) = Some e ->
  HLS_granule W' a t dd st0 = (Raise e, add_events [EvGranule (Granule a t dd)] st0).
Proof. intros H. run_monad. rewrite H. reflexivity. Qed.

Lemma run_product_ok W' gr b st0 :
  band_error W' gr b = None ->
  granule_product W' gr b st0 = (Ret (BandImage gr b), add_events [EvBand gr b] st0).
Proof. intros H. run_monad. rewrite H. reflexivity. Qed.

Lemma run_product_raise W' gr b st0 e :
  band_error W' gr b = Some e ->
  granule_product W' gr b st0 = (Raise e, add_events [EvBand gr b] st0).
Proof. intros H. run_monad. rewrite H. reflexivity. Qed.

Lemma band_persisting :
  granule_error W g = None -> band_error W g band = None ->
  match persist_failure W (BandImage g band) filename with
  | Some e =>
      fst run = Ret None
      /\ exists lg,
           new_log st (snd run)
             (lg ++ [(ERROR, "Error processing " ++ sensor ++ " band " ++ band
                             ++ " for tile " ++ tile ++ " on "
                             ++ Date.isoformat d_parsed ++ ": " ++ exn_msg e)])
           /\ Forall (fun x => fst x = INFO) lg
  | None =>
      fst run = Ret (Some filename)
      /\ new_log st (snd run) [info; (INFO, "writing image to " ++ filename)]
      /\ exists evs,
           new_events st (snd run)
             (evs ++ [EvWrite (expanduser W filename) (BandImage g band)])
           /\ Forall (fun ev => is_write ev = false) evs
  end.
Proof.
  intros Hg Hb. subst run. unfold process_sensor_band.
  erewrite run_bind_ret by apply run_log.
  destruct (band_persist (Some filename) W (BandImage g band) filename
              (add_events [EvBand g band]
                 (add_events [EvGranule g] (add_log [info] st)))) as [st4 Hp].
  destruct (persist_failure W (BandImage g band) filename) as [e |].
  - destruct Hp as (Hrun & lg & Hlg & Hinfo).
    erewrite run_try_raise.
    2:{ erewrite run_bind_ret by (apply run_granule_ok; exact Hg).
        erewrite run_bind_ret.
        2:{ unfold try_except_only. apply run_try_ret.
            erewrite run_bind_ret by (apply run_product_ok; exact Hb). reflexivity. }
        exact Hrun. }
    erewrite run_bind_ret by apply run_log. simpl. split; [reflexivity |].
    exists (info :: lg). split; [| constructor; auto].
    unfold new_log in *. simpl in *. rewrite Hlg. rewrite <- !app_assoc. reflexivity.
  - destruct Hp as (Hrun & Hlg & _ & evs & Hev & Hnw).
    erewrite run_try_ret.
    2:{ erewrite run_bind_ret by (apply run_granule_ok; exact Hg).
        erewrite run_bind_ret.
        2:{ unfold try_except_only. apply run_try_ret.
            erewrite run_bind_ret by (apply run_product_ok; exact Hb). reflexivity. }
        exact Hrun. }
    simpl. split; [reflexivity |].
    unfold new_log, new_events in *. simpl in *. rewrite Hlg, Hev.
    rewrite <- !app_assoc. split; [reflexivity |].
    exists ([EvGranule g; EvBand g band] ++ evs)%list.
    rewrite <- !app_assoc. split; [reflexivity |].
    repeat constructor. exact Hnw.
Qed.


(** A path returned by [process_sensor_band] is the output directory joined
    with the file name [{sensor}_{band}_{tile}_{YYYYMMDD}.tif], and it is
    returned, with the image of that granule and band written to it,
    whenever no collaborator fails. *)
Lemma process_sensor_band_path :
  (forall p, fst run = Ret (Some p) ->
     p = Py.join output_directory
           [sensor ++ "_" ++ band ++ "_" ++ tile ++ "_"
            ++ Date.strftime_Ymd d_parsed ++ ".tif"])
  /\ (extraction_failure W g band filename = None ->
      fst run = Ret (Some filename)
      /\ exists evs,
           new_events st (snd run)
             (evs ++ [EvWrite (expanduser W filename) (BandImage g band)])
           /\ Forall (fun ev => is_write ev = false) evs).
Proof.
  split.
  - intros p Hp.
    destruct (granule_error W g) as [e |] eqn:Hg.
    { destruct (band_granule_failed e Hg) as (Hr & _). congruence. }
    destruct (band_error W g band) as [e |] eqn:Hb.
    { destruct (band_lookup_failed e Hg Hb) as (Hr & _). congruence. }
    pose proof (band_persisting Hg Hb) as H.
    destruct (persist_failure W (BandImage g band) filename);
      destruct H as [H _]; [congruence |].
    rewrite H in Hp. inversion Hp. reflexivity.
  - intros Hnone. unfold extraction_failure in Hnone.
    destruct (granule_error W g) eqn:Hg; [discriminate |].
    destruct (band_error W g band) eqn:Hb; [discriminate |].
    pose proof (band_persisting Hg Hb) as H. rewrite Hnone in H.
    destruct H as (Hr & _ & Hev). auto.
Qed.

End BandExtractor.


(** ** C4 and C7: the cross-tile mosaic builder *)

Lemma quiet_refl st : quiet st st.
Proof.
  repeat split. exists []. split; [unfold new_events; now rewrite app_nil_r | constructor].
Qed.

Lemma quiet_trans st1 st2 st3 : quiet st1 st2 -> quiet st2 st3 -> quiet st1 st3.
Proof.
  intros (Hd1 & Hf1 & evs1 & He1 & Hw1) (Hd2 & Hf2 & evs2 & He2 & Hw2).
  repeat split; [congruence | congruence |].
  exists (evs1 ++ evs2)%list. split.
  - unfold new_events in *. rewrite He2, He1. now rewrite app_assoc.
  - apply Forall_app. auto.
Qed.

Lemma quiet_add_log lg st : quiet st (add_log lg st).
Proof.
  repeat split. exists []. split; [unfold new_events; simpl; now rewrite app_nil_r | constructor].
Qed.

Lemma quiet_add_events evs st :
  Forall (fun ev => is_write ev = false) evs -> quiet st (add_events evs st).
Proof. intros H. repeat split. exists evs. split; [reflexivity | exact H]. Qed.

Lemma quiet_log_r st st1 lg : quiet st st1 -> quiet st (add_log lg st1).
Proof. intros H. eapply quiet_trans; [exact H | apply quiet_add_log]. Qed.

Lemma quiet_events_r st st1 evs :
  Forall (fun ev => is_write ev = false) evs -> quiet st st1 ->
  quiet st (add_events evs st1).
Proof. intros Hw H. eapply quiet_trans; [exact H | now apply quiet_add_events]. Qed.

Ltac quiet_tac :=
  repeat first
    [ apply quiet_refl
    | apply quiet_log_r
    | apply quiet_events_r; [repeat constructor |] ].

Section MosaicBuilder.

Variable W : World.
Variables (sensor : string) (d d_parsed : Z) (band : string) (tsd : calendar).

Lemma collect_tile_run tile images st :
  exists st',
    collect_tile W sensor d d_parsed band tsd tile images st
    = (Ret (if contributes W sensor d d_parsed band tsd tile
            then (images ++ [BandImage (Granule (accessor_of sensor) tile d_parsed) band])%list
            else images), st')
    /\ quiet st st'.
Proof.
  unfold collect_tile, contributes.
  destruct (date_in d (available_dates tsd tile sensor)); simpl.
  2:{ exists st. split; [reflexivity | apply quiet_refl]. }
  erewrite run_bind_ret by apply run_log.
  set (g := Granule (accessor_of sensor) tile d_parsed).
  destruct (granule_error W g) as [e |] eqn:Hg.
  { erewrite run_try_raise by (erewrite run_bind_raise by (apply run_granule_raise; exact Hg); reflexivity).
    erewrite run_bind_ret by apply run_log.
    eexists. split; [reflexivity |].
    quiet_tac. }
  destruct (band_error W g band) as [e |] eqn:Hb.
  - unfold try_except_only.
    destruct (is_band_not_found e) eqn:Hnf.
    + erewrite run_try_ret.
      2:{ erewrite run_bind_ret by (apply run_granule_ok; exact Hg).
          erewrite run_try_raise by (erewrite run_bind_raise by (apply run_product_raise; exact Hb); reflexivity).
          rewrite Hnf. erewrite run_bind_ret by apply run_log. reflexivity. }
      eexists. split; [reflexivity |].
      quiet_tac.
    + erewrite run_try_raise.
      2:{ erewrite run_bind_ret by (apply run_granule_ok; exact Hg).
          erewrite run_try_raise by (erewrite run_bind_raise by (apply run_product_raise; exact Hb); reflexivity).
          rewrite Hnf. reflexivity. }
      erewrite run_bind_ret by apply run_log.
      eexists. split; [reflexivity |].
      quiet_tac.
  - erewrite run_try_ret.
    2:{ erewrite run_bind_ret by (apply run_granule_ok; exact Hg).
        unfold try_except_only. apply run_try_ret.
        erewrite run_bind_ret by (apply run_product_ok; exact Hb). reflexivity. }
    eexists. split; [reflexivity |].
    quiet_tac.
Qed.

Lemma collect_loop_run tiles : forall images st,
  exists st',
    for_each tiles (collect_tile W sensor d d_parsed band tsd) images st
    = (Ret (images ++ collected W sensor d d_parsed band tsd tiles)%list, st')
    /\ quiet st st'.
Proof.
  induction tiles as [| tile tiles IH]; intros images st.
  - exists st. simpl. unfold collected. simpl. rewrite app_nil_r.
    split; [reflexivity | apply quiet_refl].
  - destruct (collect_tile_run tile images st) as (st1 & Hrun & Hq1).
    simpl. erewrite run_bind_ret by exact Hrun.
    destruct (IH (if contributes W sensor d d_parsed band tsd tile
                  then (images ++ [BandImage (Granule (accessor_of sensor) tile d_parsed) band])%list
                  else images) st1) as (st2 & Hrun2 & Hq2).
    exists st2. split; [| eapply quiet_trans; eassumption].
    rewrite Hrun2. unfold collected. simpl.
    destruct (contributes W sensor d d_parsed band tsd tile); simpl;
      [rewrite <- app_assoc |]; reflexivity.
Qed.

Lemma collect_images_run tiles st :
  exists st',
    collect_images W sensor d d_parsed band tiles tsd st
    = (Ret (collected W sensor d d_parsed band tsd tiles), st')
    /\ quiet st st'.
Proof. apply (collect_loop_run tiles [] st). Qed.

Lemma collected_nil_iff tiles :
  collected W sensor d d_parsed band tsd tiles = []
  <-> Forall (contributes_nothing W sensor d d_parsed band tsd) tiles.
Proof.
  unfold collected. induction tiles as [| tile tiles IH]; simpl.
  - split; [constructor | reflexivity].
  - assert (Hc : contributes W sensor d d_parsed band tsd tile = false
                 <-> contributes_nothing W sensor d d_parsed band tsd tile).
    { unfold contributes, contributes_nothing, date_in.
      destruct (granule_error W _) as [e1 |]; destruct (band_error W _ band) as [e2 |];
        case_bool_decide as Hin; simpl; split; intros Hx;
        try discriminate; try tauto.
      all: try (right; left; eexists; reflexivity).
      all: try (right; right; eexists; reflexivity).
      all: destruct Hx as [Hx | [[e' Hx] | [e' Hx]]]; try contradiction; discriminate. }
    destruct (contributes W sensor d d_parsed band tsd tile) eqn:Hct; simpl.
    + split; [discriminate |]. intros H. inversion H as [| ? ? Hn _]; subst.
      apply Hc in Hn. discriminate.
    + rewrite IH. split; intros H.
      * constructor; [apply Hc; reflexivity | exact H].
      * inversion H; assumption.
Qed.

End MosaicBuilder.

Section MosaicWriter.

Variable W : World.

Lemma mosaic_grid_run geom first st :
  mosaic_grid W geom first st
  = match grid_failure W geom first with
    | Some e => (Raise e, st)
    | None => (Ret (expected_grid W geom first), st)
    end.
Proof.
  destruct geom as [b | g]; simpl; [| reflexivity].
  unfold bbox_to_crs, RasterGrid_from_bbox, bind, fail_if, ret, raise.
  destruct (to_crs_error W b (image_crs W first)); [reflexivity |].
  destruct (from_bbox_error W _ _ _); reflexivity.
Qed.

Lemma write_mosaic_unfold geom first images filename st :
  write_mosaic W geom first images filename st
  = match grid_failure W geom first with
    | Some e => (Raise e, st)
    | None =>
        match mosaic_error W images (expected_grid W geom first) with
        | Some e => (Raise e, st)
        | None =>
            (ensure_directory W filename ;;;
             log INFO ("writing image to " ++ filename) ;;;
             to_geotiff W (MosaicImage images (expected_grid W geom first))
               (expanduser W filename) ;;;
             ret filename) st
        end
    end.
Proof.
  unfold write_mosaic. unfold bind at 1. rewrite mosaic_grid_run.
  destruct (grid_failure W geom first) as [e |]; [reflexivity |].
  unfold bind at 1. unfold rt_mosaic, bind at 1 2, fail_if, ret at 1 2, raise.
  destruct (mosaic_error W images (expected_grid W geom first)) as [e |]; reflexivity.
Qed.

Lemma write_mosaic_run geom first images filename st :
  exists st',
    match mosaic_failure W geom images first filename with
    | Some e => write_mosaic W geom first images filename st = (Raise e, st')
    | None =>
        write_mosaic W geom first images filename st = (Ret filename, st')
        /\ exists evs,
             new_events st st'
               (evs ++ [EvWrite (expanduser W filename)
                          (MosaicImage images (expected_grid W geom first))])
             /\ Forall (fun ev => is_write ev = false) evs
    end.
Proof.
  rewrite write_mosaic_unfold. unfold mosaic_failure.
  destruct (grid_failure W geom first) as [e |]; [exists st; reflexivity |].
  destruct (mosaic_error W images (expected_grid W geom first)) as [e |];
    [exists st; reflexivity |].
  destruct (band_persist filename W (MosaicImage images (expected_grid W geom first))
              filename st) as [st' Hp].
  exists st'.
  destruct (persist_failure W _ filename) as [e |].
  - destruct Hp as [Hrun _]. exact Hrun.
  - destruct Hp as (Hrun & _ & _ & Hev). split; [exact Hrun | exact Hev].
Qed.

Variables (sensor : string) (d d_parsed : Z) (band : string) (tiles : list string).
Variables (tsd : calendar) (geom : geometry) (output_directory : string).
Variable st : state.

Let run := process_sensor_mosaic W sensor d d_parsed band tiles tsd geom
             output_directory st.

(** C4. When every tile lacks the date in its sensor calendar, or its
    granule does not resolve, or the band lookup fails, the loop of
    [process_sensor_mosaic] collects no image (and only then); and whenever
    it collects none the function returns None, the last entry it logs is
    the warning, no file is written and no directory is made. *)
Theorem empty_mosaic_is_never_written :
  (Forall (contributes_nothing W sensor d d_parsed band tsd) tiles
   <-> fst (collect_images W sensor d d_parsed band tiles tsd st) = Ret [])
  /\ (fst (collect_images W sensor d d_parsed band tiles tsd st) = Ret [] ->
      fst run = Ret None
      /\ (exists lg,
            new_log st (snd run)
              (lg ++ [(WARNING, "No images collected for " ++ sensor ++ " band " ++ band
                                ++ " on " ++ Date.isoformat d_parsed)]))
      /\ (exists evs,
            new_events st (snd run) evs
            /\ Forall (fun ev => is_write ev = false) evs)
      /\ st_files (snd run) = st_files st
      /\ st_dirs (snd run) = st_dirs st).
Proof.
  destruct (collect_images_run W sensor d d_parsed band tsd tiles st)
    as (st1 & Hrun & Hq).
  split.
  - rewrite Hrun. simpl. rewrite <- collected_nil_iff.
    split; [intros ->; reflexivity | intros H; now inversion H].
  - rewrite Hrun. simpl. intros Hnil. inversion Hnil as [Hc].
    subst run. unfold process_sensor_mosaic.
    erewrite run_bind_ret by exact Hrun. rewrite Hc.
    erewrite run_bind_ret by apply run_log. simpl.
    destruct Hq as (Hd & Hf & evs & Hev & Hw).
    split; [reflexivity |]. split; [| split; [| split]].
    + assert (Hlog : exists lg, new_log st st1 lg).
      { clear -Hrun. revert Hrun. unfold collect_images.
        generalize (@nil image) at 1. generalize (collected W sensor d d_parsed band tsd tiles).
        revert st st1. induction tiles as [| t ts IH]; intros s0 s1 res acc Hr.
        - inversion Hr; subst. exists []. unfold new_log. now rewrite app_nil_r.
        - simpl in Hr. unfold bind in Hr at 1.
          destruct (collect_tile W sensor d d_parsed band tsd t acc s0) as [[a | e] sm] eqn:Ht.
          + destruct (IH _ _ _ _ Hr) as [lg2 Hl2].
            assert (Hl1 : exists lg1, new_log s0 sm lg1).
            { clear -Ht. unfold collect_tile in Ht.
              destruct (negb _); [inversion Ht; subst; exists []; unfold new_log; now rewrite app_nil_r |].
              revert Ht. run_monad. unfold new_log.
              destruct (granule_error W _); simpl;
                [intros Ht; inversion Ht; subst; simpl; rewrite <- app_assoc; eauto |].
              destruct (band_error W _ band) as [e |]; simpl;
                [| intros Ht; inversion Ht; subst; simpl; eauto].
              destruct (is_band_not_found e); simpl;
                intros Ht; inversion Ht; subst; simpl; rewrite <- app_assoc; eauto. }
            destruct Hl1 as [lg1 Hl1]. exists (lg1 ++ lg2)%list.
            unfold new_log in *. rewrite Hl2, Hl1. now rewrite app_assoc.
          + inversion Hr. }
      destruct Hlog as [lg Hlg]. exists lg. unfold new_log in *. simpl.
      rewrite Hlg. now rewrite app_assoc.
    + exists evs. split; [exact Hev | exact Hw].
    + exact Hf.
    + exact Hd.
Qed.

End MosaicWriter.

Lemma empty_mosaic_is_never_written_witness :
  fst (process_sensor_mosaic demo_world "L30" d20220803 d20220803 "rededge1"
         ["10SEG"; "11SKA"] demo_calendar (GeomBBox (BBoxGiven "upper_kings"))
         "out/L30/rededge1" empty_state) = Ret None
  /\ st_files (snd (process_sensor_mosaic demo_world "L30" d20220803 d20220803
                      "rededge1" ["10SEG"; "11SKA"] demo_calendar
                      (GeomBBox (BBoxGiven "upper_kings")) "out/L30/rededge1"
                      empty_state)) = ∅.
Proof.
  destruct (empty_mosaic_is_never_written demo_world "L30" d20220803 d20220803
              "rededge1" ["10SEG"; "11SKA"] demo_calendar
              (GeomBBox (BBoxGiven "upper_kings")) "out/L30/rededge1" empty_state)
    as (_ & H).
  destruct H as (Hr & _ & _ & Hf & _).
  - vm_compute. reflexivity.
  - split; [exact Hr | exact Hf].
Defined.

Section MosaicGrid.

Variable W : World.
Variables (sensor : string) (d d_parsed : Z) (band : string) (tiles : list string).
Variables (tsd : calendar) (geom : geometry) (output_directory : string).
Variable st : state.
Variables (first : image) (rest : list image).

Let run := process_sensor_mosaic W sensor d d_parsed band tiles tsd geom
             output_directory st.
Let filename :=
  Py.join output_directory
    [sensor ++ "_" ++ band ++ "_" ++ Date.strftime_Ymd d_parsed ++ ".tif"].
Let working_grid :=
  match geom with
  | GeomBBox b =>
      GridFromBBox (BBoxToCrs b (image_crs W first)) (image_cell_size W first)
        (image_crs W first)
  | GeomRaster g => g
  end.

(** C7. When [process_sensor_mosaic] has collected the images
    [first :: rest], a path it returns is the output directory joined with
    [{sensor}_{band}_{YYYYMMDD}.tif], without a tile, and the file written
    there is the mosaic of the collected images on the working grid: for a
    bounding box the grid built from the box reprojected to the coordinate
    reference system of the first image, at the cell size of the first
    image; for a raster grid the grid itself.  The path is returned
    whenever no collaborator fails. *)
Theorem mosaic_grid_and_filename :
  fst (collect_images W sensor d d_parsed band tiles tsd st) = Ret (first :: rest) ->
  (forall p, fst run = Ret (Some p) ->
     p = filename
     /\ exists evs,
          new_events st (snd run)
            (evs ++ [EvWrite (expanduser W filename)
                       (MosaicImage (first :: rest) working_grid)])
          /\ Forall (fun ev => is_write ev = false) evs)
  /\ (mosaic_failure W geom (first :: rest) first filename = None ->
      fst run = Ret (Some filename)).
Proof.
  intros Hc.
  destruct (collect_images_run W sensor d d_parsed band tsd tiles st)
    as (st1 & Hrun & Hq).
  rewrite Hrun in Hc. simpl in Hc. injection Hc as Hcol. rewrite Hcol in Hrun.
  assert (Hgrid : expected_grid W geom first = working_grid) by reflexivity.
  destruct (write_mosaic_run W geom first (first :: rest) filename st1) as [st2 Hw].
  subst run. unfold process_sensor_mosaic.
  erewrite run_bind_ret by exact Hrun.
  fold (mosaic_filename sensor band d_parsed) in filename.
  change (Py.join output_directory [mosaic_filename sensor band d_parsed]) with filename.
  destruct (mosaic_failure W geom (first :: rest) first filename) as [e |].
  - erewrite run_try_raise by (erewrite run_bind_raise by exact Hw; reflexivity).
    erewrite run_bind_ret by apply run_log. simpl.
    split; [intros p Hp; discriminate | intros Hn; discriminate Hn].
  - destruct Hw as (Hw & evs & Hev & Hnw).
    erewrite run_try_ret by (erewrite run_bind_ret by exact Hw; reflexivity).
    simpl. split; [| reflexivity].
    intros p Hp. inversion Hp. split; [reflexivity |].
    destruct Hq as (_ & _ & evs1 & Hev1 & Hnw1).
    exists (evs1 ++ evs)%list. split.
    + unfold new_events in *. rewrite Hev, Hev1, Hgrid. now rewrite !app_assoc.
    + apply Forall_app; auto.
Qed.

End MosaicGrid.

Lemma mosaic_grid_and_filename_witness :
  fst (process_sensor_mosaic demo_world "S30" d20220803 d20220803 "red"
         ["10SEG"; "11SKA"] demo_calendar (GeomBBox (BBoxGiven "upper_kings"))
         "out/S30/red" empty_state)
  = Ret (Some "out/S30/red/S30_red_20220803.tif").
Proof.
  destruct (mosaic_grid_and_filename demo_world "S30" d20220803 d20220803 "red"
              ["10SEG"; "11SKA"] demo_calendar (GeomBBox (BBoxGiven "upper_kings"))
              "out/S30/red" empty_state
              (BandImage (Granule sentinel "10SEG" d20220803) "red")
              [BandImage (Granule sentinel "11SKA" d20220803) "red"])
    as (_ & H).
  - vm_compute. reflexivity.
  - rewrite H; [reflexivity | vm_compute; reflexivity].
Defined.

(** ** A logic of effects *)

Lemma apply_effect_nil st : apply_effect [] [] ∅ ∅ st = st.
Proof.
  destruct st as [lg tr ds fs]. unfold apply_effect. simpl.
  rewrite !app_nil_r. f_equal.
  - apply (left_id_L ∅ (∪)).
  - apply (left_id_L ∅ (∪)).
Qed.

Lemma apply_effect_compose lg1 evs1 D1 F1 lg2 evs2 D2 F2 st :
  apply_effect lg2 evs2 D2 F2 (apply_effect lg1 evs1 D1 F1 st)
  = apply_effect (lg1 ++ lg2) (evs1 ++ evs2) (D2 ∪ D1) (F2 ∪ F1) st.
Proof.
  unfold apply_effect. simpl. rewrite !app_assoc. f_equal.
  - apply (assoc_L (∪)).
  - apply (assoc_L (∪)).
Qed.

Section EffectLogic.

Variable P : event -> Prop.

Lemma behaves_ret {A} (Q : A -> Prop) a : Q a -> behaves P Q (ret a).
Proof.
  intros H. exists (Ret a), [], [], ∅, ∅. split; [| split; [constructor | exact H]].
  intros st. now rewrite apply_effect_nil.
Qed.

Lemma behaves_raise {A} (Q : A -> Prop) e : behaves P Q (raise e).
Proof.
  exists (Raise e), [], [], ∅, ∅. split; [| split; [constructor | exact I]].
  intros st. now rewrite apply_effect_nil.
Qed.

Lemma behaves_bind {A B} (Q1 : A -> Prop) (Q2 : B -> Prop) (m : M A) (f : A -> M B) :
  behaves P Q1 m -> (forall a, Q1 a -> behaves P Q2 (f a)) ->
  behaves P Q2 (bind m f).
Proof.
  intros (r & lg & evs & D & F & Hrun & HP & HQ) Hf.
  destruct r as [a | e].
  - destruct (Hf a HQ) as (r2 & lg2 & evs2 & D2 & F2 & Hrun2 & HP2 & HQ2).
    exists r2, (lg ++ lg2)%list, (evs ++ evs2)%list, (D2 ∪ D), (F2 ∪ F).
    split; [| split; [apply Forall_app; auto | exact HQ2]].
    intros st. unfold bind. rewrite Hrun, Hrun2. now rewrite apply_effect_compose.
  - exists (Raise e), lg, evs, D, F. split; [| split; [exact HP | exact I]].
    intros st. unfold bind. now rewrite Hrun.
Qed.

Lemma behaves_try {A} (Q : A -> Prop) (m : M A) (h : exn -> M A) :
  behaves P Q m -> (forall e, behaves P Q (h e)) -> behaves P Q (try_except m h).
Proof.
  intros (r & lg & evs & D & F & Hrun & HP & HQ) Hh.
  destruct r as [a | e].
  - exists (Ret a), lg, evs, D, F. split; [| split; [exact HP | exact HQ]].
    intros st. unfold try_except. now rewrite Hrun.
  - destruct (Hh e) as (r2 & lg2 & evs2 & D2 & F2 & Hrun2 & HP2 & HQ2).
    exists r2, (lg ++ lg2)%list, (evs ++ evs2)%list, (D2 ∪ D), (F2 ∪ F).
    split; [| split; [apply Forall_app; auto | exact HQ2]].
    intros st. unfold try_except. rewrite Hrun, Hrun2. now rewrite apply_effect_compose.
Qed.

Lemma behaves_try_only {A} (Q : A -> Prop) classes (m : M A) (h : exn -> M A) :
  behaves P Q m -> (forall e, behaves P Q (h e)) ->
  behaves P Q (try_except_only classes m h).
Proof.
  intros Hm Hh. unfold try_except_only. apply behaves_try; [exact Hm |].
  intros e. destruct (classes e); [apply Hh | apply behaves_raise].
Qed.

Lemma behaves_weaken {A} (Q Q' : A -> Prop) (m : M A) :
  behaves P Q m -> (forall a, Q a -> Q' a) -> behaves P Q' m.
Proof.
  intros (r & lg & evs & D & F & Hrun & HP & HQ) Himp.
  exists r, lg, evs, D, F. split; [exact Hrun | split; [exact HP |]].
  destruct r; auto.
Qed.

Lemma behaves_lift {A} (Q : A -> Prop) (r : result A) :
  (forall a, r = Ret a -> Q a) -> behaves P Q (lift_result r).
Proof.
  intros H. exists r, [], [], ∅, ∅. split; [| split; [constructor |]].
  - intros st. unfold lift_result. now rewrite apply_effect_nil.
  - destruct r; auto.
Qed.

Lemma behaves_for_each {A B} (Q : B -> Prop) (l : list A) (body : A -> B -> M B) :
  (forall x acc, x ∈ l -> Q acc -> behaves P Q (body x acc)) ->
  forall acc, Q acc -> behaves P Q (for_each l body acc).
Proof.
  induction l as [| x l IH]; intros Hbody acc Hacc; simpl.
  - apply behaves_ret; exact Hacc.
  - eapply behaves_bind.
    + apply Hbody; [apply list_elem_of_here | exact Hacc].
    + intros acc' Hacc'. apply IH; [| exact Hacc'].
      intros y acc0 Hy. apply Hbody. now apply list_elem_of_further.
Qed.

End EffectLogic.

Section EffectLogicUnit.

Variable P : event -> Prop.

Lemma behaves_log (Q : unit -> Prop) l msg : Q tt -> behaves P Q (log l msg).
Proof.
  intros H. exists (Ret tt), [(l, msg)], [], ∅, ∅. split; [| split; [constructor | exact H]].
  intros st. unfold log, apply_effect. rewrite app_nil_r. f_equal. f_equal.
  - symmetry. apply (left_id_L ∅ (∪)).
  - symmetry. apply (left_id_L ∅ (∪)).
Qed.

Lemma behaves_emit (Q : unit -> Prop) ev : P ev -> Q tt -> behaves P Q (emit ev).
Proof.
  intros Hev H. exists (Ret tt), [], [ev], ∅, ∅.
  split; [| split; [repeat constructor; exact Hev | exact H]].
  intros st. unfold emit, apply_effect. rewrite app_nil_r. f_equal. f_equal.
  - symmetry. apply (left_id_L ∅ (∪)).
  - symmetry. apply (left_id_L ∅ (∪)).
Qed.

Lemma behaves_fail_if (Q : unit -> Prop) o : Q tt -> behaves P Q (fail_if o).
Proof.
  intros H. destruct o; [apply behaves_raise | apply behaves_ret; exact H].
Qed.

Lemma behaves_makedirs W (Q : unit -> Prop) directory :
  P (EvMakedirs directory) -> Q tt -> behaves P Q (makedirs W true directory).
Proof.
  intros Hev H. unfold makedirs.
  eapply behaves_bind; [apply (behaves_emit (fun _ => True)); auto |]. intros _ _.
  eapply behaves_bind; [apply (behaves_fail_if (fun _ => True)); auto |]. intros _ _.
  exists (Ret tt), [], [], {[directory]}, ∅. split; [| split; [constructor | exact H]].
  intros st. unfold apply_effect. rewrite !app_nil_r.
  rewrite (left_id_L ∅ (∪)).
  case_bool_decide as Hin.
  - f_equal. destruct st as [lg tr ds fs]. simpl in *. f_equal.
    symmetry. apply subseteq_union_1_L. now apply singleton_subseteq_l.
  - reflexivity.
Qed.

Lemma behaves_to_geotiff W (Q : unit -> Prop) img path :
  P (EvWrite path img) -> Q tt -> behaves P Q (to_geotiff W img path).
Proof.
  intros Hev H. unfold to_geotiff.
  eapply behaves_bind; [apply (behaves_emit (fun _ => True)); auto |]. intros _ _.
  eapply behaves_bind; [apply (behaves_fail_if (fun _ => True)); auto |]. intros _ _.
  exists (Ret tt), [], [], ∅, {[path := img]}. split; [| split; [constructor | exact H]].
  intros st. unfold apply_effect. rewrite !app_nil_r.
  rewrite (left_id_L ∅ (∪)). f_equal. f_equal.
  apply insert_union_singleton_l.
Qed.

End EffectLogicUnit.

(** ** The behaviour of each function *)

Ltac btrue :=
  first
    [ apply (behaves_log _ (fun _ => True)); exact I
    | apply (behaves_fail_if _ (fun _ => True)); exact I
    | apply (behaves_lift _ (fun _ => True)); intros; exact I
    | apply (behaves_ret _ (fun _ => True)); exact I
    | apply (behaves_raise _ (fun _ => True)) ].

Section Behaviour.

Variable W : World.
Variable P : event -> Prop.
Hypothesis Hben : forall ev, benign ev -> P ev.

Lemma behaves_emit_benign ev : benign ev -> behaves P (fun _ => True) (emit ev).
Proof. intros H. apply behaves_emit; [apply Hben; exact H | exact I]. Qed.

Lemma behaves_ensure_directory filename :
  behaves P (fun _ => True) (ensure_directory W filename).
Proof.
  unfold ensure_directory. destruct (Py.truthy _); [| btrue].
  apply behaves_makedirs; [apply Hben |]; exact I.
Qed.

Lemma behaves_granule a tile d :
  behaves P (fun g => g = Granule a tile d) (HLS_granule W a tile d).
Proof.
  unfold HLS_granule.
  eapply behaves_bind; [apply behaves_emit_benign; exact I |]. intros _ _.
  eapply behaves_bind; [btrue |]. intros _ _.
  now apply behaves_ret.
Qed.

Lemma behaves_product g band :
  behaves P (fun img => img = BandImage g band) (granule_product W g band).
Proof.
  unfold granule_product.
  eapply behaves_bind; [apply behaves_emit_benign; exact I |]. intros _ _.
  eapply behaves_bind; [btrue |]. intros _ _.
  now apply behaves_ret.
Qed.

Lemma behaves_persist {A} (Q : A -> Prop) (v : A) img filename :
  P (EvWrite (expanduser W filename) img) -> Q v ->
  behaves P Q
    (ensure_directory W filename ;;;
     log INFO ("writing image to " ++ filename) ;;;
     to_geotiff W img (expanduser W filename) ;;;
     ret v).
Proof.
  intros Hw Hv.
  eapply behaves_bind; [apply behaves_ensure_directory |]. intros _ _.
  eapply behaves_bind; [btrue |]. intros _ _.
  eapply behaves_bind; [apply (behaves_to_geotiff _ _ (fun _ => True)); [exact Hw | exact I] |].
  intros _ _. now apply behaves_ret.
Qed.

Lemma behaves_process_sensor_band sensor d d_parsed band tile out :
  let filename := Py.join out [tile_filename sensor band tile d_parsed] in
  P (EvWrite (expanduser W filename)
       (BandImage (Granule (accessor_of sensor) tile d_parsed) band)) ->
  behaves P (fun r => forall p, r = Some p -> p = filename)
    (process_sensor_band W sensor d d_parsed band tile out).
Proof.
  intros filename Hw. unfold process_sensor_band.
  eapply behaves_bind; [btrue |]. intros _ _.
  apply behaves_try.
  - eapply behaves_bind; [apply behaves_granule |]. intros g ->.
    eapply behaves_bind
      with (Q1 := fun r => forall img, r = Some img ->
                   img = BandImage (Granule (accessor_of sensor) tile d_parsed) band).
    + apply behaves_try_only.
      * eapply behaves_bind; [apply behaves_product |]. intros img ->.
        apply behaves_ret. intros img' H. now inversion H.
      * intros e. eapply behaves_bind; [btrue |]. intros _ _.
        apply behaves_ret. intros img' H. discriminate.
    + intros [img |] Himg.
      * rewrite (Himg img eq_refl). apply behaves_persist; [exact Hw |].
        intros p H. now inversion H.
      * apply behaves_ret. intros p H. discriminate.
  - intros e. eapply behaves_bind; [btrue |]. intros _ _.
    apply behaves_ret. intros p H. discriminate.
Qed.

Lemma behaves_collect_images sensor d d_parsed band tiles tsd :
  behaves P (Forall (fun img => sensor_pure (accessor_of sensor) img = true))
    (collect_images W sensor d d_parsed band tiles tsd).
Proof.
  unfold collect_images. apply behaves_for_each; [| constructor].
  intros tile images _ Himgs. unfold collect_tile.
  destruct (negb _); [now apply behaves_ret |].
  eapply behaves_bind; [btrue |]. intros _ _.
  apply behaves_try.
  - eapply behaves_bind; [apply behaves_granule |]. intros g ->.
    apply behaves_try_only.
    + eapply behaves_bind; [apply behaves_product |]. intros img ->.
      apply behaves_ret. apply Forall_app. split; [exact Himgs |].
      repeat constructor. simpl. now destruct (accessor_of sensor).
    + intros e. eapply behaves_bind; [btrue |]. intros _ _. now apply behaves_ret.
  - intros e. eapply behaves_bind; [btrue |]. intros _ _. now apply behaves_ret.
Qed.

Lemma behaves_write_mosaic geom first images filename :
  (forall g, P (EvWrite (expanduser W filename) (MosaicImage images g))) ->
  behaves P (fun f => f = filename) (write_mosaic W geom first images filename).
Proof.
  intros Hw. unfold write_mosaic.
  eapply behaves_bind with (Q1 := fun _ => True).
  { unfold mosaic_grid. destruct geom; [| btrue].
    unfold bbox_to_crs, RasterGrid_from_bbox.
    eapply behaves_bind with (Q1 := fun _ => True).
    - eapply behaves_bind; [btrue |]. intros _ _. btrue.
    - intros b' _. eapply behaves_bind; [btrue |]. intros _ _. btrue. }
  intros g _. unfold rt_mosaic.
  eapply behaves_bind with (Q1 := fun img => img = MosaicImage images g).
  { eapply behaves_bind; [btrue |]. intros _ _. now apply behaves_ret. }
  intros img ->. apply behaves_persist; [apply Hw | reflexivity].
Qed.

Lemma behaves_process_sensor_mosaic sensor d d_parsed band tiles tsd geom out :
  let filename := Py.join out [mosaic_filename sensor band d_parsed] in
  (forall images g,
     Forall (fun img => sensor_pure (accessor_of sensor) img = true) images ->
     P (EvWrite (expanduser W filename) (MosaicImage images g))) ->
  behaves P (fun r => forall p, r = Some p -> p = filename)
    (process_sensor_mosaic W sensor d d_parsed band tiles tsd geom out).
Proof.
  intros filename Hw. unfold process_sensor_mosaic.
  eapply behaves_bind; [apply behaves_collect_images |]. intros images Himgs.
  destruct images as [| first rest].
  - eapply behaves_bind; [btrue |]. intros _ _. apply behaves_ret. discriminate.
  - apply behaves_try.
    + eapply behaves_bind; [apply behaves_write_mosaic; intros g; now apply Hw |].
      intros f ->. apply behaves_ret. intros p H. now inversion H.
    + intros e. eapply behaves_bind; [btrue |]. intros _ _.
      apply behaves_ret. discriminate.
Qed.

End Behaviour.

Section BehaviourOfDispatch.

Variable W : World.
Variable P : event -> Prop.
Hypothesis Hben : forall ev, benign ev -> P ev.
Variable Qp : string -> Prop.

Lemma append_if_keeps filename acc :
  (forall p, filename = Some p -> Qp p) -> Forall Qp acc ->
  Forall Qp (append_if filename acc).
Proof.
  intros Hf Hacc. unfold append_if. destruct filename as [f |]; [| exact Hacc].
  destruct (Py.truthy f); [| exact Hacc].
  apply Forall_app. split; [exact Hacc |]. repeat constructor. now apply Hf.
Qed.

Lemma behaves_sensor_tile sensor tsd d d_parsed band dir tile acc :
  P (EvWrite (expanduser W (Py.join dir [tile_filename sensor band tile d_parsed]))
       (BandImage (Granule (accessor_of sensor) tile d_parsed) band)) ->
  Qp (Py.join dir [tile_filename sensor band tile d_parsed]) ->
  Forall Qp acc ->
  behaves P (Forall Qp) (sensor_tile W sensor tsd d d_parsed band dir tile acc).
Proof.
  intros Hw Hq Hacc. unfold sensor_tile.
  destruct (negb _); [now apply behaves_ret |].
  eapply behaves_bind; [apply behaves_process_sensor_band; [exact Hben | exact Hw] |].
  intros r Hr. apply behaves_ret. apply append_if_keeps; [| exact Hacc].
  intros p Hp. now rewrite (Hr p Hp).
Qed.

Lemma behaves_sensor_mosaic sensor geometry tiles tsd d d_parsed band dir acc :
  (forall images g,
     Forall (fun img => sensor_pure (accessor_of sensor) img = true) images ->
     P (EvWrite (expanduser W (Py.join dir [mosaic_filename sensor band d_parsed]))
          (MosaicImage images g))) ->
  Qp (Py.join dir [mosaic_filename sensor band d_parsed]) ->
  Forall Qp acc ->
  behaves P (Forall Qp)
    (sensor_mosaic W sensor geometry tiles tsd d d_parsed band dir acc).
Proof.
  intros Hw Hq Hacc. unfold sensor_mosaic.
  eapply behaves_bind; [apply behaves_process_sensor_mosaic; [exact Hben | exact Hw] |].
  intros r Hr. apply behaves_ret. apply append_if_keeps; [| exact Hacc].
  intros p Hp. now rewrite (Hr p Hp).
Qed.

Lemma behaves_os_path_join a p :
  behaves P (fun r => exists o, a = Some o /\ r = Py.join o p) (os_path_join a p).
Proof.
  unfold os_path_join. destruct a as [o |]; [| apply behaves_raise].
  apply behaves_ret. eauto.
Qed.

Lemma behaves_validate a :
  behaves P (fun v => fst (fst (fst v)) = normalize_bands (bands a)) (validate W a).
Proof.
  unfold validate.
  eapply behaves_bind with (Q1 := fun _ => True).
  { destruct (bool_decide _); btrue. }
  intros _ _.
  assert (Hdate : forall x, behaves P (fun _ => True) (normalize_date W x)).
  { intros [[s | dd] |]; simpl; try btrue.
    eapply behaves_bind; [btrue |]. intros dd _. btrue. }
  eapply behaves_bind; [apply Hdate |]. intros start _.
  eapply behaves_bind; [apply Hdate |]. intros end_ _.
  eapply behaves_bind with (Q1 := fun _ => True).
  { destruct (tiles a), (geom a); btrue. }
  intros _ _.
  eapply behaves_bind with (Q1 := fun _ => True).
  { unfold resolve_tiles, sentinel_tiles.
    destruct (tiles a) as [[s | l] |], (geom a) as [[b | r] |]; try btrue.
    all: eapply behaves_bind; [apply behaves_emit_benign; [exact Hben | exact I] |].
    all: intros _ _; btrue. }
  intros tiles _. now apply behaves_ret.
Qed.

Lemma behaves_log_each {A} (l : list A) (msg : A -> string) :
  behaves P (fun _ => True) (for_each l (fun x _ => log INFO (msg x)) tt).
Proof.
  apply behaves_for_each; [| exact I]. intros x [] _ _. btrue.
Qed.

Lemma behaves_index_tiles tiles start_UTC end_UTC :
  behaves P (fun _ => True) (index_tiles W tiles start_UTC end_UTC).
Proof.
  unfold index_tiles.
  eapply behaves_bind with (Q1 := fun _ => True).
  { apply behaves_for_each; [| exact I]. intros tile [tsd all_dates] _ _.
    unfold index_tile.
    eapply behaves_bind; [btrue |]. intros _ _.
    eapply behaves_bind with (Q1 := fun _ => True).
    { unfold HLS_listing.
      eapply behaves_bind; [apply behaves_emit_benign; [exact Hben | exact I] |].
      intros _ _. btrue. }
    intros rows _.
    destruct (_ && _).
    - eapply behaves_bind; [btrue |]. intros _ _. btrue.
    - eapply behaves_bind with (Q1 := fun _ => True).
      { destruct (0 <? _)%nat; [| btrue].
        eapply behaves_bind; [btrue |]. intros _ _. apply behaves_log_each. }
      intros _ _.
      eapply behaves_bind with (Q1 := fun _ => True).
      { destruct (0 <? _)%nat; [| btrue].
        eapply behaves_bind; [btrue |]. intros _ _. apply behaves_log_each. }
      intros _ _. btrue. }
  intros acc _.
  eapply behaves_bind; [btrue |]. intros _ _. btrue.
Qed.

Lemma behaves_connect dd : behaves P (fun _ => True) (connect W dd).
Proof.
  unfold connect.
  eapply behaves_bind; [apply behaves_emit_benign; [exact Hben | exact I] |].
  intros _ _. btrue.
Qed.

(** The orchestrator around the loop over dates and bands. *)
Lemma behaves_generate a :
  (forall bs ts tsd all_dates,
     bs = normalize_bands (bands a) ->
     behaves P (Forall Qp)
       (process_dates W (source a) (effective_output a) (geom a) bs ts tsd
          all_dates)) ->
  behaves P (Forall Qp) (generate_HLS_timeseries W a).
Proof.
  intros Hloop. unfold generate_HLS_timeseries.
  eapply behaves_bind; [apply behaves_validate |].
  intros [[[bs ts] start_UTC] end_UTC] Hb. simpl in Hb.
  do 6 (eapply behaves_bind; [btrue |]; intros _ _).
  eapply behaves_bind; [apply behaves_connect |]. intros _ _.
  eapply behaves_bind; [btrue |]. intros _ _.
  eapply behaves_bind; [apply behaves_index_tiles |]. intros idx _.
  apply Hloop. exact Hb.
Qed.

End BehaviourOfDispatch.

(** ** C9: running twice *)

Ltac uni :=
  lazymatch goal with
  | |- behaves _ _ (bind _ _) =>
      eapply (behaves_bind _ (fun _ => True)); [uni | intros ? _; uni]
  | |- behaves _ _ (ret _) => apply behaves_ret; exact I
  | |- behaves _ _ (raise _) => apply behaves_raise
  | |- behaves _ _ (log _ _) => apply behaves_log; exact I
  | |- behaves _ _ (emit _) => apply behaves_emit; exact I
  | |- behaves _ _ (fail_if _) => apply behaves_fail_if; exact I
  | |- behaves _ _ (lift_result _) => apply behaves_lift; intros; exact I
  | |- behaves _ _ (makedirs _ true _) => apply behaves_makedirs; exact I
  | |- behaves _ _ (to_geotiff _ _ _) => apply behaves_to_geotiff; exact I
  | |- behaves _ _ (try_except _ _) => apply behaves_try; [uni | intros ?; uni]
  | |- behaves _ _ (try_except_only _ _ _) =>
      apply behaves_try_only; [uni | intros ?; uni]
  | |- behaves _ _ (for_each _ _ _) =>
      apply behaves_for_each; [intros ? ? _ _; uni | exact I]
  | |- behaves _ _ (match ?x with _ => _ end) => destruct x; uni
  | |- behaves _ _ ?m =>
      let h := get_head m in unfold h; uni
  end.

Lemma generate_uniform W a :
  behaves (fun _ => True) (fun _ => True) (generate_HLS_timeseries W a).
Proof. uni. Qed.

(** C9. For fixed answers of the collaborators, running
    [generate_HLS_timeseries] a second time with the same arguments, from
    the state the first run left, gives the same result (the same list of
    paths, or the same exception), makes the same calls, and leaves the
    directories and files as the first run left them: the directories that
    exist are accepted and the files are written again with the same
    content. *)
Theorem rerun_gives_the_same_outputs W a st :
  let run1 := generate_HLS_timeseries W a st in
  let run2 := generate_HLS_timeseries W a (snd run1) in
  fst run2 = fst run1
  /\ st_files (snd run2) = st_files (snd run1)
  /\ st_dirs (snd run2) = st_dirs (snd run1)
  /\ exists evs, new_events st (snd run1) evs /\ new_events (snd run1) (snd run2) evs.
Proof.
  destruct (generate_uniform W a) as (r & lg & evs & D & F & Hrun & _).
  simpl. rewrite !Hrun. simpl. split; [reflexivity |]. split; [| split].
  - rewrite (assoc_L (∪)). f_equal. apply (idemp_L (∪)).
  - rewrite (assoc_L (∪)). f_equal. apply (idemp_L (∪)).
  - exists evs. split; reflexivity.
Qed.

(** Without [exist_ok=True] the second creation of a directory would
    raise. *)
Lemma makedirs_twice_needs_exist_ok W directory st :
  makedirs_error W directory = None ->
  fst (makedirs W false directory (snd (makedirs W false directory st)))
  = Raise (Exn FileExistsError directory)
  /\ fst (makedirs W true directory (snd (makedirs W true directory st))) = Ret tt.
Proof.
  intros H. run_monad. rewrite H. simpl.
  split.
  - destruct (bool_decide (directory ∈ st_dirs st)) eqn:Hin; simpl; rewrite ?H; simpl.
    + now rewrite Hin.
    + rewrite bool_decide_eq_true_2; [reflexivity | set_solver].
  - destruct (bool_decide (directory ∈ st_dirs st)) eqn:Hin; simpl; rewrite ?H; simpl.
    + now rewrite Hin.
    + rewrite bool_decide_eq_true_2; [reflexivity | set_solver].
Qed.

(** ** C2 and C5: the availability indexer *)

Lemma only_events_refl st : only_events [] st st.
Proof. unfold only_events, new_events. now rewrite app_nil_r. Qed.

Lemma only_events_trans evs1 evs2 st1 st2 st3 :
  only_events evs1 st1 st2 -> only_events evs2 st2 st3 ->
  only_events (evs1 ++ evs2) st1 st3.
Proof.
  unfold only_events, new_events. intros (H1 & H2 & H3) (H4 & H5 & H6).
  rewrite H4, H1, H5, H2, H6, H3. now rewrite app_assoc.
Qed.

Lemma only_events_log lg st : only_events [] st (add_log lg st).
Proof. unfold only_events, new_events. simpl. now rewrite app_nil_r. Qed.

Lemma log_each_run {A} (l : list A) (msg : A -> string) st :
  exists st',
    for_each l (fun x _ => log INFO (msg x)) tt st = (Ret tt, st')
    /\ only_events [] st st'.
Proof.
  revert st. induction l as [| x l IH]; intros st; simpl.
  - exists st. split; [reflexivity | apply only_events_refl].
  - erewrite run_bind_ret by apply run_log.
    destruct (IH (add_log [(INFO, msg x)] st)) as (st' & Hrun & Hev).
    exists st'. split; [exact Hrun |].
    apply (only_events_trans [] [] _ _ _ (only_events_log _ st) Hev).
Qed.

Section Indexer.

Variable W : World.
Variables (start_UTC end_UTC : option Z).

Lemma sorted_unique_nil l : length (sorted_unique l) = 0%nat -> sorted_unique l = [].
Proof. destruct (sorted_unique l); [reflexivity | discriminate]. Qed.

Lemma index_tile_ok tile tsd S st rows :
  listing W tile start_UTC end_UTC = Ret rows ->
  exists st',
    index_tile W start_UTC end_UTC tile (tsd, S) st
    = (Ret (<[tile := sensor_dict (s30_dates_of rows) (l30_dates_of rows)]> tsd,
            S ∪ tile_dates rows), st')
    /\ only_events [EvListing tile start_UTC end_UTC] st st'.
Proof.
  intros Hl. unfold index_tile.
  erewrite run_bind_ret by apply run_log.
  erewrite run_bind_ret.
  2:{ unfold HLS_listing. erewrite run_bind_ret by reflexivity.
      unfold lift_result. rewrite Hl. reflexivity. }
  set (st1 := State _ _ _ _).
  assert (H1 : only_events [EvListing tile start_UTC end_UTC] st st1).
  { subst st1. unfold only_events, new_events. simpl. auto. }
  unfold tile_dates.
  destruct ((length (s30_dates_of rows) =? 0)%nat && (length (l30_dates_of rows) =? 0)%nat)
    eqn:Hempty.
  - apply andb_true_iff in Hempty. destruct Hempty as [H30 HL30].
    apply Nat.eqb_eq in H30, HL30.
    unfold s30_dates_of, l30_dates_of in *.
    apply sorted_unique_nil in H30. apply sorted_unique_nil in HL30. rewrite H30, HL30.
    erewrite run_bind_ret by apply run_log.
    eexists. split.
    + unfold ret. f_equal. f_equal. f_equal. simpl.
      now rewrite !(right_id_L ∅ (∪)).
    + apply (only_events_trans _ [] _ _ _ H1). apply only_events_log.
  - destruct (log_each_run (s30_dates_of rows)
                (fun d => "  * " ++ Date.isoformat d ++ " (S30)")
                (add_log [(INFO, pretty (length (s30_dates_of rows))
                                 ++ " S30 dates available for tile " ++ tile)] st1))
      as (sa & Hsa & Ha).
    assert (Hstep1 : exists st2,
      (if (0 <? length (s30_dates_of rows))%nat
       then log INFO (pretty (length (s30_dates_of rows)) ++ " S30 dates available for tile " ++ tile) ;;;
            for_each (s30_dates_of rows)
              (fun d _ => log INFO ("  * " ++ Date.isoformat d ++ " (S30)")) tt
       else ret tt) st1 = (Ret tt, st2) /\ only_events [] st1 st2).
    { destruct (0 <? length (s30_dates_of rows))%nat.
      - erewrite run_bind_ret by apply run_log. exists sa. split; [exact Hsa |].
        apply (only_events_trans [] [] _ _ _ (only_events_log _ st1) Ha).
      - exists st1. split; [reflexivity | apply only_events_refl]. }
    destruct Hstep1 as (st2 & Hrun2 & H2).
    rewrite (run_bind_ret _ _ _ _ _ Hrun2).
    destruct (log_each_run (l30_dates_of rows)
                (fun d => "  * " ++ Date.isoformat d ++ " (L30)")
                (add_log [(INFO, pretty (length (l30_dates_of rows))
                                 ++ " L30 dates available for tile " ++ tile)] st2))
      as (sb & Hsb & Hb).
    assert (Hstep2 : exists st3,
      (if (0 <? length (l30_dates_of rows))%nat
       then log INFO (pretty (length (l30_dates_of rows)) ++ " L30 dates available for tile " ++ tile) ;;;
            for_each (l30_dates_of rows)
              (fun d _ => log INFO ("  * " ++ Date.isoformat d ++ " (L30)")) tt
       else ret tt) st2 = (Ret tt, st3) /\ only_events [] st2 st3).
    { destruct (0 <? length (l30_dates_of rows))%nat.
      - erewrite run_bind_ret by apply run_log. exists sb. split; [exact Hsb |].
        apply (only_events_trans [] [] _ _ _ (only_events_log _ st2) Hb).
      - exists st2. split; [reflexivity | apply only_events_refl]. }
    destruct Hstep2 as (st3 & Hrun3 & H3).
    rewrite (run_bind_ret _ _ _ _ _ Hrun3).
    exists st3. split.
    + unfold ret. f_equal. f_equal. f_equal. symmetry. apply (assoc_L (∪)).
    + apply (only_events_trans _ [] _ _ _ H1).
      apply (only_events_trans [] [] _ _ _ H2 H3).
Qed.

Lemma index_tile_raise tile acc st e :
  listing W tile start_UTC end_UTC = Raise e ->
  exists st',
    index_tile W start_UTC end_UTC tile acc st = (Raise e, st')
    /\ only_events [EvListing tile start_UTC end_UTC] st st'.
Proof.
  intros Hl. destruct acc as [tsd S]. unfold index_tile.
  erewrite run_bind_ret by apply run_log.
  erewrite run_bind_raise.
  2:{ unfold HLS_listing. erewrite run_bind_ret by reflexivity.
      unfold lift_result. rewrite Hl. reflexivity. }
  eexists. split; [reflexivity |]. unfold only_events, new_events. simpl. auto.
Qed.

Lemma index_loop_ok tiles : forall acc st,
  Forall (fun t => exists rows, listing W t start_UTC end_UTC = Ret rows) tiles ->
  exists st',
    for_each tiles (index_tile W start_UTC end_UTC) acc st
    = (Ret (indexed W start_UTC end_UTC tiles acc), st')
    /\ only_events (map (fun t => EvListing t start_UTC end_UTC) tiles) st st'.
Proof.
  induction tiles as [| t tiles IH]; intros [tsd S] st Hall.
  - exists st. split; [reflexivity | apply only_events_refl].
  - inversion Hall as [| ? ? [rows Hrows] Hrest]; subst.
    destruct (index_tile_ok t tsd S st rows Hrows) as (st1 & Hrun1 & H1).
    simpl. erewrite run_bind_ret by exact Hrun1.
    destruct (IH (<[t := sensor_dict (s30_dates_of rows) (l30_dates_of rows)]> tsd,
                  S ∪ tile_dates rows) st1 Hrest) as (st2 & Hrun2 & H2).
    exists st2. split.
    + rewrite Hrun2. unfold indexed. simpl. unfold rows_of. rewrite Hrows. reflexivity.
    + apply (only_events_trans [_] _ _ _ _ H1 H2).
Qed.

Lemma index_loop_raise pre t post e : forall acc st,
  Forall (fun t' => exists rows, listing W t' start_UTC end_UTC = Ret rows) pre ->
  listing W t start_UTC end_UTC = Raise e ->
  exists st',
    for_each (pre ++ t :: post) (index_tile W start_UTC end_UTC) acc st = (Raise e, st')
    /\ only_events (map (fun t' => EvListing t' start_UTC end_UTC) (pre ++ [t])) st st'.
Proof.
  induction pre as [| p pre IH]; intros acc st Hall Hraise.
  - destruct (index_tile_raise t acc st e Hraise) as (st1 & Hrun1 & H1).
    exists st1. simpl. erewrite run_bind_raise by exact Hrun1. auto.
  - inversion Hall as [| ? ? [rows Hrows] Hrest]; subst. destruct acc as [tsd S].
    destruct (index_tile_ok p tsd S st rows Hrows) as (st1 & Hrun1 & H1).
    simpl. erewrite run_bind_ret by exact Hrun1.
    destruct (IH (<[p := sensor_dict (s30_dates_of rows) (l30_dates_of rows)]> tsd,
                  S ∪ tile_dates rows) st1 Hrest Hraise) as (st2 & Hrun2 & H2).
    exists st2. split; [exact Hrun2 |].
    apply (only_events_trans [_] _ _ _ _ H1 H2).
Qed.

End Indexer.

Lemma run_connect_ok W dd st :
  connect_error W dd = None ->
  connect W dd st = (Ret tt, add_events [EvConnect dd] st).
Proof. intros H. run_monad. rewrite H. reflexivity. Qed.

(** C2 (as the code has it). The indexing loop has no handler around the
    catalog query: when the listing raises for a tile, after the tiles
    before it were indexed, the exception leaves [generate_HLS_timeseries];
    the catalog has been queried for the tiles up to that one and for no
    tile after it, and nothing has been written. *)
Theorem listing_failure_propagates W a st bs pre t post start_UTC end_UTC st1 e :
  validate W a st = (Ret (bs, (pre ++ t :: post)%list, start_UTC, end_UTC), st1) ->
  connect_error W (download_directory a) = None ->
  Forall (fun t' => exists rows, listing W t' start_UTC end_UTC = Ret rows) pre ->
  listing W t start_UTC end_UTC = Raise e ->
  let run := generate_HLS_timeseries W a st in
  fst run = Raise e
  /\ new_events st1 (snd run)
       (EvConnect (download_directory a)
        :: map (fun t' => EvListing t' start_UTC end_UTC) (pre ++ [t]))
  /\ st_files (snd run) = st_files st1.
Proof.
  intros Hval Hconn Hpre Hraise run. subst run.
  unfold generate_HLS_timeseries.
  erewrite run_bind_ret by exact Hval. cbv beta iota.
  do 6 (erewrite run_bind_ret by apply run_log).
  erewrite run_bind_ret by (apply run_connect_ok; exact Hconn).
  erewrite run_bind_ret by apply run_log.
  match goal with
  | |- context [bind (index_tiles _ _ _ _) _ ?s] => set (st2 := s)
  end.
  destruct (index_loop_raise W start_UTC end_UTC pre t post e (∅, ∅) st2 Hpre Hraise)
    as (st3 & Hrun & Hev & Hfiles & _).
  erewrite run_bind_raise.
  2:{ unfold index_tiles. erewrite run_bind_raise by exact Hrun. reflexivity. }
  simpl. split; [reflexivity |]. split.
  - unfold new_events in *. rewrite Hev. subst st2. simpl.
    now rewrite <- app_assoc.
  - rewrite Hfiles. reflexivity.
Qed.

Lemma listing_failure_propagates_witness :
  fst (generate_HLS_timeseries flaky_world (demo_args "S30") empty_state)
  = Raise (Exn (OtherError "HTTPError") "503 Service Unavailable").
Proof.
  apply (listing_failure_propagates flaky_world (demo_args "S30") empty_state
           ["red"] [] "10SEG" ["11SKA"] (Some d20220801) (Some d20220805)
           empty_state).
  - vm_compute. reflexivity.
  - reflexivity.
  - constructor.
  - reflexivity.
Defined.

(** C2 as stated fails: with two tiles, the listing of the first raising
    and that of the second answering, the exception leaves the
    orchestrator and the second tile is never queried. *)
Lemma listing_failure_is_not_contained :
  (exists rows, listing flaky_world "11SKA" (Some d20220801) (Some d20220805) = Ret rows
                /\ rows <> [])
  /\ fst (generate_HLS_timeseries flaky_world (demo_args "S30") empty_state)
     = Raise (Exn (OtherError "HTTPError") "503 Service Unavailable")
  /\ st_trace (snd (generate_HLS_timeseries flaky_world (demo_args "S30") empty_state))
     = [EvConnect None; EvListing "10SEG" (Some d20220801) (Some d20220805)].
Proof.
  split; [| split].
  - eexists. split; [vm_compute; reflexivity | discriminate].
  - vm_compute. reflexivity.
  - vm_compute. reflexivity.
Qed.

(** *** The universe of dates *)

Lemma elem_of_py_sorted d l : d ∈ py_sorted l <-> d ∈ l.
Proof. unfold py_sorted. now rewrite merge_sort_Permutation. Qed.

Lemma elem_of_sorted_unique d l : d ∈ sorted_unique l <-> d ∈ l.
Proof. unfold sorted_unique. rewrite elem_of_py_sorted. apply elem_of_remove_dups. Qed.

Lemma strictly_sorted_of_NoDup l :
  StronglySorted Z.le l -> NoDup l -> StronglySorted Z.lt l.
Proof.
  induction 1 as [| x l Hs IH Hall]; intros Hnd; [constructor |].
  apply NoDup_cons in Hnd. destruct Hnd as [Hx Hnd].
  constructor; [now apply IH |].
  rewrite Forall_forall in *. intros y Hy.
  destruct (Z.eq_dec x y) as [-> | Hne].
  - exfalso. apply Hx. now apply list_elem_of_In.
  - specialize (Hall y Hy). lia.
Qed.

Lemma py_sorted_strictly l : NoDup l -> StronglySorted Z.lt (py_sorted l).
Proof.
  intros Hnd. apply strictly_sorted_of_NoDup.
  - apply StronglySorted_merge_sort; apply _.
  - unfold py_sorted. now rewrite merge_sort_Permutation.
Qed.

Lemma universe_sorted (S : gset Z) : StronglySorted Z.lt (py_sorted (elements S)).
Proof. apply py_sorted_strictly, NoDup_elements. Qed.

Lemma universe_to_set (S : gset Z) : list_to_set (py_sorted (elements S)) = S.
Proof.
  apply set_eq. intros d.
  rewrite elem_of_list_to_set, elem_of_py_sorted. apply elem_of_elements.
Qed.

Lemma elem_of_tile_dates d rows :
  d ∈ tile_dates rows
  <-> exists r, r ∈ rows /\ date_UTC r = d
                /\ (is_Some (row_sentinel r) \/ is_Some (row_landsat r)).
Proof.
  unfold tile_dates, s30_dates_of, l30_dates_of.
  rewrite elem_of_union, !elem_of_list_to_set, !elem_of_sorted_unique.
  rewrite !list_elem_of_In, !in_map_iff.
  split.
  - intros [(r & Hd & Hr) | (r & Hd & Hr)];
      apply list_elem_of_In, list_elem_of_filter in Hr; destruct Hr as [Hs Hr];
      exists r; auto.
  - intros (r & Hr & Hd & [Hs | Hs]); [left | right]; exists r;
      (split; [exact Hd |]); apply list_elem_of_In, list_elem_of_filter; auto.
Qed.

Lemma indexed_cons W s e t tiles acc :
  indexed W s e (t :: tiles) acc
  = indexed W s e tiles
      (<[t := sensor_dict (s30_dates_of (rows_of W s e t))
                (l30_dates_of (rows_of W s e t))]> (fst acc),
       snd acc ∪ tile_dates (rows_of W s e t)).
Proof. reflexivity. Qed.

Lemma elem_of_indexed W s e tiles : forall acc d,
  d ∈ snd (indexed W s e tiles acc)
  <-> d ∈ snd acc \/ exists t, t ∈ tiles /\ d ∈ tile_dates (rows_of W s e t).
Proof.
  induction tiles as [| t tiles IH]; intros acc d.
  - split; [auto |]. intros [H | (t & Ht & _)]; [exact H | inversion Ht].
  - rewrite indexed_cons, IH. simpl. rewrite elem_of_union.
    split.
    + intros [[H | H] | (t' & Ht' & H)]; [auto | |].
      * right. exists t. split; [apply list_elem_of_here | exact H].
      * right. exists t'. split; [now apply list_elem_of_further | exact H].
    + intros [H | (t' & Ht' & H)]; [auto |].
      apply elem_of_cons in Ht'. destruct Ht' as [-> | Ht']; [auto |].
      right. exists t'. auto.
Qed.

Lemma elem_of_catalog_listing catalog tile s e r :
  r ∈ catalog_listing catalog tile s e
  <-> (tile, r) ∈ catalog /\ in_range s e (date_UTC r) = true.
Proof.
  unfold catalog_listing. rewrite list_elem_of_In, in_map_iff. split.
  - intros ([t r'] & Hr & Hin). simpl in Hr. subst r'.
    apply filter_In in Hin. destruct Hin as [Hin Hb]. simpl in Hb.
    apply andb_true_iff in Hb. destruct Hb as [Ht Hrange].
    apply String.eqb_eq in Ht. subst t. split; [now apply list_elem_of_In | exact Hrange].
  - intros [Hin Hrange]. exists (tile, r). split; [reflexivity |].
    apply filter_In. split; [now apply list_elem_of_In |]. simpl.
    now rewrite String.eqb_refl, Hrange.
Qed.

Lemma in_range_adjacent a b c d :
  a <= b -> b + 1 <= c ->
  in_range (Some a) (Some c) d
  = in_range (Some a) (Some b) d || in_range (Some (b + 1)) (Some c) d.
Proof.
  intros Hab Hbc. unfold in_range.
  destruct (a <=? d) eqn:H1, (d <=? c) eqn:H2, (d <=? b) eqn:H3, (b + 1 <=? d) eqn:H4;
    simpl; try reflexivity; lia.
Qed.

Section DateUniverse.

Variable W : World.
Variable catalog : list (string * row).
Hypothesis Hlisting :
  forall tile s e, listing W tile s e = Ret (catalog_listing catalog tile s e).

Lemma index_tiles_universe tiles s e st :
  exists st',
    index_tiles W tiles s e st
    = (Ret (fst (indexed W s e tiles (∅, ∅)),
            py_sorted (elements (snd (indexed W s e tiles (∅, ∅))))), st').
Proof.
  assert (Hall : Forall (fun t => exists rows, listing W t s e = Ret rows) tiles).
  { apply Forall_forall. intros t _. eexists. apply Hlisting. }
  destruct (index_loop_ok W s e tiles (∅, ∅) st Hall) as (st1 & Hrun & _).
  unfold index_tiles. erewrite run_bind_ret by exact Hrun.
  erewrite run_bind_ret by apply run_log. eexists. reflexivity.
Qed.

Lemma elem_of_universe tiles s e d :
  d ∈ snd (indexed W s e tiles (∅, ∅))
  <-> exists t r, t ∈ tiles /\ (t, r) ∈ catalog /\ in_range s e (date_UTC r) = true
                  /\ date_UTC r = d
                  /\ (is_Some (row_sentinel r) \/ is_Some (row_landsat r)).
Proof.
  rewrite elem_of_indexed. simpl. split.
  - intros [H | (t & Ht & H)]; [now apply not_elem_of_empty in H |].
    apply elem_of_tile_dates in H. destruct H as (r & Hr & Hd & Hs).
    unfold rows_of in Hr. rewrite Hlisting in Hr.
    apply elem_of_catalog_listing in Hr. destruct Hr as [Hin Hrange].
    exists t, r. auto.
  - intros (t & r & Ht & Hin & Hrange & Hd & Hs). right. exists t. split; [exact Ht |].
    apply elem_of_tile_dates. exists r. split; [| auto].
    unfold rows_of. rewrite Hlisting. apply elem_of_catalog_listing. auto.
Qed.

(** C5. Over a fixed catalog, for adjacent ranges [a,b] and [b+1,c], the
    list of all dates that indexing [a,c] produces is the sorted union, as
    sets, of the lists that indexing [a,b] and indexing [b+1,c] produce;
    each of the three lists is strictly ascending, hence without
    duplicates. *)
Theorem date_universe_of_adjacent_ranges tiles a b c st1 st2 st3 :
  a <= b -> b + 1 <= c ->
  exists tsd1 u1 tsd2 u2 tsd3 u3,
    fst (index_tiles W tiles (Some a) (Some b) st1) = Ret (tsd1, u1)
    /\ fst (index_tiles W tiles (Some (b + 1)) (Some c) st2) = Ret (tsd2, u2)
    /\ fst (index_tiles W tiles (Some a) (Some c) st3) = Ret (tsd3, u3)
    /\ py_sorted (elements (list_to_set u1 ∪ list_to_set u2 : gset Z)) = u3
    /\ StronglySorted Z.lt u1 /\ StronglySorted Z.lt u2 /\ StronglySorted Z.lt u3.
Proof.
  intros Hab Hbc.
  destruct (index_tiles_universe tiles (Some a) (Some b) st1) as [s1 H1].
  destruct (index_tiles_universe tiles (Some (b + 1)) (Some c) st2) as [s2 H2].
  destruct (index_tiles_universe tiles (Some a) (Some c) st3) as [s3 H3].
  rewrite H1, H2, H3. simpl.
  do 6 eexists. split; [reflexivity |]. split; [reflexivity |]. split; [reflexivity |].
  split; [| repeat split; apply universe_sorted].
  rewrite !universe_to_set. f_equal. f_equal.
  apply set_eq. intros d. rewrite elem_of_union, !elem_of_universe. split.
  - intros [(t & r & Ht & Hin & Hr & Hd & Hs) | (t & r & Ht & Hin & Hr & Hd & Hs)];
      exists t, r; repeat split; auto;
      rewrite (in_range_adjacent a b c _ Hab Hbc), Hr;
      [reflexivity | apply orb_true_r].
  - intros (t & r & Ht & Hin & Hr & Hd & Hs).
    rewrite (in_range_adjacent a b c _ Hab Hbc) in Hr.
    apply orb_true_iff in Hr. destruct Hr as [Hr | Hr]; [left | right];
      exists t, r; auto.
Qed.

End DateUniverse.

Lemma date_universe_of_adjacent_ranges_witness :
  exists tsd1 u1 tsd2 u2 tsd3 u3,
    fst (index_tiles demo_world ["10SEG"; "11SKA"] (Some d20220801) (Some d20220803)
           empty_state) = Ret (tsd1, u1)
    /\ fst (index_tiles demo_world ["10SEG"; "11SKA"] (Some (d20220803 + 1))
              (Some d20220805) empty_state) = Ret (tsd2, u2)
    /\ fst (index_tiles demo_world ["10SEG"; "11SKA"] (Some d20220801) (Some d20220805)
              empty_state) = Ret (tsd3, u3)
    /\ py_sorted (elements (list_to_set u1 ∪ list_to_set u2 : gset Z)) = u3
    /\ StronglySorted Z.lt u1 /\ StronglySorted Z.lt u2 /\ StronglySorted Z.lt u3.
Proof.
  apply (date_universe_of_adjacent_ranges demo_world demo_catalog).
  - intros tile s e. reflexivity.
  - vm_compute. discriminate.
  - vm_compute. discriminate.
Defined.

(** ** C8: the [both] mode *)

Lemma append_cons_s x (a b : string) : String x a ++ b = String x (a ++ b).
Proof. reflexivity. Qed.

Lemma append_assoc_s (a b c : string) : (a ++ b) ++ c = a ++ (b ++ c).
Proof.
  induction a as [| x a IH]; [reflexivity |].
  rewrite !append_cons_s. f_equal. exact IH.
Qed.

Lemma append_inv_head (a b c : string) : a ++ b = a ++ c -> b = c.
Proof.
  induction a as [| x a IH]; intros H; [exact H |].
  rewrite !append_cons_s in H. inversion H. auto.
Qed.

Lemma append_nil_r_s (a : string) : a ++ "" = a.
Proof.
  induction a as [| x a IH]; [reflexivity |].
  rewrite append_cons_s. f_equal. exact IH.
Qed.

Lemma prefix_append (a b : string) : String.prefix a (a ++ b) = true.
Proof.
  induction a as [| x a IH]; [now destruct b |].
  rewrite append_cons_s. simpl.
  destruct (ascii_dec x x); [exact IH | contradiction].
Qed.

Lemma ends_with_sep_append (x : string) c y :
  Py.ends_with_sep (x ++ String c y) = Py.ends_with_sep (String c y).
Proof.
  induction x as [| a x IH]; [reflexivity |].
  rewrite append_cons_s.
  destruct x as [| a' x']; [reflexivity |].
  rewrite append_cons_s in *. exact IH.
Qed.

Lemma truthy_append (x : string) c y : Py.truthy (x ++ String c y) = true.
Proof. destruct x; reflexivity. Qed.

Lemma join_step_relative a b :
  Py.starts_with_sep b = false -> Py.join_step a b = with_sep a ++ b.
Proof.
  intros H. unfold Py.join_step, with_sep. rewrite H.
  destruct (negb (Py.truthy a) || Py.ends_with_sep a); [reflexivity |].
  now rewrite append_assoc_s.
Qed.

Lemma with_sep_prefix a : exists s, with_sep a = a ++ s.
Proof.
  unfold with_sep. destruct (negb (Py.truthy a) || Py.ends_with_sep a).
  - exists "". now rewrite append_nil_r_s.
  - exists "/". reflexivity.
Qed.

(** The directory of a sensor and a band that is no absolute path. *)
Lemma sensor_directory o sensor band :
  sensor = "S30" \/ sensor = "L30" ->
  Py.starts_with_sep band = false ->
  Py.join o [sensor; band] = with_sep o ++ sensor ++ "/" ++ band.
Proof.
  intros Hs Hb. unfold Py.join. simpl.
  rewrite (join_step_relative _ band Hb).
  rewrite join_step_relative by (destruct Hs as [-> | ->]; reflexivity).
  unfold with_sep at 1.
  destruct Hs as [-> | ->].
  - rewrite (ends_with_sep_append (with_sep o) "S" "30"), (truthy_append (with_sep o) "S" "30").
    simpl. now rewrite !append_assoc_s.
  - rewrite (ends_with_sep_append (with_sep o) "L" "30"), (truthy_append (with_sep o) "L" "30").
    simpl. now rewrite !append_assoc_s.
Qed.

Lemma sensor_file_relative sensor band name :
  sensor = "S30" \/ sensor = "L30" ->
  sensor_file sensor band name -> Py.starts_with_sep name = false.
Proof.
  intros Hs [(tile & d & ->) | (d & ->)]; destruct Hs as [-> | ->]; reflexivity.
Qed.

Lemma subtree_path o sensor band p :
  sensor = "S30" \/ sensor = "L30" ->
  Py.starts_with_sep band = false ->
  in_subtree (Some o) sensor band p ->
  exists rest, p = with_sep o ++ sensor ++ "/" ++ band ++ rest.
Proof.
  intros Hs Hb (o' & name & Ho & Hname & ->). inversion Ho; subst o'.
  change (Py.join (Py.join o [sensor; band]) [name])
    with (Py.join_step (Py.join o [sensor; band]) name).
  rewrite join_step_relative by (eapply sensor_file_relative; eassumption).
  rewrite sensor_directory by assumption.
  destruct (with_sep_prefix (with_sep o ++ sensor ++ "/" ++ band)) as [s ->].
  exists (s ++ name). now rewrite !append_assoc_s.
Qed.

Lemma subtrees_disjoint out band1 band2 p1 p2 :
  Py.starts_with_sep band1 = false -> Py.starts_with_sep band2 = false ->
  in_subtree out "S30" band1 p1 -> in_subtree out "L30" band2 p2 -> p1 <> p2.
Proof.
  intros Hb1 Hb2 H1 H2 Heq. subst p2.
  destruct H1 as (o & name & Ho & Hn & Hp). subst out.
  destruct (subtree_path o "S30" band1 p1 (or_introl eq_refl) Hb1) as [r1 Hr1].
  { exists o, name. auto. }
  destruct (subtree_path o "L30" band2 p1 (or_intror eq_refl) Hb2 H2) as [r2 Hr2].
  rewrite Hr1 in Hr2. apply append_inv_head in Hr2. discriminate Hr2.
Qed.

Lemma subtree_prefix o sensor band p :
  sensor = "S30" \/ sensor = "L30" ->
  Py.starts_with_sep band = false ->
  in_subtree (Some o) sensor band p ->
  Py.startswith (with_sep o ++ sensor ++ "/" ++ band) p = true.
Proof.
  intros Hs Hb H. destruct (subtree_path o sensor band p Hs Hb H) as [rest ->].
  unfold Py.startswith.
  replace (with_sep o ++ sensor ++ "/" ++ band ++ rest)
    with ((with_sep o ++ sensor ++ "/" ++ band) ++ rest)
    by now rewrite !append_assoc_s.
  apply prefix_append.
Qed.

Section BothMode.

Variable W : World.
Variable out : option string.
Variable bs : list string.

Lemma both_benign ev : benign ev -> both_event_ok W out bs ev.
Proof. destruct ev; simpl; intros H; try exact I; contradiction. Qed.

Lemma sensor_cases (sensor : string) :
  sensor ∈ ["S30"; "L30"] -> sensor = "S30" \/ sensor = "L30".
Proof.
  intros H. apply elem_of_cons in H. destruct H as [-> | H]; [auto |].
  apply elem_of_cons in H. destruct H as [-> | H]; [auto | inversion H].
Qed.

Lemma pick_dir_both o sensor band :
  sensor ∈ ["S30"; "L30"] ->
  pick_dir sensor (Py.join o ["S30"; band]) (Py.join o ["L30"; band])
  = Py.join o [sensor; band].
Proof. intros H. apply sensor_cases in H. destruct H as [-> | ->]; reflexivity. Qed.

Lemma pure_mosaic sensor images g :
  Forall (fun img => sensor_pure (accessor_of sensor) img = true) images ->
  sensor_pure (accessor_of sensor) (MosaicImage images g) = true.
Proof.
  intros H. simpl. apply forallb_forall. intros img Hin.
  rewrite Forall_forall in H. apply H. now apply list_elem_of_In.
Qed.

Lemma behaves_dispatch_both g tiles tsd d d_parsed band acc :
  band ∈ bs -> Forall (both_path_ok out bs) acc ->
  behaves (both_event_ok W out bs) (Forall (both_path_ok out bs))
    (dispatch_both W out g tiles tsd d d_parsed band acc).
Proof.
  intros Hband Hacc. unfold dispatch_both.
  eapply behaves_bind; [apply behaves_os_path_join |]. intros s30 (o & Ho & ->).
  eapply behaves_bind; [apply behaves_os_path_join |]. intros l30 (o' & Ho' & ->).
  assert (o' = o) by congruence. subst o'.
  assert (Hpath : forall sensor name,
            sensor ∈ ["S30"; "L30"] -> sensor_file sensor band name ->
            both_path_ok out bs (Py.join (Py.join o [sensor; band]) [name])).
  { intros sensor name Hs Hn. exists sensor, band. split; [exact Hs |].
    split; [exact Hband |]. exists o, name. auto. }
  assert (Hev : forall sensor name img,
            sensor ∈ ["S30"; "L30"] -> sensor_file sensor band name ->
            sensor_pure (accessor_of sensor) img = true ->
            both_event_ok W out bs
              (EvWrite (expanduser W (Py.join (Py.join o [sensor; band]) [name])) img)).
  { intros sensor name img Hs Hn Hp. simpl.
    exists sensor, band, (Py.join (Py.join o [sensor; band]) [name]).
    split; [exact Hs |]. split; [exact Hband |]. split; [| auto].
    exists o, name. auto. }
  destruct g as [geometry |].
  - apply behaves_for_each; [| exact Hacc]. intros sensor acc' Hs Hacc'.
    rewrite (pick_dir_both o sensor band Hs).
    apply behaves_sensor_mosaic; [apply both_benign | | | exact Hacc'].
    + intros images gr Himgs. apply Hev; [exact Hs | right; eauto |].
      now apply pure_mosaic.
    + apply Hpath; [exact Hs | right; eauto].
  - apply behaves_for_each; [| exact Hacc]. intros tile acc' _ Hacc'.
    apply behaves_for_each; [| exact Hacc']. intros sensor acc'' Hs Hacc''.
    rewrite (pick_dir_both o sensor band Hs).
    apply behaves_sensor_tile; [apply both_benign | | | exact Hacc''].
    + apply Hev; [exact Hs | left; eauto |]. simpl. now destruct (accessor_of sensor).
    + apply Hpath; [exact Hs | left; eauto].
Qed.

Lemma behaves_process_dates_both g tiles tsd all_dates :
  behaves (both_event_ok W out bs) (Forall (both_path_ok out bs))
    (process_dates W "both" out g bs tiles tsd all_dates).
Proof.
  unfold process_dates. apply behaves_for_each; [| constructor].
  intros d acc _ Hacc. apply behaves_for_each; [| exact Hacc].
  intros band acc' Hband Hacc'. unfold process_band. simpl.
  now apply behaves_dispatch_both.
Qed.

End BothMode.

(** C8. In a run with [source="both"], every file written and every path
    returned is a file of the extractor or of the mosaic builder of one
    sensor, S30 or L30, in the directory [join(output_directory, sensor,
    band)] of a requested band; the image written there holds data of that
    sensor's accessor only; the merged product is never fetched and never
    written.  For band names that are not absolute paths these directories
    are [{output_directory}/S30/{band}] and [{output_directory}/L30/{band}],
    and no path of the S30 subtree is a path of the L30 subtree. *)
Theorem both_mode_separates_the_sensors W a st :
  source a = "both" ->
  let out := effective_output a in
  let bs := normalize_bands (bands a) in
  let run := generate_HLS_timeseries W a st in
  (exists evs, new_events st (snd run) evs /\ Forall (both_event_ok W out bs) evs)
  /\ (forall paths, fst run = Ret paths -> Forall (both_path_ok out bs) paths)
  /\ (forall o sensor band p,
        out = Some o -> sensor = "S30" \/ sensor = "L30" ->
        Py.starts_with_sep band = false -> in_subtree out sensor band p ->
        Py.startswith (with_sep o ++ sensor ++ "/" ++ band) p = true)
  /\ (forall band1 band2 p1 p2,
        Py.starts_with_sep band1 = false -> Py.starts_with_sep band2 = false ->
        in_subtree out "S30" band1 p1 -> in_subtree out "L30" band2 p2 -> p1 <> p2).
Proof.
  intros Hsrc out bs run.
  assert (Hb : behaves (both_event_ok W out bs) (Forall (both_path_ok out bs))
                 (generate_HLS_timeseries W a)).
  { apply behaves_generate; [apply both_benign |].
    intros bs' ts tsd all_dates ->. rewrite Hsrc. apply behaves_process_dates_both. }
  destruct Hb as (r & lg & evs & D & F & Hrun & Hev & Hr).
  subst run. rewrite Hrun. simpl.
  split; [exists evs; split; [reflexivity | exact Hev] |].
  split; [intros paths ->; exact Hr |].
  split.
  - intros o sensor band p Ho Hs Hband Hin. rewrite Ho in Hin.
    now apply subtree_prefix.
  - intros band1 band2 p1 p2. apply subtrees_disjoint.
Qed.

Lemma both_mode_separates_the_sensors_witness :
  (forall paths,
     fst (generate_HLS_timeseries demo_world (demo_args "both") empty_state) = Ret paths ->
     Forall (both_path_ok (Some "out") ["red"]) paths)
  /\ fst (generate_HLS_timeseries demo_world (demo_args "both") empty_state)
     = Ret [ "out/S30/red/S30_red_10SEG_20220803.tif";
             "out/S30/red/S30_red_11SKA_20220803.tif";
             "out/L30/red/L30_red_11SKA_20220803.tif";
             "out/L30/red/L30_red_10SEG_20220804.tif" ].
Proof.
  split.
  - apply (both_mode_separates_the_sensors demo_world (demo_args "both") empty_state).
    reflexivity.
  - vm_compute. reflexivity.
Defined.

(** A band name that is an absolute path: [join] drops the output directory
    and the sensor, so the files of both sensors go to the directory of the
    band name itself and none lies under [out/S30] or [out/L30]. *)
Lemma both_mode_absolute_band_leaves_the_subtrees :
  fst (generate_HLS_timeseries demo_world
         (Args (Some (Str "/abs")) (Some (StrList ["10SEG"; "11SKA"])) None
               (Some (DateText "2022-08-01")) (Some (DateText "2022-08-05"))
               None (Some "out") "both") empty_state)
  = Ret [ "/abs/S30_/abs_10SEG_20220803.tif";
          "/abs/S30_/abs_11SKA_20220803.tif";
          "/abs/L30_/abs_11SKA_20220803.tif";
          "/abs/L30_/abs_10SEG_20220804.tif" ]
  /\ Py.startswith "out/S30/" "/abs/S30_/abs_10SEG_20220803.tif" = false
  /\ Py.startswith "out/L30/" "/abs/L30_/abs_11SKA_20220803.tif" = false
  /\ Py.join "out" ["S30"; "/abs"] = "/abs"
  /\ Py.join "out" ["L30"; "/abs"] = "/abs".
Proof. vm_compute. repeat split; reflexivity. Qed.

(** ** C6: the end-to-end scenario *)

Lemma filter_the_one (D : Z) (u : list Z) :
  NoDup u -> D ∈ u -> List.filter (Z.eqb D) u = [D].
Proof.
  induction 1 as [| x u Hx Hnd IH]; intros Hin; [inversion Hin |].
  simpl. destruct (Z.eqb_spec D x) as [<- | Hne].
  - f_equal. clear IH Hin. induction u as [| y u IHu]; [reflexivity |].
    apply not_elem_of_cons in Hx. destruct Hx as [Hy Hx]. simpl.
    destruct (Z.eqb_spec D y); [contradiction |].
    apply IHu; [exact Hx | now inversion Hnd].
  - apply elem_of_cons in Hin. destruct Hin as [-> | Hin]; [contradiction | auto].
Qed.

Section Scenario.

Variable W : World.
Variable out : string.
Variables (D : Z) (L : list Z).
Variables (band tile : string).

Let tsd : calendar := <[tile := sensor_dict [D] L]> ∅.
Let dir := Py.join out [band].
Let path := Py.join dir [tile_filename "S30" band tile D].

Hypothesis Hok :
  extraction_failure W (Granule sentinel tile D) band path = None.

Lemma scenario_available : available_dates tsd tile "S30" = [D].
Proof.
  unfold available_dates, tsd, sensor_dict. rewrite lookup_insert_eq.
  rewrite lookup_insert_ne by discriminate. now rewrite lookup_insert_eq.
Qed.

Lemma truthy_path : Py.truthy path = true.
Proof.
  unfold path.
  change (Py.join dir [tile_filename "S30" band tile D])
    with (Py.join_step dir (tile_filename "S30" band tile D)).
  rewrite join_step_relative by reflexivity.
  unfold tile_filename. apply (truthy_append (with_sep dir) "S").
Qed.

Lemma scenario_step d acc st :
  exists st',
    for_each [band] (process_band W "S30" (Some out) None [tile] tsd d d) acc st
    = (Ret (if Z.eqb D d then (acc ++ [path])%list else acc), st').
Proof.
  cbv [for_each process_band os_path_join dispatch_sensor sensor_tile bind ret].
  change ("S30" =? "both")%string with false.
  change ("S30" =? "HLS")%string with false.
  change ("S30" =? "S30")%string with true.
  cbv [negb]. cbv beta iota. rewrite scenario_available. unfold date_in.
  destruct (Z.eqb_spec D d) as [<- | Hne].
  - rewrite bool_decide_eq_true_2 by apply list_elem_of_here. cbv beta iota.
    destruct (process_sensor_band_path W "S30" D D band tile dir st) as [_ Hrun].
    specialize (Hrun Hok). destruct Hrun as [Hrun _].
    fold dir.
    destruct (process_sensor_band W "S30" D D band tile dir st) as [r st'] eqn:Hpsb.
    simpl in Hrun. subst r.
    exists st'. f_equal. f_equal.
    unfold append_if.
    change (Py.join_step dir (tile_filename "S30" band tile D)) with path.
    now rewrite truthy_path.
  - rewrite bool_decide_eq_false_2.
    2:{ intros Hin. apply elem_of_cons in Hin. destruct Hin as [-> | Hin];
          [contradiction | inversion Hin]. }
    cbv beta iota. exists st. reflexivity.
Qed.

Lemma scenario_dates u : forall acc st,
  exists st',
    for_each u
      (fun d acc =>
         for_each [band] (process_band W "S30" (Some out) None [tile] tsd d d) acc)
      acc st
    = (Ret (acc ++ map (fun _ => path) (List.filter (Z.eqb D) u))%list, st').
Proof.
  induction u as [| d u IH]; intros acc st.
  - exists st. simpl. now rewrite app_nil_r.
  - destruct (scenario_step d acc st) as (st1 & Hrun1).
    rewrite for_each_cons. erewrite run_bind_ret by exact Hrun1.
    destruct (IH (if Z.eqb D d then (acc ++ [path])%list else acc) st1) as (st2 & Hrun2).
    exists st2. rewrite Hrun2. simpl. destruct (Z.eqb D d); simpl;
      [rewrite <- app_assoc |]; reflexivity.
Qed.

End Scenario.

Lemma scenario_path out :
  Py.join (Py.join out ["red"]) [tile_filename "S30" "red" "10SEG" d20220803]
  = with_sep out ++ "red/S30_red_10SEG_20220803.tif".
Proof.
  change (Py.join (Py.join out ["red"]) [tile_filename "S30" "red" "10SEG" d20220803])
    with (Py.join_step (Py.join_step out "red") "S30_red_10SEG_20220803.tif").
  rewrite !join_step_relative by reflexivity.
  unfold with_sep at 1.
  rewrite (ends_with_sep_append (with_sep out) "r" "ed"), (truthy_append (with_sep out) "r" "ed").
  cbv [negb orb Py.ends_with_sep Py.is_sep Py.sep Ascii.eqb Bool.eqb].
  now rewrite !append_assoc_s.
Qed.

(** C6. A path returned by [process_sensor_band] is the output directory
    joined with [{sensor}_{band}_{tile}_{YYYYMMDD}.tif], and it is returned
    whenever no collaborator fails.  In the scenario of one tile 10SEG,
    band red, source S30, no geometry, dates 2022-08-01 to 2022-08-05, a
    catalog that lists S30 data for the tile on 2022-08-03 only (whatever it
    lists for L30) and an extraction that succeeds, the orchestrator
    returns exactly one path, [red/S30_red_10SEG_20220803.tif] under the
    output directory. *)
Theorem tile_output_path_and_scenario W :
  (forall sensor d d_parsed band tile out st p,
     fst (process_sensor_band W sensor d d_parsed band tile out st) = Ret (Some p) ->
     p = Py.join out [sensor ++ "_" ++ band ++ "_" ++ tile ++ "_"
                      ++ Date.strftime_Ymd d_parsed ++ ".tif"])
  /\ (forall sensor d d_parsed band tile out st,
        extraction_failure W (Granule (accessor_of sensor) tile d_parsed) band
          (Py.join out [tile_filename sensor band tile d_parsed]) = None ->
        fst (process_sensor_band W sensor d d_parsed band tile out st)
        = Ret (Some (Py.join out [tile_filename sensor band tile d_parsed])))
  /\ (forall dd out rows st,
        parse_date W "2022-08-01" = Ret d20220801 ->
        parse_date W "2022-08-05" = Ret d20220805 ->
        connect_error W dd = None ->
        listing W "10SEG" (Some d20220801) (Some d20220805) = Ret rows ->
        s30_dates_of rows = [d20220803] ->
        extraction_failure W (Granule sentinel "10SEG" d20220803) "red"
          (with_sep out ++ "red/S30_red_10SEG_20220803.tif") = None ->
        fst (generate_HLS_timeseries W
               (Args (Some (Str "red")) (Some (StrList ["10SEG"])) None
                     (Some (DateText "2022-08-01")) (Some (DateText "2022-08-05"))
                     dd (Some out) "S30") st)
        = Ret [with_sep out ++ "red/S30_red_10SEG_20220803.tif"]).
Proof.
  split; [| split].
  - intros sensor d d_parsed band tile out st.
    apply (process_sensor_band_path W sensor d d_parsed band tile out st).
  - intros sensor d d_parsed band tile out st H.
    now apply (process_sensor_band_path W sensor d d_parsed band tile out st).
  - intros dd out rows st Hp1 Hp2 Hconn Hrows Hs30 Hok.
    rewrite <- scenario_path in Hok |- *.
    unfold generate_HLS_timeseries.
    erewrite run_bind_ret.
    2:{ unfold validate. erewrite run_bind_ret by reflexivity.
        unfold normalize_date, start_date_UTC, end_date_UTC.
        erewrite run_bind_ret
          by (erewrite run_bind_ret by (unfold lift_result; rewrite Hp1; reflexivity);
              reflexivity).
        erewrite run_bind_ret
          by (erewrite run_bind_ret by (unfold lift_result; rewrite Hp2; reflexivity);
              reflexivity).
        reflexivity. }
    cbv beta iota.
    do 6 (erewrite run_bind_ret by apply run_log).
    erewrite run_bind_ret by (apply run_connect_ok; exact Hconn).
    erewrite run_bind_ret by apply run_log.
    match goal with
    | |- context [bind (index_tiles _ _ _ _) _ ?s] => set (st2 := s)
    end.
    assert (Hall : Forall (fun t => exists rows, listing W t (Some d20220801)
                                      (Some d20220805) = Ret rows) ["10SEG"]).
    { repeat constructor. eauto. }
    destruct (index_loop_ok W (Some d20220801) (Some d20220805) ["10SEG"] (∅, ∅) st2 Hall)
      as (st3 & Hidx & _).
    erewrite run_bind_ret.
    2:{ unfold index_tiles. erewrite run_bind_ret by exact Hidx.
        erewrite run_bind_ret by apply run_log. reflexivity. }
    unfold indexed, rows_of. simpl fold_left. rewrite Hrows, Hs30. simpl fst. simpl snd.
    set (u := py_sorted _).
    assert (Hnd : NoDup u).
    { subst u. unfold py_sorted. rewrite merge_sort_Permutation. apply NoDup_elements. }
    assert (Hin : d20220803 ∈ u).
    { subst u. rewrite elem_of_py_sorted, elem_of_elements. unfold tile_dates.
      rewrite Hs30. set_solver. }
    destruct (scenario_dates W out d20220803 (l30_dates_of rows) "red" "10SEG" Hok u []
                (add_log [(INFO, "Total unique dates across all tiles: "
                                 ++ pretty (length u))] st3))
      as (st4 & Hloop).
    unfold process_dates, source, effective_output, geom.
    rewrite Hloop. rewrite (filter_the_one _ _ Hnd Hin). reflexivity.
Qed.

Lemma tile_output_path_and_scenario_witness :
  fst (generate_HLS_timeseries demo_world
         (Args (Some (Str "red")) (Some (StrList ["10SEG"])) None
               (Some (DateText "2022-08-01")) (Some (DateText "2022-08-05"))
               None (Some "out") "S30") empty_state)
  = Ret ["out/red/S30_red_10SEG_20220803.tif"].
Proof.
  destruct (tile_output_path_and_scenario demo_world) as (_ & _ & H).
  apply (H None "out" (catalog_listing demo_catalog "10SEG" (Some d20220801)
                         (Some d20220805)) empty_state).
  - reflexivity.
  - reflexivity.
  - reflexivity.
  - reflexivity.
  - vm_compute. reflexivity.
  - vm_compute. reflexivity.
Defined.

(** * Further properties of the code *)

(** ** Computations that contain their failures *)

Lemma returns_ret {A} (a : A) : returns (ret a).
Proof. intros st. exists a, st. reflexivity. Qed.

Lemma returns_log l msg : returns (log l msg).
Proof. intros st. eexists _, _. reflexivity. Qed.

Lemma returns_bind {A B} (m : M A) (f : A -> M B) :
  returns m -> (forall a, returns (f a)) -> returns (bind m f).
Proof.
  intros Hm Hf st. destruct (Hm st) as (a & st1 & H1).
  destruct (Hf a st1) as (b & st2 & H2). exists b, st2.
  unfold bind. now rewrite H1.
Qed.

Lemma returns_try {A} (m : M A) (h : exn -> M A) :
  (forall e, returns (h e)) -> returns (try_except m h).
Proof.
  intros Hh st. unfold try_except. destruct (m st) as [[a | e] st1].
  - exists a, st1. reflexivity.
  - apply Hh.
Qed.

Lemma returns_for_each {A B} (l : list A) (body : A -> B -> M B) :
  (forall x acc, returns (body x acc)) -> forall acc, returns (for_each l body acc).
Proof.
  intros Hb. induction l as [| x l IH]; intros acc; simpl.
  - apply returns_ret.
  - apply returns_bind; [apply Hb | exact IH].
Qed.

Ltac returns_tac :=
  cbv beta iota;
  lazymatch goal with
  | |- returns (bind _ _) => apply returns_bind; [returns_tac | intros ?; returns_tac]
  | |- returns (try_except _ _) => apply returns_try; intros ?; returns_tac
  | |- returns (for_each _ _ _) => apply returns_for_each; intros ? ?; returns_tac
  | |- returns (ret _) => apply returns_ret
  | |- returns (log _ _) => apply returns_log
  | |- returns (match ?x with _ => _ end) => destruct x; returns_tac
  | |- returns ?m => let h := get_head m in unfold h; returns_tac
  end.

(** X1. [process_sensor_mosaic] never raises: a failure in collecting the
    images, in building the grid, in compositing, in creating the
    directory or in writing is logged and gives None. *)
Theorem process_sensor_mosaic_never_raises
    W sensor d d_parsed band tiles tsd geom out :
  returns (process_sensor_mosaic W sensor d d_parsed band tiles tsd geom out).
Proof. returns_tac. Qed.

(** X2. Once the availability is indexed and a directory is known, no
    exception leaves the loop over dates and bands, in any source mode and
    with or without a geometry: every failure of a granule, a band, a
    merged product, a grid, a mosaic, a directory or a write is contained
    in its unit of work. *)
Theorem units_of_work_never_raise W src out g bs tiles tsd all_dates :
  returns (process_dates W src (Some out) g bs tiles tsd all_dates).
Proof. returns_tac. Qed.

(** ** The indexer and what follows it *)

Lemma only_events_log_r evs st st1 lg :
  only_events evs st st1 -> only_events evs st (add_log lg st1).
Proof. unfold only_events, new_events. simpl. auto. Qed.

Lemma index_tiles_run W s e tiles st :
  listings_answer W s e tiles ->
  exists st',
    index_tiles W tiles s e st
    = (Ret (fst (indexed W s e tiles (∅, ∅)), universe W s e tiles), st')
    /\ only_events (listing_events s e tiles) st st'.
Proof.
  intros Hall.
  destruct (index_loop_ok W s e tiles (∅, ∅) st Hall) as (st1 & Hrun & Hev).
  unfold index_tiles. erewrite run_bind_ret by exact Hrun.
  erewrite run_bind_ret by apply run_log. eexists. split; [reflexivity |].
  apply only_events_log_r. exact Hev.
Qed.

(** The orchestrator up to the loop over the dates. *)
Lemma generate_after_index W a st bs ts s e st1 :
  validate W a st = (Ret (bs, ts, s, e), st1) ->
  connect_error W (download_directory a) = None ->
  listings_answer W s e ts ->
  exists st2,
    generate_HLS_timeseries W a st
    = process_dates W (source a) (effective_output a) (geom a) bs ts
        (fst (indexed W s e ts (∅, ∅))) (universe W s e ts) st2
    /\ only_events (EvConnect (download_directory a) :: listing_events s e ts) st1 st2.
Proof.
  intros Hval Hconn Hall. unfold generate_HLS_timeseries.
  erewrite run_bind_ret by exact Hval. cbv beta iota.
  do 6 (erewrite run_bind_ret by apply run_log).
  erewrite run_bind_ret by (apply run_connect_ok; exact Hconn).
  erewrite run_bind_ret by apply run_log.
  match goal with
  | |- context [bind (index_tiles _ _ _ _) _ ?s] => set (st2 := s)
  end.
  destruct (index_tiles_run W s e ts st2 Hall) as (st3 & Hidx & Hev).
  erewrite run_bind_ret by exact Hidx.
  exists st3. split; [reflexivity |].
  assert (H0 : only_events [EvConnect (download_directory a)] st1 st2).
  { subst st2. unfold only_events, new_events. simpl. auto. }
  apply (only_events_trans [_] _ _ _ _ H0 Hev).
Qed.

(** X3. When every listing answers, the indexer returns, having queried the
    catalog exactly once per tile, in the order of the tiles and with the
    given range, and having touched no file and no directory. *)
Theorem indexer_queries_each_tile_once W tiles start_UTC end_UTC st :
  listings_answer W start_UTC end_UTC tiles ->
  exists tsd all_dates,
    fst (index_tiles W tiles start_UTC end_UTC st) = Ret (tsd, all_dates)
    /\ new_events st (snd (index_tiles W tiles start_UTC end_UTC st))
         (map (fun t => EvListing t start_UTC end_UTC) tiles)
    /\ st_files (snd (index_tiles W tiles start_UTC end_UTC st)) = st_files st
    /\ st_dirs (snd (index_tiles W tiles start_UTC end_UTC st)) = st_dirs st.
Proof.
  intros Hall. destruct (index_tiles_run W start_UTC end_UTC tiles st Hall)
    as (st' & Hrun & Hev & Hf & Hd).
  rewrite Hrun. simpl. eauto 6.
Qed.

Lemma indexer_queries_each_tile_once_witness :
  st_trace (snd (index_tiles demo_world ["10SEG"; "11SKA"] (Some d20220801)
                   (Some d20220805) empty_state))
  = [ EvListing "10SEG" (Some d20220801) (Some d20220805);
      EvListing "11SKA" (Some d20220801) (Some d20220805) ].
Proof.
  destruct (indexer_queries_each_tile_once demo_world ["10SEG"; "11SKA"]
              (Some d20220801) (Some d20220805) empty_state)
    as (tsd & u & _ & Hev & _).
  - repeat constructor; eexists; reflexivity.
  - exact Hev.
Defined.

(** *** Looking the calendar up *)

Lemma sensor_dict_S30 s l : sensor_dict s l !! "S30" = Some s.
Proof.
  unfold sensor_dict. rewrite lookup_insert_ne by discriminate.
  apply lookup_insert_eq.
Qed.

Lemma sensor_dict_L30 s l : sensor_dict s l !! "L30" = Some l.
Proof. unfold sensor_dict. apply lookup_insert_eq. Qed.

Lemma sensor_dict_other s l sensor :
  sensor <> "S30" -> sensor <> "L30" -> sensor_dict s l !! sensor = None.
Proof.
  intros H1 H2. unfold sensor_dict.
  rewrite lookup_insert_ne by congruence. rewrite lookup_insert_ne by congruence.
  apply lookup_empty.
Qed.

Lemma indexed_lookup W s e tiles : forall acc tile,
  fst (indexed W s e tiles acc) !! tile
  = if bool_decide (tile ∈ tiles)
    then Some (sensor_dict (s30_dates_of (rows_of W s e tile))
                 (l30_dates_of (rows_of W s e tile)))
    else fst acc !! tile.
Proof.
  induction tiles as [| t tiles IH]; intros acc tile.
  - rewrite bool_decide_eq_false_2 by apply not_elem_of_nil. reflexivity.
  - rewrite indexed_cons, IH. simpl fst.
    destruct (decide (tile ∈ tiles)) as [Hin | Hout].
    + rewrite !bool_decide_eq_true_2; [reflexivity | | exact Hin].
      now apply list_elem_of_further.
    + rewrite (bool_decide_eq_false_2 _ Hout).
      destruct (decide (tile = t)) as [-> | Hne].
      * rewrite bool_decide_eq_true_2 by apply list_elem_of_here.
        apply lookup_insert_eq.
      * rewrite bool_decide_eq_false_2.
        -- now rewrite lookup_insert_ne by congruence.
        -- intros H. apply elem_of_cons in H. tauto.
Qed.

Lemma sorted_unique_strictly l : StronglySorted Z.lt (sorted_unique l).
Proof. apply py_sorted_strictly, NoDup_remove_dups. Qed.

Lemma elem_of_s30_dates d rows :
  d ∈ s30_dates_of rows
  <-> exists r, r ∈ rows /\ date_UTC r = d /\ is_Some (row_sentinel r).
Proof.
  unfold s30_dates_of. rewrite elem_of_sorted_unique, list_elem_of_In, in_map_iff.
  split.
  - intros (r & Hd & Hr). apply list_elem_of_In, list_elem_of_filter in Hr.
    destruct Hr as [Hs Hr]. eauto.
  - intros (r & Hr & Hd & Hs). exists r. split; [exact Hd |].
    apply list_elem_of_In, list_elem_of_filter. auto.
Qed.

Lemma elem_of_l30_dates d rows :
  d ∈ l30_dates_of rows
  <-> exists r, r ∈ rows /\ date_UTC r = d /\ is_Some (row_landsat r).
Proof.
  unfold l30_dates_of. rewrite elem_of_sorted_unique, list_elem_of_In, in_map_iff.
  split.
  - intros (r & Hd & Hr). apply list_elem_of_In, list_elem_of_filter in Hr.
    destruct Hr as [Hs Hr]. eauto.
  - intros (r & Hr & Hd & Hs). exists r. split; [exact Hd |].
    apply list_elem_of_In, list_elem_of_filter. auto.
Qed.

(** X4. The calendar the indexer returns, seen through
    [tile_sensor_dates.get(tile, {}).get(sensor, [])]: for a tile that was
    indexed, the S30 entry holds exactly the dates of the rows of its
    listing that carry the sentinel field and the L30 entry those that
    carry the landsat field, each strictly ascending; for any other tile,
    and for any other sensor name, the answer is the empty list. *)
Theorem calendar_holds_what_the_catalog_listed W tiles start_UTC end_UTC st tsd all_dates :
  listings_answer W start_UTC end_UTC tiles ->
  fst (index_tiles W tiles start_UTC end_UTC st) = Ret (tsd, all_dates) ->
  forall tile,
    (tile ∈ tiles ->
     forall rows, listing W tile start_UTC end_UTC = Ret rows ->
       (forall d, d ∈ available_dates tsd tile "S30"
                  <-> exists r, r ∈ rows /\ date_UTC r = d /\ is_Some (row_sentinel r))
       /\ (forall d, d ∈ available_dates tsd tile "L30"
                     <-> exists r, r ∈ rows /\ date_UTC r = d /\ is_Some (row_landsat r))
       /\ StronglySorted Z.lt (available_dates tsd tile "S30")
       /\ StronglySorted Z.lt (available_dates tsd tile "L30"))
    /\ (tile ∉ tiles -> forall sensor, available_dates tsd tile sensor = [])
    /\ (forall sensor, sensor <> "S30" -> sensor <> "L30" ->
        available_dates tsd tile sensor = []).
Proof.
  intros Hall Hrun tile.
  destruct (index_tiles_run W start_UTC end_UTC tiles st Hall) as (st' & Hidx & _).
  rewrite Hidx in Hrun. simpl in Hrun. injection Hrun as Htsd _. subst tsd.
  unfold available_dates. rewrite indexed_lookup. simpl fst.
  split; [| split].
  - intros Hin rows Hrows. rewrite (bool_decide_eq_true_2 _ Hin).
    rewrite sensor_dict_S30, sensor_dict_L30. unfold rows_of. rewrite Hrows.
    split; [intros d; apply elem_of_s30_dates |].
    split; [intros d; apply elem_of_l30_dates |].
    split; apply sorted_unique_strictly.
  - intros Hout sensor. rewrite (bool_decide_eq_false_2 _ Hout).
    now rewrite lookup_empty.
  - intros sensor H1 H2. case_bool_decide.
    + now rewrite sensor_dict_other.
    + now rewrite lookup_empty.
Qed.

Lemma calendar_holds_what_the_catalog_listed_witness :
  available_dates
    (fst (indexed demo_world (Some d20220801) (Some d20220805) ["10SEG"; "11SKA"] (∅, ∅)))
    "12ABC" "S30" = [].
Proof.
  destruct (calendar_holds_what_the_catalog_listed demo_world ["10SEG"; "11SKA"]
              (Some d20220801) (Some d20220805) empty_state
              (fst (indexed demo_world (Some d20220801) (Some d20220805)
                      ["10SEG"; "11SKA"] (∅, ∅)))
              (universe demo_world (Some d20220801) (Some d20220805) ["10SEG"; "11SKA"]))
    with (tile := "12ABC") as (_ & H & _).
  - repeat constructor; eexists; reflexivity.
  - vm_compute. reflexivity.
  - apply H. intros Hin. apply elem_of_cons in Hin. destruct Hin as [Hin | Hin];
      [discriminate |]. apply elem_of_cons in Hin. destruct Hin as [Hin | Hin];
      [discriminate | inversion Hin].
Defined.

Lemma no_granule_dates rows :
  no_granule rows -> s30_dates_of rows = [] /\ l30_dates_of rows = [].
Proof.
  intros H. unfold s30_dates_of, l30_dates_of.
  assert (H1 : filter (fun r => is_Some (row_sentinel r)) rows = []).
  { induction H as [| r rows [Hs _] _ IH]; [reflexivity |].
    rewrite filter_cons_False; [exact IH |]. rewrite Hs. intros [x Hx]. discriminate. }
  assert (H2 : filter (fun r => is_Some (row_landsat r)) rows = []).
  { clear H1. induction H as [| r rows [_ Hl] _ IH]; [reflexivity |].
    rewrite filter_cons_False; [exact IH |]. rewrite Hl. intros [x Hx]. discriminate. }
  rewrite H1, H2. split; reflexivity.
Qed.

(** X5. A tile whose listing holds no granule of either sensor is no error:
    the indexer logs one warning, records empty S30 and L30 lists for the
    tile, leaves the set of dates as it was and goes on. *)
Theorem tile_without_granules_is_recorded_empty
    W start_UTC end_UTC tile tsd all_dates st rows :
  listing W tile start_UTC end_UTC = Ret rows ->
  no_granule rows ->
  let run := index_tile W start_UTC end_UTC tile (tsd, all_dates) st in
  fst run = Ret (<[tile := sensor_dict [] []]> tsd, all_dates)
  /\ new_log st (snd run)
       [ (INFO, "Querying tile: " ++ tile);
         (WARNING, "no dates available for tile " ++ tile ++ " in the date range "
                   ++ str_date start_UTC ++ " to " ++ str_date end_UTC) ]
  /\ available_dates (<[tile := sensor_dict [] []]> tsd) tile "S30" = []
  /\ available_dates (<[tile := sensor_dict [] []]> tsd) tile "L30" = [].
Proof.
  intros Hl Hnone run. subst run.
  destruct (no_granule_dates rows Hnone) as [H30 HL30].
  unfold index_tile.
  erewrite run_bind_ret by apply run_log.
  erewrite run_bind_ret.
  2:{ unfold HLS_listing. erewrite run_bind_ret by reflexivity.
      unfold lift_result. rewrite Hl. reflexivity. }
  cbv zeta. rewrite H30, HL30. cbn [length Nat.eqb andb].
  erewrite run_bind_ret by apply run_log. simpl.
  split; [reflexivity |]. split.
  - unfold new_log. simpl. now rewrite <- app_assoc.
  - unfold available_dates. rewrite lookup_insert_eq.
    now rewrite sensor_dict_S30, sensor_dict_L30.
Qed.

Lemma tile_without_granules_is_recorded_empty_witness :
  fst (index_tile demo_world (Some d20220801) (Some d20220805) "12ABC" (∅, ∅)
         empty_state)
  = Ret (<["12ABC" := sensor_dict [] []]> ∅, ∅).
Proof.
  apply (tile_without_granules_is_recorded_empty demo_world (Some d20220801)
           (Some d20220805) "12ABC" ∅ ∅ empty_state []).
  - reflexivity.
  - constructor.
Defined.

Lemma universe_nil_iff W s e tiles :
  universe W s e tiles = [] <-> snd (indexed W s e tiles (∅, ∅)) = ∅.
Proof.
  unfold universe. split.
  - intros H. apply set_eq. intros d. split; [| intros Hd; now apply not_elem_of_empty in Hd].
    intros Hd. apply elem_of_elements, elem_of_py_sorted in Hd. rewrite H in Hd.
    inversion Hd.
  - intros ->. rewrite elements_empty. reflexivity.
Qed.

(** X6. When the catalog lists no granule for any tile in the range, the
    run is a valid empty run: it returns the empty list, and after the
    connection and one listing per tile it calls nothing else, neither a
    granule accessor nor the merged product, and writes no file. *)
Theorem empty_universe_is_an_empty_run W a st bs ts start_UTC end_UTC st1 :
  validate W a st = (Ret (bs, ts, start_UTC, end_UTC), st1) ->
  connect_error W (download_directory a) = None ->
  Forall (fun t => exists rows, listing W t start_UTC end_UTC = Ret rows
                                /\ no_granule rows) ts ->
  let run := generate_HLS_timeseries W a st in
  fst run = Ret []
  /\ new_events st1 (snd run)
       (EvConnect (download_directory a)
        :: map (fun t => EvListing t start_UTC end_UTC) ts)
  /\ st_files (snd run) = st_files st1.
Proof.
  intros Hval Hconn Hall run. subst run.
  assert (Hans : listings_answer W start_UTC end_UTC ts).
  { eapply Forall_impl; [exact Hall |]. intros t (rows & H & _). eauto. }
  destruct (generate_after_index W a st bs ts start_UTC end_UTC st1 Hval Hconn Hans)
    as (st2 & Hrun & Hev & Hf & _).
  rewrite Hrun.
  assert (Hu : universe W start_UTC end_UTC ts = []).
  { apply universe_nil_iff. apply set_eq. intros d.
    rewrite elem_of_indexed. simpl. split.
    - intros [H | (t & Ht & H)]; [exact H |].
      rewrite Forall_forall in Hall. destruct (Hall t Ht) as (rows & Hrows & Hnone).
      unfold rows_of in H. rewrite Hrows in H. unfold tile_dates in H.
      destruct (no_granule_dates rows Hnone) as [H30 HL30].
      rewrite H30, HL30 in H. simpl in H. rewrite (left_id_L ∅ (∪)) in H. exact H.
    - intros H. now apply not_elem_of_empty in H. }
  rewrite Hu. simpl. auto.
Qed.

Lemma empty_universe_is_an_empty_run_witness :
  fst (generate_HLS_timeseries demo_world
         (Args (Some (Str "red")) (Some (Str "12ABC")) None
               (Some (DateText "2022-08-01")) (Some (DateText "2022-08-05"))
               None (Some "out") "HLS") empty_state)
  = Ret [].
Proof.
  apply (empty_universe_is_an_empty_run demo_world _ empty_state ["red"] ["12ABC"]
           (Some d20220801) (Some d20220805) empty_state).
  - vm_compute. reflexivity.
  - reflexivity.
  - repeat constructor. exists []. split; [reflexivity | constructor].
Defined.

(** X7. Without an output directory and without a download directory the
    run fails as soon as there is a date and a band to process: [join]
    raises TypeError outside every handler, before any granule is
    resolved and before anything is written. *)
Theorem no_directory_raises_TypeError W a st b bs ts start_UTC end_UTC st1 :
  output_directory a = None -> download_directory a = None ->
  validate W a st = (Ret (b :: bs, ts, start_UTC, end_UTC), st1) ->
  connect_error W None = None ->
  listings_answer W start_UTC end_UTC ts ->
  universe W start_UTC end_UTC ts <> [] ->
  let run := generate_HLS_timeseries W a st in
  fst run = Raise no_directory_error
  /\ new_events st1 (snd run)
       (EvConnect None :: map (fun t => EvListing t start_UTC end_UTC) ts)
  /\ st_files (snd run) = st_files st1.
Proof.
  intros Hout Hdl Hval Hconn Hall Hne run. subst run.
  rewrite <- Hdl in Hconn.
  destruct (generate_after_index W a st (b :: bs) ts start_UTC end_UTC st1 Hval Hconn Hall)
    as (st2 & Hrun & Hev & Hf & _).
  rewrite Hrun. rewrite Hdl in Hev.
  unfold effective_output. rewrite Hout, Hdl.
  destruct (universe W start_UTC end_UTC ts) as [| d u]; [contradiction |].
  assert (Hfirst : process_dates W (source a) None (geom a) (b :: bs) ts
                     (fst (indexed W start_UTC end_UTC ts (∅, ∅))) (d :: u) st2
                   = (Raise no_directory_error, st2)).
  { unfold process_dates. rewrite for_each_cons.
    erewrite run_bind_raise; [reflexivity |].
    rewrite for_each_cons. erewrite run_bind_raise; [reflexivity |].
    unfold process_band. destruct (negb (source a =? "both")%string).
    - erewrite run_bind_raise; reflexivity.
    - unfold dispatch_both. erewrite run_bind_raise; reflexivity. }
  rewrite Hfirst. simpl. auto.
Qed.

Lemma no_directory_raises_TypeError_witness :
  fst (generate_HLS_timeseries demo_world
         (Args (Some (Str "red")) (Some (Str "10SEG")) None
               (Some (DateText "2022-08-01")) (Some (DateText "2022-08-05"))
               None None "both") empty_state)
  = Raise no_directory_error.
Proof.
  apply (no_directory_raises_TypeError demo_world _ empty_state "red" [] ["10SEG"]
           (Some d20220801) (Some d20220805) empty_state).
  - reflexivity.
  - reflexivity.
  - vm_compute. reflexivity.
  - reflexivity.
  - repeat constructor. eexists. reflexivity.
  - vm_compute. discriminate.
Defined.

(** ** Resolving the tiles *)

Ltac uni_ev :=
  cbv beta iota;
  cbn [bands tiles geom start_date_UTC end_date_UTC download_directory
       output_directory source];
  lazymatch goal with
  | |- behaves _ _ (bind _ _) =>
      eapply (behaves_bind _ (fun _ => True)); [uni_ev | intros ? _; uni_ev]
  | |- behaves _ _ (ret _) => apply behaves_ret; exact I
  | |- behaves _ _ (raise _) => apply behaves_raise
  | |- behaves _ _ (log _ _) => apply behaves_log; exact I
  | |- behaves _ _ (emit _) => apply behaves_emit; [reflexivity | exact I]
  | |- behaves _ _ (fail_if _) => apply behaves_fail_if; exact I
  | |- behaves _ _ (lift_result _) => apply behaves_lift; intros; exact I
  | |- behaves _ _ (makedirs _ true _) => apply behaves_makedirs; [reflexivity | exact I]
  | |- behaves _ _ (to_geotiff _ _ _) => apply behaves_to_geotiff; [reflexivity | exact I]
  | |- behaves _ _ (try_except _ _) => apply behaves_try; [uni_ev | intros ?; uni_ev]
  | |- behaves _ _ (try_except_only _ _ _) =>
      apply behaves_try_only; [uni_ev | intros ?; uni_ev]
  | |- behaves _ _ (for_each _ _ _) =>
      apply behaves_for_each; [intros ? ? _ _; uni_ev | exact I]
  | |- behaves _ _ (match ?x with _ => _ end) => destruct x; uni_ev
  | |- behaves _ _ ?m =>
      let h := get_head m in unfold h; uni_ev
  end.

Lemma behaves_events {A} (P : event -> Prop) (Q : A -> Prop) (m : M A) st :
  behaves P Q m ->
  (exists evs, new_events st (snd (m st)) evs /\ Forall P evs)
  /\ (forall a, fst (m st) = Ret a -> Q a).
Proof.
  intros (r & lg & evs & D & F & Hrun & HP & HQ). rewrite Hrun. simpl. split.
  - exists evs. split; [reflexivity | exact HP].
  - intros a ->. exact HQ.
Qed.

(** X8. When tiles are given, as one name or as a list, the tile lookup
    service is never called, whether or not a geometry is given: the
    geometry then only shapes the mosaics. *)
Theorem given_tiles_are_never_looked_up W a st :
  is_Some (tiles a) ->
  exists evs,
    new_events st (snd (generate_HLS_timeseries W a st)) evs
    /\ Forall (fun ev => is_lookup ev = false) evs.
Proof.
  intros [t Ht].
  apply (behaves_events (fun ev => is_lookup ev = false) (fun _ => True)).
  destruct a as [b ts g s e dd od src]. simpl in Ht. subst ts.
  uni_ev.
Qed.

Lemma given_tiles_are_never_looked_up_witness :
  exists evs,
    new_events empty_state
      (snd (generate_HLS_timeseries demo_world
              (Args (Some (Str "red")) (Some (Str "10SEG"))
                    (Some (GeomBBox (BBoxGiven "upper_kings")))
                    (Some (DateText "2022-08-01")) (Some (DateText "2022-08-05"))
                    None (Some "out") "both") empty_state)) evs
    /\ Forall (fun ev => is_lookup ev = false) evs.
Proof.
  apply given_tiles_are_never_looked_up. eexists. reflexivity.
Defined.

Lemma validate_run W a st :
  source a ∈ valid_sources ->
  date_failure W (start_date_UTC a) = None ->
  date_failure W (end_date_UTC a) = None ->
  validate W a st
  = match tiles a, geom a with
    | None, None =>
        (Raise (Exn ValueError "Either 'tiles' or 'geometry' must be provided."), st)
    | None, Some g =>
        match tiles_covering W (lookup_target_of g) with
        | Ret ts =>
            (Ret (normalize_bands (bands a), ts, date_value W (start_date_UTC a),
                  date_value W (end_date_UTC a)),
             add_events [EvTileLookup (lookup_target_of g)] st)
        | Raise e => (Raise e, add_events [EvTileLookup (lookup_target_of g)] st)
        end
    | Some (Str t), _ =>
        (Ret (normalize_bands (bands a), [t], date_value W (start_date_UTC a),
              date_value W (end_date_UTC a)), st)
    | Some (StrList ts), _ =>
        (Ret (normalize_bands (bands a), ts, date_value W (start_date_UTC a),
              date_value W (end_date_UTC a)), st)
    end.
Proof.
  intros Hsrc Hs He. unfold validate.
  erewrite run_bind_ret by (rewrite (bool_decide_eq_true_2 _ Hsrc); reflexivity).
  erewrite run_bind_ret by (rewrite normalize_date_run, Hs; reflexivity).
  erewrite run_bind_ret by (rewrite normalize_date_run, He; reflexivity).
  destruct (tiles a) as [[t | ts] |], (geom a) as [[b | r] |]; reflexivity.
Qed.

(** X9. Without tiles, the geometry is resolved before anything else: the
    lookup is asked once, for the polygon of a bounding box in latitude and
    longitude or for the boundary of a raster geometry.  When it raises,
    the exception leaves the orchestrator with nothing logged, no
    connection opened and no catalog query made; when it answers, the run
    goes on exactly as the run that is given the answered tiles. *)
Theorem geometry_is_resolved_to_tiles_first W a st g :
  tiles a = None -> geom a = Some g ->
  source a ∈ valid_sources ->
  date_failure W (start_date_UTC a) = None ->
  date_failure W (end_date_UTC a) = None ->
  let asked := add_events [EvTileLookup (lookup_target_of g)] st in
  match tiles_covering W (lookup_target_of g) with
  | Raise e => generate_HLS_timeseries W a st = (Raise e, asked)
  | Ret ts =>
      generate_HLS_timeseries W a st = generate_HLS_timeseries W (with_tiles a ts) asked
  end.
Proof.
  intros Ht Hg Hsrc Hs He asked.
  pose proof (validate_run W a st Hsrc Hs He) as Hv. rewrite Ht, Hg in Hv.
  destruct (tiles_covering W (lookup_target_of g)) as [ts | e].
  - pose proof (validate_run W (with_tiles a ts) asked Hsrc Hs He) as Hv'.
    simpl in Hv'.
    unfold generate_HLS_timeseries.
    erewrite run_bind_ret by exact Hv.
    erewrite (run_bind_ret (validate W (with_tiles a ts))) by exact Hv'.
    reflexivity.
  - unfold generate_HLS_timeseries. erewrite run_bind_raise by exact Hv. reflexivity.
Qed.

Lemma geometry_is_resolved_to_tiles_first_witness :
  generate_HLS_timeseries demo_world
    (Args (Some (Str "red")) None (Some (GeomRaster (GridGiven "upper_kings_60m")))
          (Some (DateText "2022-08-01")) (Some (DateText "2022-08-05"))
          None (Some "out") "both") empty_state
  = generate_HLS_timeseries demo_world
      (Args (Some (Str "red")) (Some (StrList ["10SEG"; "11SKA"]))
            (Some (GeomRaster (GridGiven "upper_kings_60m")))
            (Some (DateText "2022-08-01")) (Some (DateText "2022-08-05"))
            None (Some "out") "both")
      (add_events [EvTileLookup (BoundaryLatLon (GridGiven "upper_kings_60m"))]
         empty_state).
Proof.
  apply (geometry_is_resolved_to_tiles_first demo_world
           (Args (Some (Str "red")) None (Some (GeomRaster (GridGiven "upper_kings_60m")))
                 (Some (DateText "2022-08-01")) (Some (DateText "2022-08-05"))
                 None (Some "out") "both") empty_state
           (GeomRaster (GridGiven "upper_kings_60m"))).
  - reflexivity.
  - reflexivity.
  - unfold valid_sources. simpl. repeat constructor.
  - reflexivity.
  - reflexivity.
Defined.

(** ** What each mode calls and writes *)

Ltac uni_with tac :=
  cbv beta iota;
  lazymatch goal with
  | |- behaves _ _ (bind _ _) =>
      eapply (behaves_bind _ (fun _ => True)); [uni_with tac | intros ? _; uni_with tac]
  | |- behaves _ _ (ret _) => apply behaves_ret; first [exact I | reflexivity | tac]
  | |- behaves _ _ (raise _) => apply behaves_raise
  | |- behaves _ _ (log _ _) => apply behaves_log; exact I
  | |- behaves _ _ (emit _) => apply behaves_emit; [tac | exact I]
  | |- behaves _ _ (fail_if _) => apply behaves_fail_if; exact I
  | |- behaves _ _ (lift_result _) => apply behaves_lift; intros; exact I
  | |- behaves _ _ (makedirs _ true _) => apply behaves_makedirs; [tac | exact I]
  | |- behaves _ _ (try_except _ _) =>
      apply behaves_try; [uni_with tac | intros ?; uni_with tac]
  | |- behaves _ _ (try_except_only _ _ _) =>
      apply behaves_try_only; [uni_with tac | intros ?; uni_with tac]
  | |- behaves _ _ (for_each _ _ _) =>
      apply behaves_for_each; [intros ? ? _ _; uni_with tac | exact I]
  | |- behaves _ _ (match ?x with _ => _ end) => destruct x; uni_with tac
  | |- behaves _ _ ?m =>
      let h := get_head m in unfold h; uni_with tac
  end.

Section Shapes.

Variable W : World.
Variable P : event -> Prop.
Hypothesis Hmk : forall directory, P (EvMakedirs directory).

Lemma shape_ensure_directory filename :
  behaves P (fun _ => True) (ensure_directory W filename).
Proof. uni_with ltac:(apply Hmk). Qed.

Lemma shape_persist {A} (Q : A -> Prop) (v : A) img filename :
  P (EvWrite (expanduser W filename) img) -> Q v ->
  behaves P Q
    (ensure_directory W filename ;;;
     log INFO ("writing image to " ++ filename) ;;;
     to_geotiff W img (expanduser W filename) ;;;
     ret v).
Proof.
  intros Hw Hv.
  eapply behaves_bind; [apply shape_ensure_directory |]. intros _ _.
  eapply behaves_bind; [btrue |]. intros _ _.
  eapply behaves_bind; [apply (behaves_to_geotiff _ _ (fun _ => True)); [exact Hw | exact I] |].
  intros _ _. now apply behaves_ret.
Qed.

Lemma shape_granule a tile d :
  P (EvGranule (Granule a tile d)) ->
  behaves P (fun g => g = Granule a tile d) (HLS_granule W a tile d).
Proof.
  intros Hg. unfold HLS_granule.
  eapply behaves_bind; [apply (behaves_emit _ (fun _ => True)); [exact Hg | exact I] |].
  intros _ _. eapply behaves_bind; [btrue |]. intros _ _. now apply behaves_ret.
Qed.

Lemma shape_product g band :
  P (EvBand g band) ->
  behaves P (fun img => img = BandImage g band) (granule_product W g band).
Proof.
  intros Hb. unfold granule_product.
  eapply behaves_bind; [apply (behaves_emit _ (fun _ => True)); [exact Hb | exact I] |].
  intros _ _. eapply behaves_bind; [btrue |]. intros _ _. now apply behaves_ret.
Qed.

Lemma shape_band_unit sensor d d_parsed band tile dir :
  let g := Granule (accessor_of sensor) tile d_parsed in
  let filename := Py.join dir [tile_filename sensor band tile d_parsed] in
  P (EvGranule g) -> P (EvBand g band) ->
  P (EvWrite (expanduser W filename) (BandImage g band)) ->
  behaves P (fun r => forall p, r = Some p -> p = filename)
    (process_sensor_band W sensor d d_parsed band tile dir).
Proof.
  intros g filename Hg Hb Hw. unfold process_sensor_band.
  eapply behaves_bind; [btrue |]. intros _ _.
  apply behaves_try.
  - eapply behaves_bind; [apply shape_granule; exact Hg |]. intros g' ->.
    eapply behaves_bind
      with (Q1 := fun r => forall img, r = Some img -> img = BandImage g band).
    + apply behaves_try_only.
      * eapply behaves_bind; [apply shape_product; exact Hb |]. intros img ->.
        apply behaves_ret. intros img' H. now inversion H.
      * intros e. eapply behaves_bind; [btrue |]. intros _ _.
        apply behaves_ret. intros img' H. discriminate.
    + intros [img |] Himg.
      * rewrite (Himg img eq_refl). apply shape_persist; [exact Hw |].
        intros p H. now inversion H.
      * apply behaves_ret. intros p H. discriminate.
  - intros e. eapply behaves_bind; [btrue |]. intros _ _.
    apply behaves_ret. intros p H. discriminate.
Qed.

Lemma shape_collect sensor d d_parsed band tiles tsd :
  (forall tile, P (EvGranule (Granule (accessor_of sensor) tile d_parsed))
                /\ P (EvBand (Granule (accessor_of sensor) tile d_parsed) band)) ->
  behaves P (Forall (band_image_of sensor band d_parsed))
    (collect_images W sensor d d_parsed band tiles tsd).
Proof.
  intros Hev. unfold collect_images. apply behaves_for_each; [| constructor].
  intros tile images _ Himgs. unfold collect_tile.
  destruct (negb _); [now apply behaves_ret |].
  eapply behaves_bind; [btrue |]. intros _ _.
  apply behaves_try.
  - eapply behaves_bind; [apply shape_granule, Hev |]. intros g ->.
    apply behaves_try_only.
    + eapply behaves_bind; [apply shape_product, Hev |]. intros img ->.
      apply behaves_ret. apply Forall_app. split; [exact Himgs |].
      repeat constructor. exists tile. reflexivity.
    + intros e. eapply behaves_bind; [btrue |]. intros _ _. now apply behaves_ret.
  - intros e. eapply behaves_bind; [btrue |]. intros _ _. now apply behaves_ret.
Qed.

Lemma shape_write_mosaic geom first images filename :
  P (EvWrite (expanduser W filename) (MosaicImage images (expected_grid W geom first))) ->
  behaves P (fun f => f = filename) (write_mosaic W geom first images filename).
Proof.
  intros Hw. unfold write_mosaic.
  eapply behaves_bind with (Q1 := fun g => g = expected_grid W geom first).
  { unfold mosaic_grid. destruct geom as [b | r]; [| now apply behaves_ret].
    unfold bbox_to_crs, RasterGrid_from_bbox.
    eapply behaves_bind with (Q1 := fun b' => b' = BBoxToCrs b (image_crs W first)).
    - eapply behaves_bind; [btrue |]. intros _ _. now apply behaves_ret.
    - intros b' ->. eapply behaves_bind; [btrue |]. intros _ _. now apply behaves_ret. }
  intros g ->. unfold rt_mosaic.
  eapply behaves_bind
    with (Q1 := fun img => img = MosaicImage images (expected_grid W geom first)).
  { eapply behaves_bind; [btrue |]. intros _ _. now apply behaves_ret. }
  intros img ->. apply shape_persist; [exact Hw | reflexivity].
Qed.

Lemma shape_mosaic_unit sensor d d_parsed band tiles tsd geom dir :
  let filename := Py.join dir [mosaic_filename sensor band d_parsed] in
  (forall tile, P (EvGranule (Granule (accessor_of sensor) tile d_parsed))
                /\ P (EvBand (Granule (accessor_of sensor) tile d_parsed) band)) ->
  (forall first rest,
     Forall (band_image_of sensor band d_parsed) (first :: rest) ->
     P (EvWrite (expanduser W filename)
          (MosaicImage (first :: rest) (expected_grid W geom first)))) ->
  behaves P (fun r => forall p, r = Some p -> p = filename)
    (process_sensor_mosaic W sensor d d_parsed band tiles tsd geom dir).
Proof.
  intros filename Hev Hw. unfold process_sensor_mosaic.
  eapply behaves_bind; [apply shape_collect, Hev |]. intros images Himgs.
  destruct images as [| first rest].
  - eapply behaves_bind; [btrue |]. intros _ _. apply behaves_ret. discriminate.
  - apply behaves_try.
    + eapply behaves_bind; [apply shape_write_mosaic, Hw, Himgs |].
      intros f ->. apply behaves_ret. intros p H. now inversion H.
    + intros e. eapply behaves_bind; [btrue |]. intros _ _.
      apply behaves_ret. discriminate.
Qed.

Lemma shape_sensor_tile (Qp : string -> Prop) sensor tsd d d_parsed band dir tile acc :
  let g := Granule (accessor_of sensor) tile d_parsed in
  let filename := Py.join dir [tile_filename sensor band tile d_parsed] in
  P (EvGranule g) -> P (EvBand g band) ->
  P (EvWrite (expanduser W filename) (BandImage g band)) ->
  Qp filename -> Forall Qp acc ->
  behaves P (Forall Qp) (sensor_tile W sensor tsd d d_parsed band dir tile acc).
Proof.
  intros g filename Hg Hb Hw Hq Hacc. unfold sensor_tile.
  destruct (negb _); [now apply behaves_ret |].
  eapply behaves_bind; [apply shape_band_unit; [exact Hg | exact Hb | exact Hw] |].
  intros r Hr. apply behaves_ret. apply append_if_keeps; [| exact Hacc].
  intros p Hp. now rewrite (Hr p Hp).
Qed.

Lemma shape_sensor_mosaic (Qp : string -> Prop) sensor geom tiles tsd d d_parsed band
    dir acc :
  let filename := Py.join dir [mosaic_filename sensor band d_parsed] in
  (forall tile, P (EvGranule (Granule (accessor_of sensor) tile d_parsed))
                /\ P (EvBand (Granule (accessor_of sensor) tile d_parsed) band)) ->
  (forall first rest,
     Forall (band_image_of sensor band d_parsed) (first :: rest) ->
     P (EvWrite (expanduser W filename)
          (MosaicImage (first :: rest) (expected_grid W geom first)))) ->
  Qp filename -> Forall Qp acc ->
  behaves P (Forall Qp)
    (sensor_mosaic W sensor geom tiles tsd d d_parsed band dir acc).
Proof.
  intros filename Hev Hw Hq Hacc. unfold sensor_mosaic.
  eapply behaves_bind; [apply shape_mosaic_unit; [exact Hev | exact Hw] |].
  intros r Hr. apply behaves_ret. apply append_if_keeps; [| exact Hacc].
  intros p Hp. now rewrite (Hr p Hp).
Qed.

(** The merged mode for one date and band. *)
Lemma shape_dispatch_HLS (Qp : string -> Prop) g tiles tsd d d_parsed band dir acc :
  (forall tile, P (EvCombined band d_parsed tile)) ->
  (g = None -> forall tile,
     P (EvWrite (expanduser W (Py.join dir [tile_filename "HLS" band tile d_parsed]))
          (CombinedImage band d_parsed tile))
     /\ Qp (Py.join dir [tile_filename "HLS" band tile d_parsed])) ->
  (forall geometry, g = Some geometry ->
     Qp (Py.join dir [mosaic_filename "HLS" band d_parsed])
     /\ forall first rest,
          Forall (combined_image_of band d_parsed) (first :: rest) ->
          P (EvWrite (expanduser W (Py.join dir [mosaic_filename "HLS" band d_parsed]))
               (MosaicImage (first :: rest) (expected_grid W geometry first)))) ->
  Forall Qp acc ->
  behaves P (Forall Qp) (dispatch_HLS W g tiles tsd d d_parsed band dir acc).
Proof.
  intros Hc Hnone Hsome Hacc. unfold dispatch_HLS.
  eapply behaves_bind
    with (Q1 := fun acc' => Forall (combined_image_of band d_parsed) (fst acc')
                            /\ Forall Qp (snd acc')).
  { apply behaves_for_each; [| split; [constructor | exact Hacc]].
    intros tile [images paths] _ [Himgs Hpaths]. unfold HLS_tile.
    destruct (negb _); [apply behaves_ret; auto |].
    eapply behaves_bind; [btrue |]. intros _ _.
    apply behaves_try.
    - eapply behaves_bind with (Q1 := fun img => img = CombinedImage band d_parsed tile).
      { unfold HLS_product.
        eapply behaves_bind;
          [apply (behaves_emit _ (fun _ => True)); [apply Hc | exact I] |].
        intros _ _. eapply behaves_bind; [btrue |]. intros _ _. now apply behaves_ret. }
      intros img ->. destruct g as [geometry |].
      + apply behaves_ret. simpl. split; [| exact Hpaths].
        apply Forall_app. split; [exact Himgs |]. repeat constructor. now exists tile.
      + destruct (Hnone eq_refl tile) as [Hw Hq].
        apply shape_persist; [exact Hw |]. simpl. split; [exact Himgs |].
        apply Forall_app. split; [exact Hpaths | repeat constructor; exact Hq].
    - intros e. eapply behaves_bind; [btrue |]. intros _ _. apply behaves_ret. auto. }
  intros [images paths] [Himgs Hpaths]. simpl in Himgs, Hpaths.
  destruct g as [geometry |]; [| now apply behaves_ret].
  destruct images as [| first rest]; [now apply behaves_ret |].
  destruct (Hsome geometry eq_refl) as [Hq Hw].
  apply behaves_try.
  - eapply behaves_bind; [apply shape_write_mosaic, Hw, Himgs |].
    intros f ->. apply behaves_ret. apply Forall_app. split; [exact Hpaths |].
    repeat constructor. exact Hq.
  - intros e. eapply behaves_bind; [btrue |]. intros _ _. now apply behaves_ret.
Qed.

Hypothesis Hlookup : forall t, P (EvTileLookup t).
Hypothesis Hconnect : forall dd, P (EvConnect dd).
Hypothesis Hlisting : forall t s e, P (EvListing t s e).

Lemma shape_validate a :
  behaves P (fun v => fst (fst (fst v)) = normalize_bands (bands a)) (validate W a).
Proof. uni_with ltac:(first [apply Hlookup | apply Hconnect | apply Hlisting]). Qed.

Lemma shape_generate (Qp : string -> Prop) a :
  (forall ts tsd all_dates,
     behaves P (Forall Qp)
       (process_dates W (source a) (effective_output a) (geom a)
          (normalize_bands (bands a)) ts tsd all_dates)) ->
  behaves P (Forall Qp) (generate_HLS_timeseries W a).
Proof.
  intros Hloop. unfold generate_HLS_timeseries.
  eapply behaves_bind; [apply shape_validate |].
  intros [[[bs ts] start_UTC] end_UTC] Hb. simpl in Hb. subst bs.
  do 6 (eapply behaves_bind; [btrue |]; intros _ _).
  eapply (behaves_bind _ (fun _ => True)).
  { uni_with ltac:(apply Hconnect). }
  intros _ _.
  eapply behaves_bind; [btrue |]. intros _ _.
  eapply (behaves_bind _ (fun _ => True)).
  { uni_with ltac:(apply Hlisting). }
  intros idx _. apply Hloop.
Qed.

End Shapes.

Section GeometryShape.

Variable W : World.

Lemma geometry_tile_unit sensor tsd d d_parsed band dir tile acc :
  behaves (geometry_event_ok W None) (Forall (fun _ : string => True))
    (sensor_tile W sensor tsd d d_parsed band dir tile acc).
Proof.
  apply shape_sensor_tile; try exact I.
  - intros directory. exact I.
  - apply Forall_forall. auto.
Qed.

Lemma geometry_mosaic_unit sensor geometry tiles tsd d d_parsed band dir acc :
  behaves (geometry_event_ok W (Some geometry)) (Forall (fun _ : string => True))
    (sensor_mosaic W sensor geometry tiles tsd d d_parsed band dir acc).
Proof.
  apply shape_sensor_mosaic; try exact I.
  - intros directory. exact I.
  - intros tile. split; exact I.
  - intros first rest _. simpl. eauto.
  - apply Forall_forall. auto.
Qed.

Lemma geometry_process_band g src out tiles tsd d d_parsed band acc :
  behaves (geometry_event_ok W g) (Forall (fun _ : string => True))
    (process_band W src out g tiles tsd d d_parsed band acc).
Proof.
  assert (Hacc : forall l : list string, Forall (fun _ => True) l).
  { intros l. apply Forall_forall. auto. }
  unfold process_band. destruct (negb (src =? "both")%string).
  - eapply behaves_bind; [apply behaves_os_path_join |]. intros dir _.
    destruct (src =? "HLS")%string.
    { apply shape_dispatch_HLS; try apply Hacc.
      - intros directory. exact I.
      - intros tile. exact I.
      - intros Hg tile. rewrite Hg. split; exact I.
      - intros geometry Hg. split; [exact I |]. intros first rest _.
        rewrite Hg. simpl. eauto. }
    destruct (src =? "S30")%string; [| destruct (src =? "L30")%string].
    + unfold dispatch_sensor. destruct g as [geometry |].
      * apply geometry_mosaic_unit.
      * apply behaves_for_each; [| apply Hacc]. intros tile acc' _ _.
        apply geometry_tile_unit.
    + unfold dispatch_sensor. destruct g as [geometry |].
      * apply geometry_mosaic_unit.
      * apply behaves_for_each; [| apply Hacc]. intros tile acc' _ _.
        apply geometry_tile_unit.
    + apply behaves_ret. apply Hacc.
  - unfold dispatch_both.
    eapply behaves_bind; [apply behaves_os_path_join |]. intros s30 _.
    eapply behaves_bind; [apply behaves_os_path_join |]. intros l30 _.
    destruct g as [geometry |].
    + apply behaves_for_each; [| apply Hacc]. intros sensor acc' _ _.
      apply geometry_mosaic_unit.
    + apply behaves_for_each; [| apply Hacc]. intros tile acc' _ _.
      apply behaves_for_each; [| apply Hacc]. intros sensor acc'' _ _.
      apply geometry_tile_unit.
Qed.

End GeometryShape.

(** X10. In every source mode the geometry alone decides between tiles and
    mosaics.  Without a geometry no mosaic is ever written.  With a geometry
    every file written is a mosaic, never the image of a single tile, and
    its grid is the working grid of its first image: for a raster geometry
    the given grid itself, the same for every file of the run. *)
Theorem geometry_decides_between_tiles_and_mosaics W a st :
  (exists evs,
     new_events st (snd (generate_HLS_timeseries W a st)) evs
     /\ Forall (geometry_event_ok W (geom a)) evs)
  /\ (forall r first, expected_grid W (GeomRaster r) first = r).
Proof.
  split; [| reflexivity].
  apply (behaves_events (geometry_event_ok W (geom a)) (Forall (fun _ => True))).
  apply shape_generate; try (intros; exact I).
  intros ts tsd all_dates. unfold process_dates.
  apply behaves_for_each; [| constructor]. intros d acc _ _.
  apply behaves_for_each; [| apply Forall_forall; auto]. intros band acc' _ _.
  apply geometry_process_band.
Qed.

Lemma pure_band_images sensor band d images :
  Forall (band_image_of sensor band d) images ->
  forallb (sensor_pure (accessor_of sensor)) images = true.
Proof.
  intros H. apply forallb_forall. intros img Hin.
  rewrite Forall_forall in H. destruct (H img) as [tile ->].
  - now apply list_elem_of_In.
  - simpl. now destruct (accessor_of sensor).
Qed.

Lemma accessor_eqb_refl a : accessor_eqb a a = true.
Proof. now destruct a. Qed.

Section SingleSensor.

Variable W : World.
Variable sensor : string.
Variable out : option string.
Variable g : option geometry.
Variable bs : list string.

Lemma single_dispatch tiles tsd d d_parsed band o acc :
  out = Some o -> band ∈ bs ->
  behaves (single_event_ok W sensor out g bs) (Forall (fun _ : string => True))
    (dispatch_sensor W sensor g tiles tsd d d_parsed band (Py.join o [band]) acc).
Proof.
  intros Ho Hband.
  assert (Hacc : forall l : list string, Forall (fun _ => True) l).
  { intros l. apply Forall_forall. auto. }
  unfold dispatch_sensor. destruct g as [geometry |].
  - apply shape_sensor_mosaic; try exact I; try apply Hacc.
    + intros directory. exact I.
    + intros tile. simpl. auto.
    + intros first rest Himgs. simpl. exists o, band, d_parsed.
      split; [exact Ho |]. split; [exact Hband |].
      split; [| reflexivity].
      apply (pure_band_images sensor band d_parsed (first :: rest) Himgs).
  - apply behaves_for_each; [| apply Hacc]. intros tile acc' _ _.
    apply shape_sensor_tile; try exact I; try apply Hacc.
    + intros directory. exact I.
    + reflexivity.
    + simpl. auto.
    + simpl. exists o, band, d_parsed.
      split; [exact Ho |]. split; [exact Hband |].
      split; [apply accessor_eqb_refl |]. exists tile. auto.
Qed.

End SingleSensor.

(** X11. A run of one sensor stays with that sensor.  With [source="S30"]
    only [HLS.sentinel] resolves granules, with [source="L30"] only
    [HLS.landsat]; the merged product is never fetched; and every file
    written holds data of that sensor only, for a requested band, in the
    directory [join(output_directory, band)], under the name
    [{sensor}_{band}_{tile}_{YYYYMMDD}.tif] of its tile without a geometry
    and [{sensor}_{band}_{YYYYMMDD}.tif] with one. *)
Theorem single_sensor_run_stays_with_its_sensor W a st :
  source a = "S30" \/ source a = "L30" ->
  exists evs,
    new_events st (snd (generate_HLS_timeseries W a st)) evs
    /\ Forall (single_event_ok W (source a) (effective_output a) (geom a)
                 (normalize_bands (bands a))) evs.
Proof.
  intros Hsrc.
  apply (behaves_events _ (Forall (fun _ => True))).
  apply shape_generate; try (intros; exact I).
  intros ts tsd all_dates. unfold process_dates.
  apply behaves_for_each; [| constructor]. intros d acc _ _.
  apply behaves_for_each; [| apply Forall_forall; auto]. intros band acc' Hband _.
  unfold process_band.
  destruct Hsrc as [Hsrc | Hsrc]; rewrite Hsrc; simpl.
  - eapply behaves_bind; [apply behaves_os_path_join |]. intros dir (o & Ho & ->).
    now apply single_dispatch.
  - eapply behaves_bind; [apply behaves_os_path_join |]. intros dir (o & Ho & ->).
    now apply single_dispatch.
Qed.

Lemma single_sensor_run_stays_with_its_sensor_witness :
  exists evs,
    new_events empty_state
      (snd (generate_HLS_timeseries demo_world (demo_args "L30") empty_state)) evs
    /\ Forall (single_event_ok demo_world "L30" (Some "out") None ["red"]) evs.
Proof.
  apply (single_sensor_run_stays_with_its_sensor demo_world (demo_args "L30") empty_state).
  right. reflexivity.
Defined.

(** X12. A run of the merged product, [source="HLS"], resolves tiles only
    through [HLS.product]: neither [HLS.sentinel] nor [HLS.landsat] is
    called and no band is read from a granule.  Without a geometry each
    file written is the merged image of one tile, named
    [HLS_{band}_{tile}_{YYYYMMDD}.tif]; with a geometry each file is a
    mosaic of merged images of one band and date, named
    [HLS_{band}_{YYYYMMDD}.tif]; both lie in [join(output_directory,
    band)] for a requested band. *)
Theorem merged_run_uses_the_combined_product_only W a st :
  source a = "HLS" ->
  exists evs,
    new_events st (snd (generate_HLS_timeseries W a st)) evs
    /\ Forall (merged_event_ok W (effective_output a) (geom a)
                 (normalize_bands (bands a))) evs.
Proof.
  intros Hsrc.
  apply (behaves_events _ (Forall (fun _ => True))).
  apply shape_generate; try (intros; exact I).
  intros ts tsd all_dates. unfold process_dates.
  apply behaves_for_each; [| constructor]. intros d acc _ _.
  apply behaves_for_each; [| apply Forall_forall; auto]. intros band acc' Hband _.
  unfold process_band. rewrite Hsrc. simpl.
  eapply behaves_bind; [apply behaves_os_path_join |]. intros dir (o & Ho & ->).
  apply shape_dispatch_HLS; try (apply Forall_forall; auto).
  - intros directory. exact I.
  - intros tile. exact Hband.
  - intros Hg tile. split; [| exact I]. simpl. rewrite Hg.
    exists o, band, d. split; [exact Ho |]. split; [exact Hband |]. eauto.
  - intros geometry Hg. split; [exact I |]. intros first rest Himgs.
    simpl. rewrite Hg. exists o, band, d. split; [exact Ho |]. split; [exact Hband |].
    eauto.
Qed.

Lemma merged_run_uses_the_combined_product_only_witness :
  exists evs,
    new_events empty_state
      (snd (generate_HLS_timeseries demo_world (demo_args "HLS") empty_state)) evs
    /\ Forall (merged_event_ok demo_world (Some "out") None ["red"]) evs.
Proof.
  apply (merged_run_uses_the_combined_product_only demo_world (demo_args "HLS")
           empty_state).
  reflexivity.
Defined.

(** ** The mosaic builder when something fails *)

Lemma behaves_state {A} (P : event -> Prop) (Q : A -> Prop) (m : M A) st :
  behaves P Q m ->
  (exists lg, new_log st (snd (m st)) lg)
  /\ (forall p, is_Some (st_files st !! p) -> is_Some (st_files (snd (m st)) !! p)).
Proof.
  intros (r & lg & evs & D & F & Hrun & _). rewrite Hrun. simpl. split.
  - exists lg. reflexivity.
  - intros p [img Hp]. destruct (F !! p) as [img' |] eqn:HF.
    + exists img'. now apply lookup_union_Some_l.
    + exists img. rewrite lookup_union_r; assumption.
Qed.

Lemma persist_failure_run {A} (v : A) W img fname st0 e :
  persist_failure W img fname = Some e ->
  exists st',
    (ensure_directory W fname ;;;
     log INFO ("writing image to " ++ fname) ;;;
     to_geotiff W img (expanduser W fname) ;;;
     ret v) st0 = (Raise e, st')
    /\ (exists lg, new_log st0 st' lg)
    /\ match directory_failure W fname with
       | Some _ =>
           st_files st' = st_files st0
           /\ exists evs, new_events st0 st' evs
                          /\ Forall (fun ev => is_write ev = false) evs
       | None =>
           exists evs, new_events st0 st' (evs ++ [EvWrite (expanduser W fname) img])
                       /\ Forall (fun ev => is_write ev = false) evs
       end.
Proof.
  unfold persist_failure, directory_failure. run_monad. unfold new_log, new_events.
  destruct (Py.truthy (Py.dirname (expanduser W fname))); simpl.
  - destruct (makedirs_error W (Py.dirname (expanduser W fname))) as [e' |]; simpl.
    + intros H. inversion H; subst. eexists. split; [reflexivity |].
      split; [exists []; simpl; now rewrite app_nil_r |].
      split; [reflexivity |]. eexists. split; [reflexivity | repeat constructor].
    + intros H. destruct (bool_decide _); simpl; rewrite H; simpl;
        (eexists; split; [reflexivity |]; split; [eexists; reflexivity |];
         exists [EvMakedirs (Py.dirname (expanduser W fname))];
         simpl; rewrite <- app_assoc; split; [reflexivity | repeat constructor]).
  - intros H. rewrite H. simpl.
    eexists. split; [reflexivity |]. split; [eexists; reflexivity |].
    exists []. split; [reflexivity | constructor].
Qed.

Lemma write_mosaic_failure_run W geom first images filename st e :
  mosaic_failure W geom images first filename = Some e ->
  exists st',
    write_mosaic W geom first images filename st = (Raise e, st')
    /\ (exists lg, new_log st st' lg)
    /\ match preparation_failure W geom images first filename with
       | Some _ =>
           st_files st' = st_files st
           /\ exists evs, new_events st st' evs
                          /\ Forall (fun ev => is_write ev = false) evs
       | None =>
           exists evs,
             new_events st st'
               (evs ++ [EvWrite (expanduser W filename)
                          (MosaicImage images (expected_grid W geom first))])
             /\ Forall (fun ev => is_write ev = false) evs
       end.
Proof.
  intros Hfail. rewrite write_mosaic_unfold.
  unfold mosaic_failure in Hfail. unfold preparation_failure.
  assert (Hsame : (exists lg, new_log st st lg)
                  /\ st_files st = st_files st
                  /\ exists evs, new_events st st evs
                                 /\ Forall (fun ev => is_write ev = false) evs).
  { split; [exists []; unfold new_log; now rewrite app_nil_r |].
    split; [reflexivity |]. exists []. split; [| constructor].
    unfold new_events. now rewrite app_nil_r. }
  destruct (grid_failure W geom first) as [e1 |].
  { inversion Hfail; subst. exists st. tauto. }
  destruct (mosaic_error W images (expected_grid W geom first)) as [e2 |].
  { inversion Hfail; subst. exists st. tauto. }
  now apply persist_failure_run.
Qed.

(** X13. When [process_sensor_mosaic] has collected images and then the
    grid, the compositing, the directory or the write fails, it raises
    nothing and returns None, and the last entry it logs is the error with
    the text of the exception.  When the failure comes before the write (in
    the grid, the compositing or the directory), [to_geotiff] is never
    called and the files are what they were.  When it is the write that
    fails, that call to [to_geotiff], for the mosaic at the expected path,
    is the only write attempted and the last call made; what it leaves on
    disk is the writer's affair and nothing is said about it. *)
Theorem failed_mosaic_is_logged_and_skipped
    W sensor d d_parsed band tiles tsd geom out st first rest e :
  fst (collect_images W sensor d d_parsed band tiles tsd st) = Ret (first :: rest) ->
  mosaic_failure W geom (first :: rest) first
    (Py.join out [mosaic_filename sensor band d_parsed]) = Some e ->
  let run := process_sensor_mosaic W sensor d d_parsed band tiles tsd geom out st in
  fst run = Ret None
  /\ (exists lg,
        new_log st (snd run)
          (lg ++ [(ERROR, "Error creating mosaic for " ++ sensor ++ " band " ++ band
                          ++ " on " ++ Date.isoformat d_parsed ++ ": " ++ exn_msg e)]))
  /\ match preparation_failure W geom (first :: rest) first
             (Py.join out [mosaic_filename sensor band d_parsed]) with
     | Some _ =>
         st_files (snd run) = st_files st
         /\ exists evs, new_events st (snd run) evs
                        /\ Forall (fun ev => is_write ev = false) evs
     | None =>
         exists evs,
           new_events st (snd run)
             (evs ++ [EvWrite
                        (expanduser W (Py.join out [mosaic_filename sensor band d_parsed]))
                        (MosaicImage (first :: rest) (expected_grid W geom first))])
           /\ Forall (fun ev => is_write ev = false) evs
     end.
Proof.
  intros Hc Hfail run. subst run.
  destruct (collect_images_run W sensor d d_parsed band tsd tiles st)
    as (st1 & Hrun & Hq).
  pose proof (behaves_state (fun _ => True) _ _ st
                (behaves_collect_images W (fun _ => True) (fun _ _ => I)
                   sensor d d_parsed band tiles tsd)) as [[lg1 Hlg1] _].
  rewrite Hrun in Hc, Hlg1. simpl in Hc, Hlg1. injection Hc as Hcol.
  rewrite Hcol in Hrun.
  destruct (write_mosaic_failure_run W geom first (first :: rest) _ st1 e Hfail)
    as (st2 & Hw & [lg2 Hlg2] & Hprep).
  unfold process_sensor_mosaic. erewrite run_bind_ret by exact Hrun.
  cbv beta iota.
  erewrite run_try_raise by (erewrite run_bind_raise by exact Hw; reflexivity).
  erewrite run_bind_ret by apply run_log. simpl.
  split; [reflexivity |]. split.
  - exists (lg1 ++ lg2)%list. unfold new_log in *. simpl.
    rewrite Hlg2, Hlg1. now rewrite !app_assoc.
  - destruct Hq as (_ & Hf1 & evs1 & Hev1 & Hnw1).
    destruct (preparation_failure W geom (first :: rest) first _).
    + destruct Hprep as (Hf2 & evs2 & Hev2 & Hnw2). simpl. split; [congruence |].
      exists (evs1 ++ evs2)%list. split; [| now apply Forall_app].
      unfold new_events in *. simpl. rewrite Hev2, Hev1. now rewrite app_assoc.
    + destruct Hprep as (evs2 & Hev2 & Hnw2).
      exists (evs1 ++ evs2)%list. split; [| now apply Forall_app].
      unfold new_events in *. simpl. rewrite Hev2, Hev1. now rewrite !app_assoc.
Qed.

Lemma failed_mosaic_is_logged_and_skipped_witness :
  fst (process_sensor_mosaic no_mosaic_world "S30" d20220803 d20220803 "red"
         ["10SEG"; "11SKA"] demo_calendar (GeomBBox (BBoxGiven "upper_kings"))
         "out/red" empty_state) = Ret None.
Proof.
  apply (failed_mosaic_is_logged_and_skipped no_mosaic_world "S30" d20220803 d20220803
           "red" ["10SEG"; "11SKA"] demo_calendar (GeomBBox (BBoxGiven "upper_kings"))
           "out/red" empty_state
           (BandImage (Granule sentinel "10SEG" d20220803) "red")
           [BandImage (Granule sentinel "11SKA" d20220803) "red"]
           (Exn ValueError "images do not overlap the target")).
  - vm_compute. reflexivity.
  - vm_compute. reflexivity.
Defined.

(** X14. The images a mosaic is built from are those of the tiles that
    have the date in their calendar for the sensor, whose granule resolves
    and whose band lookup succeeds, in the order of the tile list: a tile
    that fails is left out and takes no other tile with it.  Collecting
    never raises, writes no file and creates no directory. *)
Theorem collection_leaves_out_only_the_failing_tiles
    W sensor d d_parsed band tiles tsd st :
  let run := collect_images W sensor d d_parsed band tiles tsd st in
  fst run
  = Ret (map (fun tile => BandImage (Granule (accessor_of sensor) tile d_parsed) band)
           (List.filter
              (fun tile =>
                 date_in d (available_dates tsd tile sensor)
                 && match granule_error W (Granule (accessor_of sensor) tile d_parsed) with
                    | Some _ => false
                    | None => true
                    end
                 && match band_error W (Granule (accessor_of sensor) tile d_parsed) band with
                    | Some _ => false
                    | None => true
                    end)
              tiles))
  /\ st_files (snd run) = st_files st
  /\ st_dirs (snd run) = st_dirs st
  /\ exists evs, new_events st (snd run) evs /\ Forall (fun ev => is_write ev = false) evs.
Proof.
  destruct (collect_images_run W sensor d d_parsed band tsd tiles st)
    as (st1 & Hrun & Hd & Hf & Hev).
  simpl. rewrite Hrun. simpl. auto.
Qed.

(** ** The list a run returns *)

Lemma for_each_appends {A} (f : A -> list string) (l : list A)
    (body : A -> list string -> M (list string)) :
  (forall x acc st, x ∈ l ->
     exists st', body x acc st = (Ret (acc ++ f x)%list, st')) ->
  forall acc st,
    exists st', for_each l body acc st = (Ret (acc ++ flat_map f l)%list, st').
Proof.
  induction l as [| x l IH]; intros Hbody acc st.
  - exists st. simpl. now rewrite app_nil_r.
  - destruct (Hbody x acc st (list_elem_of_here _ _)) as (st1 & H1).
    rewrite for_each_cons. erewrite run_bind_ret by exact H1.
    destruct (IH (fun y acc' st' Hy => Hbody y acc' st' (list_elem_of_further _ _ _ Hy))
                (acc ++ f x)%list st1) as (st2 & H2).
    exists st2. rewrite H2. simpl. now rewrite app_assoc.
Qed.

Lemma tile_path_truthy dir sensor band tile d :
  sensor = "S30" \/ sensor = "L30" ->
  Py.truthy (tile_path dir sensor band tile d) = true.
Proof.
  intros Hs. unfold tile_path.
  change (Py.join dir [tile_filename sensor band tile d])
    with (Py.join_step dir (tile_filename sensor band tile d)).
  rewrite join_step_relative by (destruct Hs as [-> | ->]; reflexivity).
  unfold tile_filename.
  destruct Hs as [-> | ->];
    [apply (truthy_append (with_sep dir) "S") | apply (truthy_append (with_sep dir) "L")].
Qed.

Lemma mosaic_path_truthy dir sensor band d :
  sensor = "S30" \/ sensor = "L30" ->
  Py.truthy (Py.join dir [mosaic_filename sensor band d]) = true.
Proof.
  intros Hs.
  change (Py.join dir [mosaic_filename sensor band d])
    with (Py.join_step dir (mosaic_filename sensor band d)).
  rewrite join_step_relative by (destruct Hs as [-> | ->]; reflexivity).
  unfold mosaic_filename.
  destruct Hs as [-> | ->];
    [apply (truthy_append (with_sep dir) "S") | apply (truthy_append (with_sep dir) "L")].
Qed.

Section UnitResults.

Variable W : World.
Variable sensor : string.
Hypothesis Hsensor : sensor = "S30" \/ sensor = "L30".
Variable tsd : calendar.

Lemma band_unit_result d band tile dir st :
  exists st',
    process_sensor_band W sensor d d band tile dir st
    = (Ret match extraction_failure W (Granule (accessor_of sensor) tile d) band
                   (tile_path dir sensor band tile d) with
           | Some _ => None
           | None => Some (tile_path dir sensor band tile d)
           end, st').
Proof.
  destruct (process_sensor_band W sensor d d band tile dir st) as [r st'] eqn:Hrun.
  exists st'. f_equal.
  unfold extraction_failure, tile_path.
  destruct (granule_error W _) as [e |] eqn:Hg.
  { destruct (band_granule_failed W sensor d d band tile dir st e Hg) as [H _].
    rewrite Hrun in H. exact H. }
  destruct (band_error W _ band) as [e |] eqn:Hb.
  { destruct (band_lookup_failed W sensor d d band tile dir st e Hg Hb) as [H _].
    rewrite Hrun in H. exact H. }
  pose proof (band_persisting W sensor d d band tile dir st Hg Hb) as H.
  destruct (persist_failure W _ _); destruct H as [H _]; rewrite Hrun in H; exact H.
Qed.

Lemma sensor_tile_result d band dir tile acc st :
  exists st',
    sensor_tile W sensor tsd d d band dir tile acc st
    = (Ret (acc ++ tile_paths W sensor tsd [tile] d band dir)%list, st').
Proof.
  unfold sensor_tile, tile_paths, tile_unit_succeeds. simpl List.filter.
  destruct (date_in d (available_dates tsd tile sensor)); simpl.
  2:{ exists st. now rewrite app_nil_r. }
  destruct (band_unit_result d band tile dir st) as (st' & Hrun).
  erewrite run_bind_ret by exact Hrun. exists st'. unfold ret. f_equal. f_equal.
  destruct (extraction_failure W _ band _); simpl.
  - now rewrite app_nil_r.
  - now rewrite tile_path_truthy.
Qed.

Lemma tile_paths_flat_map tiles d band dir :
  flat_map (fun tile => tile_paths W sensor tsd [tile] d band dir) tiles
  = tile_paths W sensor tsd tiles d band dir.
Proof.
  induction tiles as [| t tiles IH]; [reflexivity |].
  cbn [flat_map]. rewrite IH. unfold tile_paths. cbn [List.filter].
  destruct (tile_unit_succeeds W sensor tsd d band dir t); reflexivity.
Qed.

Lemma sensor_mosaic_result geometry tiles d band dir acc st :
  exists st',
    sensor_mosaic W sensor geometry tiles tsd d d band dir acc st
    = (Ret (acc ++ mosaic_paths W sensor tsd tiles geometry d band dir)%list, st').
Proof.
  unfold sensor_mosaic, process_sensor_mosaic, mosaic_paths.
  destruct (collect_images_run W sensor d d band tsd tiles st) as (st1 & Hrun & _).
  destruct (collected W sensor d d band tsd tiles) as [| first rest].
  - erewrite run_bind_ret.
    2:{ erewrite run_bind_ret by exact Hrun. cbv beta iota.
        erewrite run_bind_ret by apply run_log. reflexivity. }
    eexists. unfold ret. simpl. now rewrite app_nil_r.
  - destruct (write_mosaic_run W geometry first (first :: rest)
                (Py.join dir [mosaic_filename sensor band d]) st1) as (st2 & Hw).
    destruct (mosaic_failure W geometry (first :: rest) first _) as [e |].
    + erewrite run_bind_ret.
      2:{ erewrite run_bind_ret by exact Hrun. cbv beta iota.
          erewrite run_try_raise by (erewrite run_bind_raise by exact Hw; reflexivity).
          erewrite run_bind_ret by apply run_log. reflexivity. }
      eexists. unfold ret. simpl. now rewrite app_nil_r.
    + destruct Hw as [Hw _].
      erewrite run_bind_ret.
      2:{ erewrite run_bind_ret by exact Hrun. cbv beta iota.
          erewrite run_try_ret by (erewrite run_bind_ret by exact Hw; reflexivity).
          reflexivity. }
      unfold ret, append_if. rewrite mosaic_path_truthy by exact Hsensor.
      eexists. reflexivity.
Qed.

End UnitResults.

Lemma sensor_dates_result W sensor out g bs tiles tsd all_dates st :
  sensor = "S30" \/ sensor = "L30" ->
  exists st',
    process_dates W sensor (Some out) g bs tiles tsd all_dates st
    = (Ret (sensor_run_paths W sensor out g bs tiles tsd all_dates), st').
Proof.
  intros Hs. unfold process_dates, sensor_run_paths.
  apply (for_each_appends
           (fun d => flat_map
                       (fun band =>
                          match g with
                          | None => tile_paths W sensor tsd tiles d band (Py.join out [band])
                          | Some geometry =>
                              mosaic_paths W sensor tsd tiles geometry d band
                                (Py.join out [band])
                          end) bs)).
  intros d acc st0 _. cbv beta.
  apply (for_each_appends
           (fun band =>
              match g with
              | None => tile_paths W sensor tsd tiles d band (Py.join out [band])
              | Some geometry =>
                  mosaic_paths W sensor tsd tiles geometry d band (Py.join out [band])
              end)).
  intros band acc1 st1 _.
  assert (Hgoal : exists st',
            dispatch_sensor W sensor g tiles tsd d d band (Py.join out [band]) acc1 st1
            = (Ret (acc1 ++ match g with
                            | None => tile_paths W sensor tsd tiles d band (Py.join out [band])
                            | Some geometry =>
                                mosaic_paths W sensor tsd tiles geometry d band
                                  (Py.join out [band])
                            end)%list, st')).
  { unfold dispatch_sensor. destruct g as [geometry |].
    - now apply sensor_mosaic_result.
    - rewrite <- tile_paths_flat_map.
      apply (for_each_appends
               (fun tile => tile_paths W sensor tsd [tile] d band (Py.join out [band]))).
      intros tile acc2 st2 _. now apply sensor_tile_result. }
  unfold process_band.
  destruct Hs as [-> | ->]; simpl; (erewrite run_bind_ret by reflexivity); exact Hgoal.
Qed.

(** X15. The list a run of one sensor returns, [source="S30"] or
    [source="L30"] with a directory: without a geometry, one path for every
    date, band and tile whose calendar holds the date and whose extraction
    does not fail; with a geometry, one path for every date and band for
    which some tile contributes an image and building and writing the
    mosaic do not fail.  The paths come in the order of the dates
    ascending, then of the bands as requested, then of the tiles; a unit
    that fails only leaves its own path out. *)
Theorem sensor_run_returns_its_successful_units
    W a st bs ts start_UTC end_UTC st1 out :
  source a = "S30" \/ source a = "L30" ->
  effective_output a = Some out ->
  validate W a st = (Ret (bs, ts, start_UTC, end_UTC), st1) ->
  connect_error W (download_directory a) = None ->
  listings_answer W start_UTC end_UTC ts ->
  fst (generate_HLS_timeseries W a st)
  = Ret (flat_map
           (fun d =>
              flat_map
                (fun band =>
                   match geom a with
                   | None =>
                       map (fun tile =>
                              Py.join (Py.join out [band])
                                [tile_filename (source a) band tile d])
                         (List.filter
                            (tile_unit_succeeds W (source a)
                               (fst (indexed W start_UTC end_UTC ts (∅, ∅))) d band
                               (Py.join out [band]))
                            ts)
                   | Some geometry =>
                       mosaic_paths W (source a)
                         (fst (indexed W start_UTC end_UTC ts (∅, ∅))) ts geometry d band
                         (Py.join out [band])
                   end)
                bs)
           (universe W start_UTC end_UTC ts)).
Proof.
  intros Hsrc Hout Hval Hconn Hall.
  destruct (generate_after_index W a st bs ts start_UTC end_UTC st1 Hval Hconn Hall)
    as (st2 & Hrun & _).
  rewrite Hrun, Hout.
  destruct (sensor_dates_result W (source a) out (geom a) bs ts
              (fst (indexed W start_UTC end_UTC ts (∅, ∅)))
              (universe W start_UTC end_UTC ts) st2 Hsrc) as (st3 & Hloop).
  rewrite Hloop. reflexivity.
Qed.

Lemma sensor_run_returns_its_successful_units_witness :
  fst (generate_HLS_timeseries demo_world (demo_args "S30") empty_state)
  = Ret [ "out/red/S30_red_10SEG_20220803.tif";
          "out/red/S30_red_11SKA_20220803.tif" ].
Proof.
  rewrite (sensor_run_returns_its_successful_units demo_world (demo_args "S30")
             empty_state ["red"] ["10SEG"; "11SKA"] (Some d20220801) (Some d20220805)
             empty_state "out").
  - vm_compute. reflexivity.
  - left. reflexivity.
  - reflexivity.
  - vm_compute. reflexivity.
  - reflexivity.
  - repeat constructor; eexists; reflexivity.
Defined.

Lemma both_dates_result W out g bs tiles tsd all_dates st :
  exists st',
    process_dates W "both" (Some out) g bs tiles tsd all_dates st
    = (Ret (both_run_paths W out g bs tiles tsd all_dates), st').
Proof.
  unfold process_dates, both_run_paths.
  apply (for_each_appends
           (fun d => flat_map
                       (fun band =>
                          match g with
                          | None =>
                              flat_map
                                (fun tile =>
                                   flat_map
                                     (fun sensor =>
                                        tile_paths W sensor tsd [tile] d band
                                          (Py.join out [sensor; band]))
                                     ["S30"; "L30"])
                                tiles
                          | Some geometry =>
                              flat_map
                                (fun sensor =>
                                   mosaic_paths W sensor tsd tiles geometry d band
                                     (Py.join out [sensor; band]))
                                ["S30"; "L30"]
                          end) bs)).
  intros d acc st0 _. cbv beta.
  apply (for_each_appends
           (fun band =>
              match g with
              | None =>
                  flat_map
                    (fun tile =>
                       flat_map
                         (fun sensor =>
                            tile_paths W sensor tsd [tile] d band
                              (Py.join out [sensor; band]))
                         ["S30"; "L30"])
                    tiles
              | Some geometry =>
                  flat_map
                    (fun sensor =>
                       mosaic_paths W sensor tsd tiles geometry d band
                         (Py.join out [sensor; band]))
                    ["S30"; "L30"]
              end)).
  intros band acc1 st1 _.
  change (process_band W "both" (Some out) g tiles tsd d d band acc1 st1)
    with (dispatch_both W (Some out) g tiles tsd d d band acc1 st1).
  unfold dispatch_both, os_path_join.
  erewrite run_bind_ret by reflexivity. erewrite run_bind_ret by reflexivity.
  destruct g as [geometry |].
  - apply (for_each_appends
             (fun sensor =>
                mosaic_paths W sensor tsd tiles geometry d band (Py.join out [sensor; band]))).
    intros sensor acc2 st2 Hs. rewrite (pick_dir_both out sensor band Hs).
    apply sensor_mosaic_result. now apply sensor_cases.
  - apply (for_each_appends
             (fun tile =>
                flat_map
                  (fun sensor =>
                     tile_paths W sensor tsd [tile] d band (Py.join out [sensor; band]))
                  ["S30"; "L30"])).
    intros tile acc2 st2 _.
    apply (for_each_appends
             (fun sensor =>
                tile_paths W sensor tsd [tile] d band (Py.join out [sensor; band]))).
    intros sensor acc3 st3 Hs. rewrite (pick_dir_both out sensor band Hs).
    apply sensor_tile_result. now apply sensor_cases.
Qed.

(** X16. The list a run of both sensors returns, with a directory: for
    every date ascending and every band as requested, without a geometry
    the tiles in their order and for each tile its S30 file and then its
    L30 file, with a geometry the S30 mosaic and then the L30 mosaic; each
    is present when its unit does not fail, in the directory
    [join(output_directory, sensor, band)]. *)
Theorem both_run_returns_its_successful_units
    W a st bs ts start_UTC end_UTC st1 out :
  source a = "both" ->
  effective_output a = Some out ->
  validate W a st = (Ret (bs, ts, start_UTC, end_UTC), st1) ->
  connect_error W (download_directory a) = None ->
  listings_answer W start_UTC end_UTC ts ->
  fst (generate_HLS_timeseries W a st)
  = Ret (flat_map
           (fun d =>
              flat_map
                (fun band =>
                   match geom a with
                   | None =>
                       flat_map
                         (fun tile =>
                            flat_map
                              (fun sensor =>
                                 tile_paths W sensor
                                   (fst (indexed W start_UTC end_UTC ts (∅, ∅)))
                                   [tile] d band (Py.join out [sensor; band]))
                              ["S30"; "L30"])
                         ts
                   | Some geometry =>
                       flat_map
                         (fun sensor =>
                            mosaic_paths W sensor
                              (fst (indexed W start_UTC end_UTC ts (∅, ∅)))
                              ts geometry d band (Py.join out [sensor; band]))
                         ["S30"; "L30"]
                   end)
                bs)
           (universe W start_UTC end_UTC ts)).
Proof.
  intros Hsrc Hout Hval Hconn Hall.
  destruct (generate_after_index W a st bs ts start_UTC end_UTC st1 Hval Hconn Hall)
    as (st2 & Hrun & _).
  rewrite Hrun, Hout, Hsrc.
  destruct (both_dates_result W out (geom a) bs ts
              (fst (indexed W start_UTC end_UTC ts (∅, ∅)))
              (universe W start_UTC end_UTC ts) st2) as (st3 & Hloop).
  rewrite Hloop. reflexivity.
Qed.

Lemma both_run_returns_its_successful_units_witness :
  fst (generate_HLS_timeseries demo_world (demo_args "both") empty_state)
  = Ret [ "out/S30/red/S30_red_10SEG_20220803.tif";
          "out/S30/red/S30_red_11SKA_20220803.tif";
          "out/L30/red/L30_red_11SKA_20220803.tif";
          "out/L30/red/L30_red_10SEG_20220804.tif" ].
Proof.
  rewrite (both_run_returns_its_successful_units demo_world (demo_args "both")
             empty_state ["red"] ["10SEG"; "11SKA"] (Some d20220801) (Some d20220805)
             empty_state "out").
  - vm_compute. reflexivity.
  - reflexivity.
  - reflexivity.
  - vm_compute. reflexivity.
  - reflexivity.
  - repeat constructor; eexists; reflexivity.
Defined.

(** ** The returned names and the files *)

Lemma files_kept_refl st : files_kept st st.
Proof. intros p H. exact H. Qed.

Lemma files_kept_trans st1 st2 st3 :
  files_kept st1 st2 -> files_kept st2 st3 -> files_kept st1 st3.
Proof. intros H12 H23 p H. apply H23, H12, H. Qed.

Lemma stable_all_on_disk W l : stable (all_on_disk W l).
Proof.
  intros st st' Hk H. unfold all_on_disk in *.
  eapply Forall_impl; [exact H |]. intros p Hp. apply Hk, Hp.
Qed.

Lemma stable_True : stable (fun _ => True).
Proof. intros st st' _ _. exact I. Qed.

Lemma triple_ret {A} (Pre : state -> Prop) (a : A) (Post : A -> state -> Prop) :
  (forall st, Pre st -> Post a st) -> triple Pre (ret a) Post.
Proof.
  intros H st Hpre. simpl. split; [apply files_kept_refl |].
  intros a' [= <-]. apply H, Hpre.
Qed.

Lemma triple_bind {A B} (Pre : state -> Prop) (Mid : A -> state -> Prop)
    (Post : B -> state -> Prop) (m : M A) (k : A -> M B) :
  triple Pre m Mid -> (forall a, triple (Mid a) (k a) Post) ->
  triple Pre (bind m k) Post.
Proof.
  intros Hm Hk st Hpre. destruct (Hm st Hpre) as [Hkept Hpost].
  unfold bind. destruct (m st) as [[a | e] st1]; simpl in *.
  - destruct (Hk a st1 (Hpost a eq_refl)) as [Hk1 Hk2].
    split; [eapply files_kept_trans; eassumption | exact Hk2].
  - split; [exact Hkept | intros a [=]].
Qed.

Lemma triple_try {A} (Pre : state -> Prop) (Post : A -> state -> Prop)
    (m : M A) (h : exn -> M A) :
  stable Pre -> triple Pre m Post -> (forall e, triple Pre (h e) Post) ->
  triple Pre (try_except m h) Post.
Proof.
  intros Hst Hm Hh st Hpre. destruct (Hm st Hpre) as [Hkept Hpost].
  unfold try_except. destruct (m st) as [[a | e] st1]; simpl in *.
  - split; [exact Hkept | exact Hpost].
  - destruct (Hh e st1 (Hst st st1 Hkept Hpre)) as [Hh1 Hh2].
    split; [eapply files_kept_trans; eassumption | exact Hh2].
Qed.

Lemma triple_conseq {A} (Pre Pre' : state -> Prop) (Post Post' : A -> state -> Prop)
    (m : M A) :
  triple Pre m Post ->
  (forall st, Pre' st -> Pre st) -> (forall a st, Post a st -> Post' a st) ->
  triple Pre' m Post'.
Proof.
  intros Hm Hpre Hpost st H. destruct (Hm st (Hpre st H)) as [Hk Hp].
  split; [exact Hk |]. intros a Ha. apply Hpost, Hp, Ha.
Qed.

Lemma triple_for_each {A B} (Inv : B -> state -> Prop) (l : list A)
    (body : A -> B -> M B) :
  (forall x acc, x ∈ l -> triple (Inv acc) (body x acc) Inv) ->
  forall acc, triple (Inv acc) (for_each l body acc) Inv.
Proof.
  induction l as [| x l IH]; intros Hbody acc; simpl.
  - apply triple_ret. auto.
  - eapply triple_bind; [apply Hbody; apply list_elem_of_here |].
    intros acc'. apply IH. intros y acc'' Hy. apply Hbody.
    now apply list_elem_of_further.
Qed.

(** A computation of the program keeps the files, whatever else it does. *)
Lemma triple_skip {A} (R : state -> Prop) (m : M A) :
  behaves (fun _ => True) (fun _ => True) m -> stable R -> triple R m (fun _ => R).
Proof.
  intros Hm Hst st HR.
  destruct (behaves_state _ _ m st Hm) as [_ Hk].
  split; [exact Hk |]. intros _ _. apply (Hst st _ Hk HR).
Qed.

Ltac skip := apply triple_skip; [uni | first [assumption | apply stable_all_on_disk
                                             | apply stable_True]].

Section FilesOfARun.

Variable W : World.

Lemma triple_to_geotiff (R : state -> Prop) img path :
  stable R ->
  triple R (to_geotiff W img path) (fun _ st => R st /\ is_Some (st_files st !! path)).
Proof.
  intros Hst st HR. unfold to_geotiff. run_monad.
  destruct (to_geotiff_error W img path) as [e |]; simpl.
  - split; [intros p Hp; exact Hp | intros a [=]].
  - assert (Hk : files_kept st
                   (State (st_log st) (st_trace st ++ [EvWrite path img]) (st_dirs st)
                      (<[path := img]> (st_files st)))).
    { intros p Hp. simpl. apply lookup_insert_is_Some'. now right. }
    split; [exact Hk |]. intros _ _; cbv beta. split; [apply (Hst st _ Hk HR) |].
    simpl. apply lookup_insert_is_Some'. now left.
Qed.

Lemma triple_persist {A} (R : state -> Prop) (v : A) img filename :
  stable R ->
  triple R
    (ensure_directory W filename ;;;
     log INFO ("writing image to " ++ filename) ;;;
     to_geotiff W img (expanduser W filename) ;;;
     ret v)
    (fun r st => r = v /\ R st /\ on_disk W st filename).
Proof.
  intros Hst.
  eapply triple_bind; [skip |]. intros ?; cbv beta.
  eapply triple_bind; [skip |]. intros ?; cbv beta.
  eapply triple_bind; [apply triple_to_geotiff; exact Hst |]. intros ?; cbv beta.
  apply triple_ret. intros st [HR Hf]. auto.
Qed.

Lemma triple_band_unit (R : state -> Prop) sensor d_parsed band tile dir :
  stable R ->
  triple R (process_sensor_band W sensor d_parsed d_parsed band tile dir)
    (fun r st => R st /\ forall p, r = Some p -> on_disk W st p).
Proof.
  intros Hst. unfold process_sensor_band.
  eapply triple_bind; [skip |]. intros ?; cbv beta.
  apply triple_try; [exact Hst | |].
  - eapply triple_bind; [skip |]. intros g; cbv beta.
    eapply triple_bind; [skip |]. intros [img |]; cbv beta.
    + eapply triple_conseq; [apply triple_persist; exact Hst | auto |].
      intros r st (-> & HR & Hf). split; [exact HR |]. now intros p [= <-].
    + apply triple_ret. intros st HR. split; [exact HR | intros p [=]].
  - intros e. eapply triple_bind; [skip |]. intros ?; cbv beta.
    apply triple_ret. intros st HR. split; [exact HR | intros p [=]].
Qed.

Lemma all_on_disk_append_if r acc st :
  all_on_disk W acc st -> (forall p, r = Some p -> on_disk W st p) ->
  all_on_disk W (append_if r acc) st.
Proof.
  intros Hacc Hr. unfold append_if. destruct r as [p |]; [| exact Hacc].
  destruct (Py.truthy p); [| exact Hacc].
  apply Forall_app. split; [exact Hacc |]. repeat constructor. now apply Hr.
Qed.

Lemma triple_sensor_tile sensor tsd d band dir tile acc :
  triple (all_on_disk W acc) (sensor_tile W sensor tsd d d band dir tile acc)
    (all_on_disk W).
Proof.
  unfold sensor_tile. destruct (negb _); [apply triple_ret; auto |].
  eapply triple_bind; [apply triple_band_unit, stable_all_on_disk |].
  intros r. apply triple_ret. intros st [Hacc Hr]. now apply all_on_disk_append_if.
Qed.

Lemma triple_write_mosaic (R : state -> Prop) geom first images filename :
  stable R ->
  triple R (write_mosaic W geom first images filename)
    (fun f st => R st /\ on_disk W st f).
Proof.
  intros Hst. unfold write_mosaic.
  eapply triple_bind; [skip |]. intros g; cbv beta.
  eapply triple_bind; [skip |]. intros composite; cbv beta.
  eapply triple_conseq; [apply triple_persist; exact Hst | auto |].
  intros r st (-> & HR & Hf). auto.
Qed.

Lemma triple_mosaic_unit (R : state -> Prop) sensor d band tiles tsd geom dir :
  stable R ->
  triple R (process_sensor_mosaic W sensor d d band tiles tsd geom dir)
    (fun r st => R st /\ forall p, r = Some p -> on_disk W st p).
Proof.
  intros Hst. unfold process_sensor_mosaic.
  eapply triple_bind; [skip |]. intros [| first rest]; cbv beta.
  - eapply triple_bind; [skip |]. intros ?; cbv beta.
    apply triple_ret. intros st HR. split; [exact HR | intros p [=]].
  - apply triple_try; [exact Hst | |].
    + eapply triple_bind; [apply triple_write_mosaic; exact Hst |]. intros f; cbv beta.
      apply triple_ret. intros st [HR Hf]. split; [exact HR |]. now intros p [= <-].
    + intros e. eapply triple_bind; [skip |]. intros ?; cbv beta.
      apply triple_ret. intros st HR. split; [exact HR | intros p [=]].
Qed.

Lemma triple_sensor_mosaic sensor geometry tiles tsd d band dir acc :
  triple (all_on_disk W acc)
    (sensor_mosaic W sensor geometry tiles tsd d d band dir acc) (all_on_disk W).
Proof.
  unfold sensor_mosaic.
  eapply triple_bind; [apply triple_mosaic_unit, stable_all_on_disk |].
  intros r. apply triple_ret. intros st [Hacc Hr]. now apply all_on_disk_append_if.
Qed.

Lemma triple_dispatch_sensor sensor g tiles tsd d band dir acc :
  triple (all_on_disk W acc) (dispatch_sensor W sensor g tiles tsd d d band dir acc)
    (all_on_disk W).
Proof.
  unfold dispatch_sensor. destruct g as [geometry |].
  - apply triple_sensor_mosaic.
  - apply triple_for_each. intros tile acc' _. apply triple_sensor_tile.
Qed.

Lemma triple_HLS_tile g tsd d band dir tile acc :
  triple (all_on_disk W (snd acc)) (HLS_tile W g tsd d d band dir tile acc)
    (fun acc' => all_on_disk W (snd acc')).
Proof.
  destruct acc as [images paths]. unfold HLS_tile. cbn [snd].
  destruct (negb _); [apply triple_ret; auto |].
  eapply triple_bind; [skip |]. intros ?; cbv beta.
  apply triple_try; [apply stable_all_on_disk | |].
  - eapply triple_bind; [skip |]. intros img; cbv beta.
    destruct g as [geometry |]; [apply triple_ret; auto |].
    eapply triple_conseq;
      [apply (triple_persist (all_on_disk W paths)), stable_all_on_disk | auto |].
    intros r st (-> & HR & Hf). cbn [snd].
    apply Forall_app. split; [exact HR | repeat constructor; exact Hf].
  - intros e. eapply triple_bind; [skip |]. intros ?; cbv beta. apply triple_ret. auto.
Qed.

Lemma triple_dispatch_HLS g tiles tsd d band dir acc :
  triple (all_on_disk W acc) (dispatch_HLS W g tiles tsd d d band dir acc)
    (all_on_disk W).
Proof.
  unfold dispatch_HLS.
  eapply triple_bind with (Mid := fun acc' => all_on_disk W (snd acc')).
  { apply (triple_for_each
             (fun acc' : list image * list string => all_on_disk W (snd acc'))
             tiles (HLS_tile W g tsd d d band dir)
             (fun tile acc' _ => triple_HLS_tile g tsd d band dir tile acc')
             ([], acc)). }
  intros [images paths]. cbn [snd].
  destruct g as [geometry |]; [| apply triple_ret; auto].
  destruct images as [| first rest]; [apply triple_ret; auto |].
  apply triple_try; [apply stable_all_on_disk | |].
  - eapply triple_bind;
      [apply (triple_write_mosaic (all_on_disk W paths)), stable_all_on_disk |].
    intros f; cbv beta.
    apply triple_ret. intros st [HR Hf].
    apply Forall_app. split; [exact HR | repeat constructor; exact Hf].
  - intros e. eapply triple_bind; [skip |]. intros ?; cbv beta. apply triple_ret. auto.
Qed.

Lemma triple_dispatch_both out g tiles tsd d band acc :
  triple (all_on_disk W acc) (dispatch_both W out g tiles tsd d d band acc)
    (all_on_disk W).
Proof.
  unfold dispatch_both.
  eapply triple_bind; [skip |]. intros s30_output_dir; cbv beta.
  eapply triple_bind; [skip |]. intros l30_output_dir; cbv beta.
  destruct g as [geometry |].
  - apply triple_for_each. intros sensor acc' _. apply triple_sensor_mosaic.
  - apply triple_for_each. intros tile acc' _.
    apply triple_for_each. intros sensor acc'' _. apply triple_sensor_tile.
Qed.

Lemma triple_process_band src out g tiles tsd d band acc :
  triple (all_on_disk W acc) (process_band W src out g tiles tsd d d band acc)
    (all_on_disk W).
Proof.
  unfold process_band. destruct (negb _); [| apply triple_dispatch_both].
  eapply triple_bind; [skip |]. intros dir; cbv beta.
  destruct (String.eqb src "HLS"); [apply triple_dispatch_HLS |].
  destruct (String.eqb src "S30"); [apply triple_dispatch_sensor |].
  destruct (String.eqb src "L30"); [apply triple_dispatch_sensor |].
  apply triple_ret. auto.
Qed.

Lemma triple_process_dates src out g bs tiles tsd all_dates :
  triple (fun _ => True) (process_dates W src out g bs tiles tsd all_dates)
    (all_on_disk W).
Proof.
  unfold process_dates.
  eapply triple_conseq;
    [apply (triple_for_each (all_on_disk W)) | intros st _; constructor | auto].
  intros d acc _. cbv zeta.
  apply triple_for_each. intros band acc' _. apply triple_process_band.
Qed.

Lemma triple_generate a :
  triple (fun _ => True) (generate_HLS_timeseries W a) (all_on_disk W).
Proof.
  unfold generate_HLS_timeseries.
  eapply triple_bind; [skip |]. intros [[[bs ts] start_UTC] end_UTC]; cbv beta.
  do 6 (eapply triple_bind; [skip |]; intros ?; cbv beta).
  eapply triple_bind; [skip |]. intros ?; cbv beta.
  eapply triple_bind; [skip |]. intros ?; cbv beta.
  eapply triple_bind; [skip |]. intros idx; cbv beta.
  apply triple_process_dates.
Qed.

End FilesOfARun.

(** X17. Every name in the list that [generate_HLS_timeseries] returns is
    the name of a file that exists when the run ends, at the place
    [expanduser] gives for the name: the list holds only `output filenames
    that were created', in every source mode, with or without a geometry,
    whatever fails on the way. *)
Theorem returned_names_are_files_on_disk W a st l p :
  fst (generate_HLS_timeseries W a st) = Ret l ->
  p ∈ l ->
  is_Some (st_files (snd (generate_HLS_timeseries W a st)) !! expanduser W p).
Proof.
  intros Hrun Hp.
  destruct (triple_generate W a st I) as [_ Hpost].
  specialize (Hpost l Hrun). unfold all_on_disk in Hpost.
  rewrite Forall_forall in Hpost. apply (Hpost p Hp).
Qed.

Lemma returned_names_are_files_on_disk_witness :
  is_Some (st_files (snd (generate_HLS_timeseries demo_world (demo_args "both") empty_state))
             !! expanduser demo_world "out/S30/red/S30_red_10SEG_20220803.tif").
Proof.
  apply (returned_names_are_files_on_disk demo_world (demo_args "both") empty_state
           [ "out/S30/red/S30_red_10SEG_20220803.tif";
             "out/S30/red/S30_red_11SKA_20220803.tif";
             "out/L30/red/L30_red_11SKA_20220803.tif";
             "out/L30/red/L30_red_10SEG_20220804.tif" ]).
  - vm_compute. reflexivity.
  - apply list_elem_of_here.
Defined.

(** ** The list a run of the merged product returns *)

Lemma for_each_folds {A B} (step : B -> A -> B) (l : list A) (body : A -> B -> M B) :
  (forall x acc st, x ∈ l -> exists st', body x acc st = (Ret (step acc x), st')) ->
  forall acc st,
    exists st', for_each l body acc st = (Ret (fold_left step l acc), st').
Proof.
  induction l as [| x l IH]; intros Hbody acc st.
  - exists st. reflexivity.
  - destruct (Hbody x acc st (list_elem_of_here _ _)) as (st1 & H1).
    rewrite for_each_cons. erewrite run_bind_ret by exact H1.
    apply (IH (fun y acc' st' Hy => Hbody y acc' st' (list_elem_of_further _ _ _ Hy))).
Qed.

Lemma run_HLS_product_ok W band d tile st :
  combined_error W band d tile = None ->
  HLS_product W band d tile st
  = (Ret (CombinedImage band d tile), add_events [EvCombined band d tile] st).
Proof. intros H. run_monad. rewrite H. reflexivity. Qed.

Lemma run_HLS_product_raise W band d tile st e :
  combined_error W band d tile = Some e ->
  HLS_product W band d tile st = (Raise e, add_events [EvCombined band d tile] st).
Proof. intros H. run_monad. rewrite H. reflexivity. Qed.

Section MergedResults.

Variable W : World.
Variable tsd : calendar.

Lemma HLS_tile_result g d band dir tile acc st :
  exists st',
    HLS_tile W g tsd d d band dir tile acc st
    = (Ret (merged_step W g tsd d band dir acc tile), st').
Proof.
  destruct acc as [images paths].
  unfold HLS_tile, merged_step, merged_tile_paths, merged_images, merged_tile_succeeds,
    merged_contributes.
  cbn [List.filter fst snd].
  destruct (date_in d _); cbn [negb andb].
  2:{ exists st. unfold ret. destruct g; cbn [map]; rewrite app_nil_r; reflexivity. }
  erewrite run_bind_ret by apply run_log.
  destruct (combined_error W band d tile) as [e |] eqn:Hc.
  { erewrite run_try_raise
      by (erewrite run_bind_raise by (apply run_HLS_product_raise; exact Hc); reflexivity).
    erewrite run_bind_ret by apply run_log.
    eexists. unfold ret. destruct g; cbn [map]; rewrite app_nil_r; reflexivity. }
  destruct g as [geometry |].
  { erewrite run_try_ret
      by (erewrite run_bind_ret by (apply run_HLS_product_ok; exact Hc); reflexivity).
    eexists. reflexivity. }
  pose proof (band_persist
                (images, (paths ++ [Py.join dir [tile_filename "HLS" band tile d]])%list)
                W (CombinedImage band d tile)
                (Py.join dir [tile_filename "HLS" band tile d])) as Hp.
  cbv zeta in Hp.
  unfold try_except.
  erewrite run_bind_ret by (apply run_HLS_product_ok; exact Hc). cbv beta iota.
  match goal with
  | |- context [bind (ensure_directory W _) _ ?s] => destruct (Hp s) as [st' Hs]
  end.
  destruct (persist_failure W _ _) as [e |]; destruct Hs as [Hrun _]; rewrite Hrun.
  - erewrite run_bind_ret by apply run_log.
    eexists. unfold ret. cbn [map]. rewrite app_nil_r. reflexivity.
  - eexists. reflexivity.
Qed.

Lemma merged_fold g tiles d band dir images paths :
  fold_left (merged_step W g tsd d band dir) tiles (images, paths)
  = match g with
    | None => (images, (paths ++ merged_tile_paths W tsd tiles d band dir)%list)
    | Some _ => ((images ++ merged_images W tsd tiles d band)%list, paths)
    end.
Proof.
  revert images paths. induction tiles as [| t tiles IH]; intros images paths.
  - simpl. destruct g; cbn; rewrite app_nil_r; reflexivity.
  - cbn [fold_left]. unfold merged_step at 2. destruct g as [geometry |]; cbn [fst snd].
    + rewrite IH. f_equal. rewrite <- app_assoc. f_equal.
      unfold merged_images. cbn [List.filter].
      destruct (merged_contributes W tsd d band t); reflexivity.
    + rewrite IH. f_equal. rewrite <- app_assoc. f_equal.
      unfold merged_tile_paths. cbn [List.filter].
      destruct (merged_tile_succeeds W tsd d band dir t); reflexivity.
Qed.

Lemma dispatch_HLS_result g tiles d band dir acc st :
  exists st',
    dispatch_HLS W g tiles tsd d d band dir acc st
    = (Ret (acc ++ match g with
                   | None => merged_tile_paths W tsd tiles d band dir
                   | Some geometry => merged_mosaic_paths W tsd tiles geometry d band dir
                   end)%list, st').
Proof.
  unfold dispatch_HLS.
  destruct (for_each_folds (merged_step W g tsd d band dir) tiles
              (HLS_tile W g tsd d d band dir)
              (fun tile acc' st' _ => HLS_tile_result g d band dir tile acc' st')
              ([], acc) st) as (st1 & H1).
  erewrite run_bind_ret by exact H1. rewrite merged_fold.
  destruct g as [geometry |]; [| eexists; reflexivity].
  cbn [app]. unfold merged_mosaic_paths.
  destruct (merged_images W tsd tiles d band) as [| first rest].
  { eexists. unfold ret. now rewrite app_nil_r. }
  destruct (write_mosaic_run W geometry first (first :: rest)
              (Py.join dir [mosaic_filename "HLS" band d]) st1) as (st2 & Hw).
  destruct (mosaic_failure W geometry (first :: rest) first _) as [e |].
  - erewrite run_try_raise by (erewrite run_bind_raise by exact Hw; reflexivity).
    erewrite run_bind_ret by apply run_log.
    eexists. unfold ret. now rewrite app_nil_r.
  - destruct Hw as [Hw _].
    erewrite run_try_ret by (erewrite run_bind_ret by exact Hw; reflexivity).
    eexists. reflexivity.
Qed.

Lemma merged_dates_result out g bs tiles all_dates st :
  exists st',
    process_dates W "HLS" (Some out) g bs tiles tsd all_dates st
    = (Ret (flat_map
              (fun d =>
                 flat_map
                   (fun band =>
                      match g with
                      | None => merged_tile_paths W tsd tiles d band (Py.join out [band])
                      | Some geometry =>
                          merged_mosaic_paths W tsd tiles geometry d band
                            (Py.join out [band])
                      end) bs) all_dates), st').
Proof.
  unfold process_dates.
  apply (for_each_appends
           (fun d => flat_map
                       (fun band =>
                          match g with
                          | None => merged_tile_paths W tsd tiles d band (Py.join out [band])
                          | Some geometry =>
                              merged_mosaic_paths W tsd tiles geometry d band
                                (Py.join out [band])
                          end) bs)).
  intros d acc st0 _. cbv beta.
  apply (for_each_appends
           (fun band =>
              match g with
              | None => merged_tile_paths W tsd tiles d band (Py.join out [band])
              | Some geometry =>
                  merged_mosaic_paths W tsd tiles geometry d band (Py.join out [band])
              end)).
  intros band acc1 st1 _.
  change (process_band W "HLS" (Some out) g tiles tsd d d band acc1 st1)
    with (dispatch_HLS W g tiles tsd d d band (Py.join out [band]) acc1 st1).
  apply dispatch_HLS_result.
Qed.

End MergedResults.

(** X18. The list a run of the merged product returns, [source="HLS"] (the
    default) with a directory.  Without a geometry: one path
    [HLS_{band}_{tile}_{YYYYMMDD}.tif] for every date, band and tile that
    has the date for S30 or for L30, for which [HLS.product] answers and the
    directory and the write do not fail.  With a geometry: one path
    [HLS_{band}_{YYYYMMDD}.tif] for every date and band for which some tile
    gives a merged image and building and writing the mosaic of those
    images do not fail.  The order is that of the dates ascending, then of
    the bands, then of the tiles. *)
Theorem merged_run_returns_its_successful_units
    W a st bs ts start_UTC end_UTC st1 out :
  source a = "HLS" ->
  effective_output a = Some out ->
  validate W a st = (Ret (bs, ts, start_UTC, end_UTC), st1) ->
  connect_error W (download_directory a) = None ->
  listings_answer W start_UTC end_UTC ts ->
  fst (generate_HLS_timeseries W a st)
  = Ret (flat_map
           (fun d =>
              flat_map
                (fun band =>
                   match geom a with
                   | None =>
                       map (fun tile =>
                              Py.join (Py.join out [band]) [tile_filename "HLS" band tile d])
                         (List.filter
                            (merged_tile_succeeds W
                               (fst (indexed W start_UTC end_UTC ts (∅, ∅))) d band
                               (Py.join out [band]))
                            ts)
                   | Some geometry =>
                       merged_mosaic_paths W
                         (fst (indexed W start_UTC end_UTC ts (∅, ∅))) ts geometry d band
                         (Py.join out [band])
                   end)
                bs)
           (universe W start_UTC end_UTC ts)).
Proof.
  intros Hsrc Hout Hval Hconn Hall.
  destruct (generate_after_index W a st bs ts start_UTC end_UTC st1 Hval Hconn Hall)
    as (st2 & Hrun & _).
  rewrite Hrun, Hout, Hsrc.
  destruct (merged_dates_result W (fst (indexed W start_UTC end_UTC ts (∅, ∅)))
              out (geom a) bs ts (universe W start_UTC end_UTC ts) st2) as (st3 & Hloop).
  rewrite Hloop. reflexivity.
Qed.

Lemma merged_run_returns_its_successful_units_witness :
  fst (generate_HLS_timeseries demo_world (demo_args "HLS") empty_state)
  = Ret [ "out/red/HLS_red_10SEG_20220803.tif";
          "out/red/HLS_red_11SKA_20220803.tif";
          "out/red/HLS_red_10SEG_20220804.tif" ].
Proof.
  rewrite (merged_run_returns_its_successful_units demo_world (demo_args "HLS")
             empty_state ["red"] ["10SEG"; "11SKA"] (Some d20220801) (Some d20220805)
             empty_state "out").
  - vm_compute. reflexivity.
  - reflexivity.
  - reflexivity.
  - vm_compute. reflexivity.
  - reflexivity.
  - repeat constructor; eexists; reflexivity.
Defined.

(** ** C10: the default bands *)

Lemma validate_source W a st v st1 :
  validate W a st = (Ret v, st1) -> source a ∈ valid_sources.
Proof.
  unfold validate. destruct (bool_decide (source a ∈ valid_sources)) eqn:Hsrc.
  - intros _. now apply bool_decide_eq_true in Hsrc.
  - intros H. erewrite run_bind_raise in H by reflexivity. discriminate.
Qed.

Lemma validate_bands W a st bs ts start_UTC end_UTC st1 :
  validate W a st = (Ret (bs, ts, start_UTC, end_UTC), st1) ->
  bs = normalize_bands (bands a).
Proof.
  intros H.
  assert (Hb : behaves (fun _ => True)
                 (fun v => fst (fst (fst v)) = normalize_bands (bands a)) (validate W a))
    by (apply shape_validate; intros; exact I).
  destruct (behaves_events _ _ _ st Hb) as [_ HQ].
  apply (HQ (bs, ts, start_UTC, end_UTC)). now rewrite H.
Qed.

Lemma process_dates_result W src out g bs tiles tsd all_dates st :
  src ∈ valid_sources ->
  exists st',
    process_dates W src (Some out) g bs tiles tsd all_dates st
    = (Ret (flat_map (fun d => flat_map (band_paths W src out g tiles tsd d) bs) all_dates),
       st').
Proof.
  intros Hsrc. unfold valid_sources in Hsrc.
  apply elem_of_cons in Hsrc as [-> | Hsrc];
    [exact (merged_dates_result W tsd out g bs tiles all_dates st) |].
  apply elem_of_cons in Hsrc as [-> | Hsrc];
    [exact (sensor_dates_result W "S30" out g bs tiles tsd all_dates st
              (or_introl eq_refl)) |].
  apply elem_of_cons in Hsrc as [-> | Hsrc];
    [exact (sensor_dates_result W "L30" out g bs tiles tsd all_dates st
              (or_intror eq_refl)) |].
  apply elem_of_cons in Hsrc as [-> | Hsrc]; [| inversion Hsrc].
  exact (both_dates_result W out g bs tiles tsd all_dates st).
Qed.

(** C10. With [bands=None] the orchestrator processes the thirteen default
    bands red, green, blue, coastal_aerosol, NIR, rededge1, rededge2,
    rededge3, NIR_broad, SWIR1, SWIR2, water_vapor, cirrus, in that order:
    the band list that leaves the validation is this list; the whole run is
    the run of the call that names the thirteen bands; and when the run
    reaches the loop (a directory is known, the connection opens and the
    listings answer) the list it returns is, date after date, the paths of
    red, then of green, and so on to cirrus, each band giving the paths of
    its successful units in its source mode. *)
Theorem default_bands_thirteen W a st bs ts start_UTC end_UTC st1 out :
  bands a = None ->
  effective_output a = Some out ->
  validate W a st = (Ret (bs, ts, start_UTC, end_UTC), st1) ->
  connect_error W (download_directory a) = None ->
  listings_answer W start_UTC end_UTC ts ->
  bs = [ "red"; "green"; "blue"; "coastal_aerosol"; "NIR"; "rededge1"; "rededge2";
         "rededge3"; "NIR_broad"; "SWIR1"; "SWIR2"; "water_vapor"; "cirrus" ]
  /\ generate_HLS_timeseries W a
     = generate_HLS_timeseries W
         (Args (Some (StrList
                  [ "red"; "green"; "blue"; "coastal_aerosol"; "NIR"; "rededge1";
                    "rededge2"; "rededge3"; "NIR_broad"; "SWIR1"; "SWIR2";
                    "water_vapor"; "cirrus" ]))
               (tiles a) (geom a) (start_date_UTC a) (end_date_UTC a)
               (download_directory a) (output_directory a) (source a))
  /\ fst (generate_HLS_timeseries W a st)
     = Ret (flat_map
              (fun d =>
                 flat_map
                   (band_paths W (source a) out (geom a) ts
                      (fst (indexed W start_UTC end_UTC ts (∅, ∅))) d)
                   [ "red"; "green"; "blue"; "coastal_aerosol"; "NIR"; "rededge1";
                     "rededge2"; "rededge3"; "NIR_broad"; "SWIR1"; "SWIR2";
                     "water_vapor"; "cirrus" ])
              (universe W start_UTC end_UTC ts)).
Proof.
  intros Hbands Hout Hval Hconn Hall.
  assert (Hbs : bs = [ "red"; "green"; "blue"; "coastal_aerosol"; "NIR"; "rededge1";
                       "rededge2"; "rededge3"; "NIR_broad"; "SWIR1"; "SWIR2";
                       "water_vapor"; "cirrus" ]).
  { rewrite (validate_bands W a st bs ts start_UTC end_UTC st1 Hval), Hbands.
    reflexivity. }
  split; [exact Hbs |]. split.
  - clear -Hbands. destruct a as [b t g s e dd od src]. simpl in Hbands. subst b.
    reflexivity.
  - destruct (generate_after_index W a st bs ts start_UTC end_UTC st1 Hval Hconn Hall)
      as (st2 & Hrun & _).
    rewrite Hrun, Hout.
    destruct (process_dates_result W (source a) out (geom a) bs ts
                (fst (indexed W start_UTC end_UTC ts (∅, ∅)))
                (universe W start_UTC end_UTC ts) st2
                (validate_source W a st _ st1 Hval)) as (st3 & Hloop).
    rewrite Hloop, Hbs. reflexivity.
Qed.

Lemma default_bands_thirteen_witness :
  fst (generate_HLS_timeseries demo_world
         (Args None (Some (Str "10SEG")) None
               (Some (DateText "2022-08-03")) (Some (DateText "2022-08-03"))
               None (Some "out") "S30") empty_state)
  = Ret [ "out/red/S30_red_10SEG_20220803.tif";
          "out/green/S30_green_10SEG_20220803.tif";
          "out/blue/S30_blue_10SEG_20220803.tif";
          "out/coastal_aerosol/S30_coastal_aerosol_10SEG_20220803.tif";
          "out/NIR/S30_NIR_10SEG_20220803.tif";
          "out/rededge1/S30_rededge1_10SEG_20220803.tif";
          "out/rededge2/S30_rededge2_10SEG_20220803.tif";
          "out/rededge3/S30_rededge3_10SEG_20220803.tif";
          "out/NIR_broad/S30_NIR_broad_10SEG_20220803.tif";
          "out/SWIR1/S30_SWIR1_10SEG_20220803.tif";
          "out/SWIR2/S30_SWIR2_10SEG_20220803.tif";
          "out/water_vapor/S30_water_vapor_10SEG_20220803.tif";
          "out/cirrus/S30_cirrus_10SEG_20220803.tif" ].
Proof.
  destruct (default_bands_thirteen demo_world
              (Args None (Some (Str "10SEG")) None
                    (Some (DateText "2022-08-03")) (Some (DateText "2022-08-03"))
                    None (Some "out") "S30")
              empty_state BANDS ["10SEG"] (Some d20220803) (Some d20220803)
              empty_state "out") as (_ & _ & H).
  - reflexivity.
  - reflexivity.
  - vm_compute. reflexivity.
  - reflexivity.
  - repeat constructor; eexists; reflexivity.
  - rewrite H. vm_compute. reflexivity.
Defined.
